(** * SME financial-health backend: normalisation pipeline and metrics engine

    A shallow embedding of the ingestion code ([app/main.py], [app/utils.py],
    [app/routes_invoice_ocr.py]) and of the derived-metrics endpoints, with
    the properties of the specification stated and proved over it.

    Conventions of the embedding.
    - Python [str] values are Rocq strings, one [ascii] per character (ASCII
      text); the invoice text of [routes_invoice_ocr.py], whose pattern holds
      characters beyond Latin-1, is a list of code points.
    - Python [float] values are exact rationals [Q], compared with [==];
      the rounding of the float operations is outside the embedding, and a
      property that depends on it is stated on the values on which these
      operations are exact.  Where a text is read with [float], whose
      result need not be finite, the value is a [pyfloat]: a rational, an
      infinity or NaN.
    - A [dict] is a [gmap]; a raised exception is the [Err] case of [result].
    - A date read by [_parse_date_any] is a [pydate]: a date or pandas' NaT.
    - Frames are as pandas 2 has them: [astype(str)] turns a missing cell
      into the text "nan".
    - Library calls whose code is not part of the repository ([float],
      [datetime.strptime], [pandas.to_datetime], [pandas.to_numeric], the
      [repr] of a float) are parameters of the sections that use them. *)

From Stdlib Require Import ZArith QArith Qabs Qround Lqa Lia Ascii String.
From Stdlib Require Import DecimalString DecimalN.
From stdpp Require Import base gmap strings list sorting.

(** ** Results of fallible code *)

Inductive exn : Type :=
| HTTPException (status : Z) (detail : string)
| ValueError (msg : string)
| AttributeError (msg : string)
| SQLAlchemyError.

Inductive result (A : Type) : Type :=
| Ok (a : A)
| Err (e : exn).
Arguments Ok {A} a.
Arguments Err {A} e.

#[global] Instance result_ret : MRet result := λ A a, Ok a.
#[global] Instance result_bind : MBind result := λ A B k r,
  match r with
  | Ok a => k a
  | Err e => Err e
  end.

#[global] Instance result_fmap : FMap result := λ A B f r,
  match r with
  | Ok a => Ok (f a)
  | Err e => Err e
  end.

(** [Series.apply f]: the first exception raised by [f] aborts the whole
    traversal. *)
Fixpoint apply_series {A B : Type} (f : A → result B) (l : list A) : result (list B) :=
  match l with
  | [] => Ok []
  | x :: l' => y ← f x; ys ← apply_series f l'; Ok (y :: ys)
  end.

(** ** Python text primitives *)

Module Py.

Definition is_space (c : ascii) : bool :=
  let n := N_of_ascii c in
  (((9 <=? n) && (n <=? 13)) || ((28 <=? n) && (n <=? 32)))%N.

Definition is_digit (c : ascii) : bool :=
  let n := N_of_ascii c in ((48 <=? n) && (n <=? 57))%N.

Definition lower_char (c : ascii) : ascii :=
  let n := N_of_ascii c in
  if ((65 <=? n) && (n <=? 90))%N then ascii_of_N (n + 32) else c.

Definition upper_char (c : ascii) : ascii :=
  let n := N_of_ascii c in
  if ((97 <=? n) && (n <=? 122))%N then ascii_of_N (n - 32) else c.

Fixpoint smap (f : ascii → ascii) (s : string) : string :=
  match s with
  | EmptyString => EmptyString
  | String c s' => String (f c) (smap f s')
  end.

(** [s.lower()], [s.upper()] *)
Definition lower : string → string := smap lower_char.
Definition upper : string → string := smap upper_char.

Fixpoint lstrip (s : string) : string :=
  match s with
  | EmptyString => EmptyString
  | String c s' => if is_space c then lstrip s' else s
  end.

Definition rstrip (s : string) : string := String.rev (lstrip (String.rev s)).

(** [s.strip()] *)
Definition strip (s : string) : string := rstrip (lstrip s).

(** [s.replace(c, "")] for a one-character [c] *)
Fixpoint remove_char (c : ascii) (s : string) : string :=
  match s with
  | EmptyString => EmptyString
  | String a s' => if Ascii.eqb a c then remove_char c s' else String a (remove_char c s')
  end.

(** [s[:n]] *)
Fixpoint slice_to (n : nat) (s : string) : string :=
  match n, s with
  | S n', String c s' => String c (slice_to n' s')
  | _, _ => EmptyString
  end.

(** [s.startswith(p)] *)
Fixpoint startswith (p s : string) : bool :=
  match p, s with
  | EmptyString, _ => true
  | String a p', String b s' => Ascii.eqb a b && startswith p' s'
  | String _ _, EmptyString => false
  end.

(** [p in s] *)
Fixpoint contains (p s : string) : bool :=
  startswith p s ||
  match s with
  | EmptyString => false
  | String _ s' => contains p s'
  end.

(** [s.split()]: the maximal runs of non-whitespace characters. *)
Fixpoint split_go (cur : option string) (s : string) : list string :=
  match s with
  | EmptyString => option_list (String.rev <$> cur)
  | String a s' =>
      if is_space a
      then option_list (String.rev <$> cur) ++ split_go None s'
      else split_go (Some (from_option (String a) (String a EmptyString) cur)) s'
  end.
Definition split : string → list string := split_go None.

(** [s.split(c)] for a one-character separator [c]: always at least one
    field. *)
Fixpoint split_on_go (c : ascii) (cur : string) (s : string) : list string :=
  match s with
  | EmptyString => [String.rev cur]
  | String a s' =>
      if Ascii.eqb a c
      then String.rev cur :: split_on_go c EmptyString s'
      else split_on_go c (String a cur) s'
  end.
Definition split_on (c : ascii) : string → list string := split_on_go c EmptyString.

(** [s.replace(old, new)] for a non-empty [old]: occurrences are replaced
    from the left and do not overlap.  [skip] counts the characters of an
    occurrence that are still to be dropped. *)
Fixpoint replace_go (old new : string) (skip : nat) (s : string) : string :=
  match s with
  | EmptyString => EmptyString
  | String a s' =>
      match skip with
      | S k => replace_go old new k s'
      | O =>
          if startswith old s
          then new +:+ replace_go old new (String.length old - 1) s'
          else String a (replace_go old new O s')
      end
  end.
Definition replace (old new s : string) : string :=
  match old with
  | EmptyString => s
  | _ => replace_go old new O s
  end.

(** [str(n)] for a natural number *)
Definition str_N (n : N) : string := NilZero.string_of_uint (N.to_uint n).

Fixpoint zeros (k : nat) : string :=
  match k with
  | O => EmptyString
  | S k' => String "0" (zeros k')
  end.

Definition zfill (width : nat) (s : string) : string :=
  zeros (width - String.length s) +:+ s.

(** [f"{n:0{width}d}"]: the sign, when there is one, counts in the width. *)
Definition format_d (width : nat) (n : Z) : string :=
  if (n <? 0)%Z
  then String "-" (zfill (width - 1) (str_N (Z.to_N (- n))))
  else zfill width (str_N (Z.to_N n)).

(** [int(s)] on a decimal literal with an optional sign and surrounding
    white space ([None] stands for [ValueError]); digit separators are not
    modelled. *)
Definition int_digits (s : string) : option Z :=
  (λ d, Z.of_N (N.of_uint d)) <$> NilZero.uint_of_string s.

Definition int (s : string) : option Z :=
  match strip s with
  | String "-" s' => Z.opp <$> int_digits s'
  | String "+" s' => int_digits s'
  | s' => int_digits s'
  end.

(** [s.endswith(suffix)] *)
Definition endswith (suffix s : string) : bool :=
  startswith (String.rev suffix) (String.rev s).

(** The texts [float] reads as NaN: [nan] in any case, with an optional
    sign, white space around it. *)
Definition is_nan_literal (s : string) : bool :=
  bool_decide (lower (strip s) ∈ ["nan"; "+nan"; "-nan"]).

End Py.

(** ** Data model *)

Record date : Type := Date { year : Z; month : Z; day : Z }.

#[global] Instance date_eq_dec : EqDecision date.
Proof. solve_decision. Defined.

(** [d.isoformat()], also [str(d)] *)
Definition isoformat (d : date) : string :=
  Py.format_d 4 (year d) +:+ "-" +:+ Py.format_d 2 (month d) +:+ "-" +:+ Py.format_d 2 (day d).

(** [d.strftime("%Y-%m")], the year on four digits (as every year from
    1000 on is printed) *)
Definition strftime_Ym (d : date) : string :=
  Py.format_d 4 (year d) +:+ "-" +:+ Py.format_d 2 (month d).

(** A cell of a data frame read by pandas: a missing value, a number, a
    text, or a date. *)
Inductive cell : Type :=
| CNaN
| CNum (x : Q)
| CStr (s : string)
| CDate (d : date).

(** A data frame: its column labels and its rows, each row holding one cell
    per label.  The labels are distinct, as pandas' readers make them. *)
Record DataFrame : Type := { columns : list string; rows : list (list cell) }.

(** [df.empty] *)
Definition df_empty (df : DataFrame) : bool :=
  bool_decide (columns df = []) || bool_decide (rows df = []).

Fixpoint col_index (c : string) (labels : list string) : option nat :=
  match labels with
  | [] => None
  | l :: rest => if decide (l = c) then Some 0%nat else S <$> col_index c rest
  end.

(** [df[c]] as the list of the cells of column [c], top to bottom. *)
Definition series (df : DataFrame) (c : string) : list cell :=
  match col_index c (columns df) with
  | Some i => (λ r, nth i r CNaN) <$> rows df
  | None => []
  end.

(** Python truthiness of an optional text: [None] and [""] are false. *)
Definition truthy (o : option string) : bool :=
  match o with
  | Some (String _ _) => true
  | _ => false
  end.

(** [pd.isna(x)] *)
Definition isna (x : cell) : bool :=
  match x with
  | CNaN => true
  | _ => false
  end.

(** [str(x)] for a cell, given the [str] of a float; [Series.astype(str)]
    applies it to every cell. *)
Definition str_of_cell (float_repr : Q → string) (x : cell) : string :=
  match x with
  | CNaN => "nan"
  | CNum q => float_repr q
  | CStr s => s
  | CDate d => isoformat d
  end.

(** A Python [float]: a finite value, an infinity, or NaN. *)
Inductive pyfloat : Type :=
| Finite (q : Q)
| Infinite (negative : bool)
| NaN.

(** What [float] makes of a text that is not a spelling of NaN: a finite
    number or, for [inf], [infinity] and a literal out of range, an
    infinity. *)
Inductive number : Type :=
| Num (q : Q)
| Inf (negative : bool).

Definition float_of_number (n : number) : pyfloat :=
  match n with
  | Num q => Finite q
  | Inf negative => Infinite negative
  end.

(** [abs(x)] *)
Definition fabs (x : pyfloat) : pyfloat :=
  match x with
  | Finite q => Finite (Qabs q)
  | Infinite _ => Infinite false
  | NaN => NaN
  end.

(** [x >= 0], which is false of NaN *)
Definition fge0 (x : pyfloat) : bool :=
  match x with
  | Finite q => Qle_bool 0%Q q
  | Infinite negative => negb negative
  | NaN => false
  end.

(** [lambda x: "credit" if x >= 0 else "debit"] *)
(** [x - y]: an infinity less the same infinity is NaN. *)
Definition fsub (x y : pyfloat) : pyfloat :=
  match x, y with
  | NaN, _ | _, NaN => NaN
  | Finite a, Finite b => Finite (a - b)
  | Finite _, Infinite b => Infinite (negb b)
  | Infinite a, Finite _ => Infinite a
  | Infinite a, Infinite b => if Bool.eqb a b then NaN else Infinite a
  end.

(** [x > y], false when one of them is NaN. *)
Definition fgt (x y : pyfloat) : bool :=
  match x, y with
  | NaN, _ | _, NaN => false
  | Finite a, Finite b => negb (Qle_bool a b)
  | Finite _, Infinite b => b
  | Infinite a, Finite _ => negb a
  | Infinite a, Infinite b => negb a && b
  end.

Definition sign_direction (x : pyfloat) : string :=
  if fge0 x then "credit" else "debit".

(** What [_parse_date_any] returns: a date, or pandas' NaT, which
    [pd.to_datetime] gives for a text it takes as missing. *)
Inductive pydate : Type :=
| ADate (d : date)
| NaT.

(** [str(d)] *)
Definition str_of_pydate (d : pydate) : string :=
  match d with
  | ADate d => isoformat d
  | NaT => "NaT"
  end.

(** The canonical transaction: one row of a normalised frame. *)
Record txn_row : Type := {
  txn_date : pydate;
  description : string;
  category : string;
  direction : string;
  amount : pyfloat
}.

(** The frame is assembled column by column; its rows are read across. *)
Fixpoint frame_rows (dates : list pydate) (descs cats dirs : list string)
    (amts : list pyfloat) : list txn_row :=
  match dates, descs, cats, dirs, amts with
  | d :: dates', de :: descs', c :: cats', di :: dirs', a :: amts' =>
      {| txn_date := d; description := de; category := c; direction := di; amount := a |}
      :: frame_rows dates' descs' cats' dirs' amts'
  | _, _, _, _, _ => []
  end.

(** ** [app/models.py]: the stored transaction *)

Module Models.

(** [description] and [category] are nullable columns. *)
Record Transaction : Type := {
  txn_date : date;
  description : option string;
  amount : Q;
  direction : string;
  category : option string
}.

(** The columns of [Business] that the code reads. *)
Record Business : Type := {
  id : Z;
  owner_user_id : Z;
  name : string
}.

(** A row of the table of transactions: the business it belongs to and the
    fields above. *)
Record TransactionRow : Type := {
  business_id : Z;
  fields : Transaction
}.

End Models.

(** ** [app/models_audit.py], [app/audit.py]: the audit trail *)

Module Audit.

Inductive json : Type :=
| JNull
| JStr (s : string)
| JInt (n : Z).

Record AuditLog : Type := {
  user_id : option Z;
  business_id : option Z;
  action : string;
  entity : option string;
  entity_id : option Z;
  ip : option string;
  user_agent : option string;
  payload : list (string * json)
}.

(** What [log_audit] reads of the request. *)
Record Request : Type := {
  client_host : option string;
  header_user_agent : option string
}.

End Audit.

(** The store behind a session: the three tables the code reads and
    writes. *)
Record Db : Type := {
  businesses : list Models.Business;
  transactions : list Models.TransactionRow;
  audit_logs : list Audit.AuditLog
}.

(** [log_audit]: one record more, the user agent cut to 255 characters. *)
Definition log_audit (db : Db) (request : Audit.Request) (user_id business_id : option Z)
    (action : string) (entity : option string) (entity_id : option Z)
    (payload : list (string * Audit.json)) : Db :=
  let ip := Audit.client_host request in
  let ua := Audit.header_user_agent request in
  {| businesses := businesses db;
     transactions := transactions db;
     audit_logs := audit_logs db ++
       [ {| Audit.user_id := user_id; Audit.business_id := business_id;
            Audit.action := action; Audit.entity := entity; Audit.entity_id := entity_id;
            Audit.ip := ip;
            Audit.user_agent := if truthy ua then Py.slice_to 255 <$> ua else None;
            Audit.payload := payload |} ] |}.

(** ** Derived-metric values *)

(** One entry of the monthly series. *)
Module Bucket.
Record t : Type := {
  month : string;
  revenue : Q;
  expenses : Q;
  profit_simple : Q
}.
End Bucket.

(** One entry of the forecast. *)
Module Forecast.
Record entry : Type := {
  month : string;
  forecast_revenue : Q;
  forecast_net_cashflow : Q
}.
End Forecast.

(** [round(x, 0)] as an integer: to the nearest, ties to the even one. *)
Definition round_half_even (x : Q) : Z :=
  let f := Qfloor x in
  match ((x - inject_Z f) ?= (1 # 2))%Q with
  | Lt => f
  | Gt => (f + 1)%Z
  | Eq => if Z.even f then f else (f + 1)%Z
  end.

(** [round(x, 2)] *)
Definition round2 (x : Q) : Q :=
  Qred (inject_Z (round_half_even (x * 100)%Q) / 100)%Q.

(** [sum(...)]: from 0, adding from the left.  The additions are those of
    the rationals; they are those of the floats as long as every partial
    sum is a number that a float holds exactly. *)
Definition py_sum (l : list Q) : Q := foldl Qplus 0%Q l.

(** ** [app/main.py]: helpers and tabular normalisation *)

Module Main.

Section normalization.
(** [float(s)] for a text that is not a spelling of NaN; [None] when it
    raises. *)
Variable float_number : string → option number.
(** [str(x)] for a float [x]. *)
Variable float_repr : Q → string.
(** [datetime.strptime(s, fmt).date()]; [None] when it raises. *)
Variable strptime : string → string → option date.
(** [pd.to_datetime(s).date()]: a date, or NaT for a text pandas takes as
    missing; [None] when it raises. *)
Variable pd_to_datetime : string → option pydate.

Definition str_cell : cell → string := str_of_cell float_repr.

(** [float(s)]; [None] when it raises. *)
Definition py_float (s : string) : option pyfloat :=
  if Py.is_nan_literal s then Some NaN else float_of_number <$> float_number s.

Definition _safe_float (x : cell) : pyfloat :=
  if isna x then Finite 0
  else
    let s := Py.strip (Py.remove_char "," (str_cell x)) in
    if decide (s = "") then Finite 0
    else match py_float s with
         | Some v => v
         | None => Finite 0
         end.

Definition _normalize_direction (v : string) : string :=
  let s := Py.lower (Py.strip v) in
  if bool_decide (s ∈ ["credit"; "cr"; "c"; "in"; "inflow"; "income"]) then "credit"
  else if bool_decide (s ∈ ["debit"; "dr"; "d"; "out"; "outflow"; "expense"]) then "debit"
  else "debit".

Definition date_formats : list string :=
  ["%Y-%m-%d"; "%d/%m/%Y"; "%d-%m-%Y"; "%m/%d/%Y"].

Fixpoint try_formats (s : string) (fmts : list string) : option date :=
  match fmts with
  | [] => None
  | fmt :: rest =>
      match strptime s fmt with
      | Some d => Some d
      | None => try_formats s rest
      end
  end.

Definition _parse_date_any (v : cell) : result pydate :=
  match v with
  | CDate d => Ok (ADate d)
  | _ =>
      let s := Py.strip (str_cell v) in
      match try_formats s date_formats with
      | Some d => Ok (ADate d)
      | None =>
          match pd_to_datetime s with
          | Some d => Ok d
          | None => Err (HTTPException 400 ("Invalid date: " +:+ str_cell v))
          end
      end
  end.

(** [{c.lower().strip(): c for c in df.columns}] *)
Definition cols_dict (columns : list string) : gmap string string :=
  foldl (λ m c, <[Py.strip (Py.lower c) := c]> m) ∅ columns.

Fixpoint pick (cols : gmap string string) (names : list string) : option string :=
  match names with
  | [] => None
  | n :: rest =>
      match cols !! n with
      | Some c => Some c
      | None => pick cols rest
      end
  end.

(** The columns found by the calls of [pick]. *)
Record field_mapping : Type := {
  c_date : option string;
  c_desc : option string;
  c_cat : option string;
  c_dir : option string;
  c_amt : option string
}.

Definition detect_columns (df : DataFrame) : field_mapping :=
  let cols := cols_dict (columns df) in
  {| c_date := pick cols ["date"; "txn_date"; "transaction_date"; "value_date"];
     c_desc := pick cols ["description"; "narration"; "particulars"; "details";
                          "remark"; "remarks"];
     c_cat := pick cols ["category"; "cat"; "type"];
     c_dir := pick cols ["direction"; "drcr"; "dr_cr"; "credit_debit"];
     c_amt := pick cols ["amount"; "amt"; "value"; "transaction_amount"] |}.

(** [df[c]] for a column that was found *)
Definition column (df : DataFrame) (c : option string) : list cell :=
  series df (default "" c).

(** [out["description"]] as first assigned *)
Definition detected_description (df : DataFrame) (fm : field_mapping) : list string :=
  if truthy (c_desc fm) then str_cell <$> column df (c_desc fm)
  else replicate (length (rows df)) "".

(** [out["category"]] as first assigned *)
Definition detected_category (df : DataFrame) (fm : field_mapping) : list string :=
  if truthy (c_cat fm) then (λ x, Py.lower (str_cell x)) <$> column df (c_cat fm)
  else replicate (length (rows df)) "".

(** [out["direction"]] and [out["amount"]] as first assigned *)
Definition detected_direction (df : DataFrame) (fm : field_mapping) : list string :=
  if truthy (c_dir fm)
  then (λ x, _normalize_direction (str_cell x)) <$> column df (c_dir fm)
  else sign_direction <$> (_safe_float <$> column df (c_amt fm)).

Definition amount_column (df : DataFrame) (fm : field_mapping) : list pyfloat :=
  if truthy (c_dir fm)
  then (λ x, fabs (_safe_float x)) <$> column df (c_amt fm)
  else fabs <$> (_safe_float <$> column df (c_amt fm)).

(** [out.loc[(out["category"] == "") & (out["direction"] == d), "category"] = c] *)
Definition fill_category (d c : string) (cats dirs : list string) : list string :=
  zip_with (λ cat dir, if String.eqb cat "" && String.eqb dir d then c else cat) cats dirs.

(** The three columns after the closing clean-up *)
Definition description_column (df : DataFrame) (fm : field_mapping) : list string :=
  (λ s, Py.slice_to 255 (Py.strip s)) <$> detected_description df fm.

Definition category_column (df : DataFrame) (fm : field_mapping) : list string :=
  let dirs := detected_direction df fm in
  let cats := fill_category "credit" "revenue" (detected_category df fm) dirs in
  let cats := fill_category "debit" "expense" cats dirs in
  (λ s, Py.slice_to 64 (Py.strip s)) <$> cats.

Definition direction_column (df : DataFrame) (fm : field_mapping) : list string :=
  (λ s, Py.lower (Py.strip s)) <$> detected_direction df fm.

Definition normalize_transactions (df : DataFrame) : result (list txn_row) :=
  if df_empty df then Ok []
  else
    let fm := detect_columns df in
    if negb (truthy (c_date fm)) || negb (truthy (c_amt fm))
    then Err (HTTPException 400
      "CSV/XLSX must contain at least: date, amount (optional description/category/direction).")
    else
      dates ← apply_series _parse_date_any (column df (c_date fm));
      Ok (frame_rows dates (description_column df fm) (category_column df fm)
            (direction_column df fm) (amount_column df fm)).

(** *** Text-layer PDF import *)

(** The text lines of the pages: [page.extract_text() or ""], split at
    line feeds, trimmed, blank lines dropped. *)
Definition pdf_lines (pages : list (option string)) : list string :=
  pages ≫= λ page,
    filter (λ line, line ≠ "") (Py.strip <$> Py.split_on "010" (default "" page)).

(** A pattern made of [\d] ([None]) and literal characters, matched at
    the start of the line. *)
Fixpoint match_start (pat : list (option ascii)) (s : string) : bool :=
  match pat, s with
  | [], _ => true
  | None :: pat', String c s' => Py.is_digit c && match_start pat' s'
  | Some a :: pat', String c s' => Ascii.eqb a c && match_start pat' s'
  | _ :: _, EmptyString => false
  end.

Definition d4 : list (option ascii) := [None; None; None; None].
Definition d2 : list (option ascii) := [None; None].

(** [date_patterns], each anchored at the start of the line *)
Definition date_patterns : list (list (option ascii)) :=
  [ d4 ++ [Some "-"%char] ++ d2 ++ [Some "-"%char] ++ d2;
    d2 ++ [Some "/"%char] ++ d2 ++ [Some "/"%char] ++ d4;
    d2 ++ [Some "-"%char] ++ d2 ++ [Some "-"%char] ++ d4 ].

(** [date_re.search(line)] *)
Definition date_re_search (line : string) : bool :=
  existsb (λ pat, match_start pat line) date_patterns.

(** The scanner for [re.findall(r"[-]?\d[\d,]*\.?\d*", line)]: outside a
    match, after a tentative minus sign, in the integer part, or in the
    fraction. The text of the match in progress is kept reversed. *)
Inductive num_state : Type :=
| Idle
| Minus
| IntPart (cur : string)
| FracPart (cur : string).

Definition num_start (c : ascii) : num_state :=
  if Py.is_digit c then IntPart (String c EmptyString)
  else if Ascii.eqb c "-" then Minus
  else Idle.

Fixpoint findall_nums_go (st : num_state) (s : string) : list string :=
  match s with
  | EmptyString =>
      match st with
      | IntPart cur | FracPart cur => [String.rev cur]
      | _ => []
      end
  | String c s' =>
      match st with
      | Idle => findall_nums_go (num_start c) s'
      | Minus =>
          if Py.is_digit c
          then findall_nums_go (IntPart (String c (String "-" EmptyString))) s'
          else findall_nums_go (num_start c) s'
      | IntPart cur =>
          if Py.is_digit c || Ascii.eqb c ","
          then findall_nums_go (IntPart (String c cur)) s'
          else if Ascii.eqb c "."
          then findall_nums_go (FracPart (String c cur)) s'
          else String.rev cur :: findall_nums_go (num_start c) s'
      | FracPart cur =>
          if Py.is_digit c
          then findall_nums_go (FracPart (String c cur)) s'
          else String.rev cur :: findall_nums_go (num_start c) s'
      end
  end.

Definition findall_nums : string → list string := findall_nums_go Idle.

(** The direction test of the import: [" DR" in u or "DEBIT" in u]. *)
Definition pdf_direction (line : string) : string :=
  let u := Py.upper line in
  if Py.contains " DR" u || Py.contains "DEBIT" u then "debit" else "credit".

(** The body of the loop over the lines; [None] is [continue].  A line
    that passes [date_re] starts with a digit, so [parts[0]] exists. *)
Definition parse_pdf_line (line : string) : option txn_row :=
  if negb (date_re_search line) then None
  else
    match Py.split line with
    | [] => None
    | raw_date :: _ =>
        match _parse_date_any (CStr raw_date) with
        | Err _ => None
        | Ok d =>
            match last (findall_nums line) with
            | None => None
            | Some num =>
                match py_float (Py.remove_char "," num) with
                | None => None
                | Some amt =>
                    let direction := pdf_direction line in
                    let category :=
                      if String.eqb direction "credit" then "revenue" else "expense" in
                    let desc := Py.strip (Py.replace raw_date "" line) in
                    Some {| txn_date := d;
                            description := Py.slice_to 255 desc;
                            category := category;
                            direction := direction;
                            amount := fabs amt |}
                end
            end
        end
    end.

(** [parse_pdf_transactions_text], from the text of the pages on. *)
Definition parse_pdf_transactions_text (pages : list (option string)) : list txn_row :=
  omap parse_pdf_line (pdf_lines pages).

End normalization.

(** [_add_months_ym] *)
Definition _add_months_ym (ym : string) (add : Z) : result string :=
  match Py.split_on "-" ym with
  | [y; m] =>
      match Py.int y, Py.int m with
      | Some y, Some m =>
          let idx := (y * 12 + (m - 1) + add)%Z in
          let ny := (idx `div` 12)%Z in
          let nm := (idx `mod` 12 + 1)%Z in
          Ok (Py.format_d 4 ny +:+ "-" +:+ Py.format_d 2 nm)
      | _, _ => Err (ValueError "invalid literal for int() with base 10")
      end
  | _ => Err (ValueError "wrong number of values to unpack (expected 2)")
  end.

(** *** Metrics over the stored transactions of a business *)

Definition is_credit (t : Models.Transaction) : bool :=
  String.eqb (Py.lower (Models.direction t)) "credit".
Definition is_debit (t : Models.Transaction) : bool :=
  String.eqb (Py.lower (Models.direction t)) "debit".
Definition is_revenue (t : Models.Transaction) : bool :=
  String.eqb (Py.lower (default "" (Models.category t))) "revenue".

(** [sum(float(t.amount) for t in txns if p(t))] *)
Definition sum_amounts (p : Models.Transaction → bool) (txns : list Models.Transaction) : Q :=
  py_sum (Models.amount <$> filter (λ t, p t = true) txns).

Definition inflow_of (txns : list Models.Transaction) : Q := sum_amounts is_credit txns.
Definition outflow_of (txns : list Models.Transaction) : Q := sum_amounts is_debit txns.
Definition revenue_of (txns : list Models.Transaction) : Q :=
  sum_amounts (λ t, is_revenue t && is_credit t) txns.
Definition expenses_of (txns : list Models.Transaction) : Q := sum_amounts is_debit txns.

Record kpi_summary : Type := {
  total_transactions : nat;
  total_inflow : Q;
  total_outflow : Q;
  net_cashflow : Q;
  total_revenue : Q;
  total_expenses : Q;
  net_profit_simple : Q;
  expense_ratio : option Q
}.

Definition kpis (txns : list Models.Transaction) : kpi_summary :=
  let inflow := inflow_of txns in
  let outflow := outflow_of txns in
  let revenue := revenue_of txns in
  let expenses := expenses_of txns in
  let net_cashflow := (inflow - outflow)%Q in
  let profit_simple := (revenue - expenses)%Q in
  let expense_ratio :=
    if Qlt_le_dec 0 revenue then Some (expenses / revenue * 100)%Q else None in
  {| total_transactions := length txns;
     total_inflow := round2 inflow;
     total_outflow := round2 outflow;
     net_cashflow := round2 net_cashflow;
     total_revenue := round2 revenue;
     total_expenses := round2 expenses;
     net_profit_simple := round2 profit_simple;
     expense_ratio := round2 <$> expense_ratio |}.

Definition add_revenue (a : Q) (b : Bucket.t) : Bucket.t :=
  {| Bucket.month := Bucket.month b; Bucket.revenue := (Bucket.revenue b + a)%Q;
     Bucket.expenses := Bucket.expenses b; Bucket.profit_simple := Bucket.profit_simple b |}.

Definition add_expenses (a : Q) (b : Bucket.t) : Bucket.t :=
  {| Bucket.month := Bucket.month b; Bucket.revenue := Bucket.revenue b;
     Bucket.expenses := (Bucket.expenses b + a)%Q; Bucket.profit_simple := Bucket.profit_simple b |}.

(** The body of the loop of [kpis_monthly] over the transactions. *)
Definition bucket_step (buckets : gmap string Bucket.t) (t : Models.Transaction)
    : gmap string Bucket.t :=
  let m := strftime_Ym (Models.txn_date t) in
  let buckets :=
    match buckets !! m with
    | Some _ => buckets
    | None => <[m := {| Bucket.month := m; Bucket.revenue := 0%Q; Bucket.expenses := 0%Q;
                        Bucket.profit_simple := 0%Q |}]> buckets
    end in
  let buckets :=
    if is_credit t && is_revenue t
    then alter (add_revenue (Models.amount t)) m buckets else buckets in
  if is_debit t then alter (add_expenses (Models.amount t)) m buckets else buckets.

Definition monthly_buckets (txns : list Models.Transaction) : gmap string Bucket.t :=
  foldl bucket_step ∅ txns.

Definition key_le (p q : string * Bucket.t) : Prop := String.le p.1 q.1.

#[global] Instance key_le_dec : RelDecision key_le.
Proof. intros p q. unfold key_le. apply _. Defined.

(** [b["profit_simple"] = b["revenue"] - b["expenses"]] *)
Definition set_profit (b : Bucket.t) : Bucket.t :=
  {| Bucket.month := Bucket.month b; Bucket.revenue := Bucket.revenue b;
     Bucket.expenses := Bucket.expenses b;
     Bucket.profit_simple := (Bucket.revenue b - Bucket.expenses b)%Q |}.

(** [{k: (round(v, 2) if isinstance(v, float) else v) for k, v in b.items()}] *)
Definition round_bucket (b : Bucket.t) : Bucket.t :=
  {| Bucket.month := Bucket.month b; Bucket.revenue := round2 (Bucket.revenue b);
     Bucket.expenses := round2 (Bucket.expenses b);
     Bucket.profit_simple := round2 (Bucket.profit_simple b) |}.

(** The buckets in the order [for m in sorted(buckets.keys())] visits
    them, with [profit_simple] set and before the figures are rounded. *)
Definition monthly_unrounded (txns : list Models.Transaction) : list Bucket.t :=
  (λ p, set_profit p.2) <$> merge_sort key_le (map_to_list (monthly_buckets txns)).

Definition kpis_monthly (txns : list Models.Transaction) : list Bucket.t :=
  match txns with
  | [] => []
  | _ => round_bucket <$> monthly_unrounded txns
  end.

Record score_result : Type := { health_score : Z; rating : string }.

Definition rating_of (s : Z) : string :=
  if (80 <=? s)%Z then "Excellent"
  else if (60 <=? s)%Z then "Good"
  else if (40 <=? s)%Z then "Average"
  else "Poor".

Definition gt0 (x : Q) : bool := negb (Qle_bool x 0%Q).

Definition score (txns : list Models.Transaction) : score_result :=
  match txns with
  | [] => {| health_score := 0; rating := "No Data" |}
  | _ =>
      let inflow := inflow_of txns in
      let outflow := outflow_of txns in
      let revenue := revenue_of txns in
      let expenses := expenses_of txns in
      let net_cf := (inflow - outflow)%Q in
      let profit := (revenue - expenses)%Q in
      let s := 0%Z in
      let s := (s + if gt0 net_cf then 30 else 10)%Z in
      let s := (s + if gt0 profit then 30 else 10)%Z in
      let s := (s + if (20 <=? length txns)%nat then 20 else 10)%Z in
      let s := (s + if gt0 revenue then 20 else 5)%Z in
      {| health_score := s; rating := rating_of s |}
  end.

Inductive forecast_result : Type :=
| NoData
| Projection (forecast : list Forecast.entry) (based_on_months : list string).

(** [forecast] from the monthly series on. *)
Definition forecast_of (monthly : list Bucket.t) (months : Z) : result forecast_result :=
  match last monthly with
  | None => Ok NoData
  | Some last_bucket =>
      let last_n :=
        if (3 <=? length monthly)%nat then drop (length monthly - 3) monthly else monthly in
      let avg_rev := (py_sum (Bucket.revenue <$> last_n) / inject_Z (Z.of_nat (length last_n)))%Q in
      let avg_profit :=
        (py_sum (Bucket.profit_simple <$> last_n) / inject_Z (Z.of_nat (length last_n)))%Q in
      let last_month := Bucket.month last_bucket in
      out ← apply_series (λ i,
               m ← _add_months_ym last_month i;
               Ok {| Forecast.month := m;
                     Forecast.forecast_revenue := round2 avg_rev;
                     Forecast.forecast_net_cashflow := round2 avg_profit |})
             (seqZ 1 months);
      Ok (Projection out (Bucket.month <$> last_n))
  end.

Definition forecast (txns : list Models.Transaction) (months : Z) : result forecast_result :=
  forecast_of (kpis_monthly txns) months.

(** *** Risk flags and recommendations *)

Record risk : Type := { type : string; severity : string; message : string }.

Definition lt0 (x : Q) : bool := negb (Qle_bool 0%Q x).
Definition Qgt_bool (x y : Q) : bool := negb (Qle_bool x y).

Definition risks (txns : list Models.Transaction) : list risk :=
  match txns with
  | [] => [ {| type := "no_data"; severity := "high"; message := "No transactions uploaded" |} ]
  | _ =>
      let inflow := inflow_of txns in
      let outflow := outflow_of txns in
      let revenue := revenue_of txns in
      let expenses := expenses_of txns in
      let net_cf := (inflow - outflow)%Q in
      let out_list := [] in
      let out_list :=
        if lt0 net_cf
        then out_list ++ [ {| type := "cashflow_risk"; severity := "high";
                              message := "Negative cashflow detected" |} ]
        else out_list in
      let out_list :=
        if gt0 revenue && Qgt_bool (expenses / revenue)%Q (8 # 10)
        then out_list ++ [ {| type := "high_expense"; severity := "medium";
                              message := "Expenses are > 80% of revenue" |} ]
        else out_list in
      let out_list :=
        if (length txns <? 10)%nat
        then out_list ++ [ {| type := "low_data"; severity := "low";
                              message := "Few transactions; insights may be weak" |} ]
        else out_list in
      match out_list with
      | [] => [ {| type := "no_major_risks"; severity := "info";
                   message := "No major risks detected" |} ]
      | _ => out_list
      end
  end.

Definition recommendations (txns : list Models.Transaction) : list string :=
  match txns with
  | [] => ["Upload transactions to get recommendations"]
  | _ =>
      let inflow := inflow_of txns in
      let outflow := outflow_of txns in
      let revenue := revenue_of txns in
      let expenses := expenses_of txns in
      let recs := [] in
      let recs :=
        if Qgt_bool outflow inflow
        then recs ++ ["Reduce expenses or improve collections to fix negative cashflow"]
        else recs in
      let recs :=
        if gt0 revenue && Qgt_bool (expenses / revenue)%Q (7 # 10)
        then recs ++ ["Control operating expenses (rent, salary, utilities, marketing)"]
        else recs in
      let recs :=
        if gt0 revenue && Qgt_bool revenue inflow
        then recs ++ ["Speed up customer payments (reminders, shorter credit terms)"]
        else recs in
      match recs with
      | [] => ["Business looks stable. Track KPIs monthly and keep emergency cash reserves"]
      | _ => recs
      end
  end.

(** *** The endpoints over the store *)

(** [require_business_owner] *)
Definition require_business_owner (db : Db) (business_id user_id : Z)
    : result Models.Business :=
  match find (λ b, bool_decide (Models.id b = business_id)) (businesses db) with
  | None => Err (HTTPException 404 "Business not found")
  | Some biz =>
      if bool_decide (Models.owner_user_id biz ≠ user_id)
      then Err (HTTPException 403 "Not allowed for this business")
      else Ok biz
  end.

(** [db.query(Transaction).filter(Transaction.business_id == business_id).all()] *)
Definition transactions_of (db : Db) (business_id : Z) : list Models.Transaction :=
  Models.fields <$> filter (λ r, Models.business_id r = business_id) (transactions db).

(** [Transaction(business_id=business_id, txn_date=r["txn_date"], ...)] as
    the table takes it.  [models.py] declares the date a [Date] and the
    amount a [Float], both not null, and the rows of the table hold a date
    and a number: a row whose date is NaT is not a row of the table
    ([None]), and the commit raises on it.  A row whose amount is NaN or
    infinite is none either; what a database does with such a float is not
    fixed by the sources, and no property below says that it is refused. *)
Definition new_transaction (business_id : Z) (r : txn_row) : option Models.TransactionRow :=
  match txn_date r, amount r with
  | ADate d, Finite q =>
      Some {| Models.business_id := business_id;
              Models.fields :=
                {| Models.txn_date := d;
                   Models.description := Some (description r);
                   Models.amount := q;
                   Models.direction := direction r;
                   Models.category := Some (category r) |} |}
  | _, _ => None
  end.

(** The loop [for r in rows: db.add(Transaction(...))] and [db.commit()],
    which raises, and stores nothing, when a row is not one of the table. *)
Definition add_transactions (db : Db) (business_id : Z) (rows : list txn_row) : result Db :=
  match mapM (new_transaction business_id) rows with
  | Some new =>
      Ok {| businesses := businesses db;
            transactions := transactions db ++ new;
            audit_logs := audit_logs db |}
  | None => Err SQLAlchemyError
  end.

(** An uploaded file: its name, when it has one, and its content. *)
Record UploadFile : Type := { filename : option string; content : string }.

Definition json_filename (file : UploadFile) : Audit.json :=
  match filename file with
  | Some f => Audit.JStr f
  | None => Audit.JNull
  end.

(** A row of a preview: the date as text. *)
Record preview_row : Type := {
  p_txn_date : string;
  p_description : string;
  p_category : string;
  p_direction : string;
  p_amount : pyfloat
}.

Definition to_preview_row (r : txn_row) : preview_row :=
  {| p_txn_date := str_of_pydate (txn_date r); p_description := description r;
     p_category := category r; p_direction := direction r; p_amount := amount r |}.

Record preview : Type := {
  preview_columns : list string;
  preview_rows : list preview_row;
  detected_rows : nat;
  detected_message : option string
}.

Definition frame_columns : list string :=
  ["txn_date"; "description"; "category"; "direction"; "amount"].

Section endpoints.
(** [float(s)], [str(x)] of a float, [strptime] and [pd.to_datetime] as in
    the normalisation; the readers of pandas and the text of the pages that
    pdfplumber finds in a file. *)
Variable float_number : string → option number.
Variable float_repr : Q → string.
Variable strptime : string → string → option date.
Variable pd_to_datetime : string → option pydate.
Variable pd_read_csv : string → result DataFrame.
Variable pd_read_excel : string → result DataFrame.
Variable pdf_pages : string → list (option string).

Definition read_file_to_df (filename : option string) (content : string) : result DataFrame :=
  let name := Py.lower (default "" filename) in
  if Py.endswith ".csv" name then pd_read_csv content
  else if Py.endswith ".xlsx" name || Py.endswith ".xls" name then pd_read_excel content
  else Err (HTTPException 400 "Unsupported file. Upload CSV/XLSX/PDF.").

Definition upload_preview (business_id : Z) (file : UploadFile) (db : Db) (current_user : Z)
    : result preview :=
  _ ← require_business_owner db business_id current_user;
  df ← read_file_to_df (filename file) (content file);
  norm ← normalize_transactions float_number float_repr strptime pd_to_datetime df;
  let prev := take 10 norm in
  Ok {| preview_columns := frame_columns;
        preview_rows := to_preview_row <$> prev;
        detected_rows := length norm;
        detected_message := None |}.

Definition upload_commit (business_id : Z) (request : Audit.Request) (file : UploadFile)
    (db : Db) (current_user : Z) : result (Db * nat) :=
  _ ← require_business_owner db business_id current_user;
  df ← read_file_to_df (filename file) (content file);
  norm ← normalize_transactions float_number float_repr strptime pd_to_datetime df;
  let rows := norm in
  db ← add_transactions db business_id rows;
  let db :=
    log_audit db request (Some current_user) (Some business_id) "UPLOAD_COMMIT"
      (Some "transaction") None
      [("filename", json_filename file); ("inserted", Audit.JInt (Z.of_nat (length rows)))] in
  Ok (db, length rows).

Definition is_pdf_name (file : UploadFile) : bool :=
  Py.endswith ".pdf" (Py.lower (default "" (filename file))).

Definition pdf_preview (business_id : Z) (file : UploadFile) (db : Db) (current_user : Z)
    : result preview :=
  _ ← require_business_owner db business_id current_user;
  if negb (is_pdf_name file) then Err (HTTPException 400 "Upload a PDF file")
  else
    let df :=
      parse_pdf_transactions_text float_number float_repr strptime pd_to_datetime
        (pdf_pages (content file)) in
    match df with
    | [] => Ok {| preview_columns := []; preview_rows := []; detected_rows := 0;
                  detected_message := Some "No rows detected (is this a text PDF?)" |}
    | _ =>
        Ok {| preview_columns := frame_columns;
              preview_rows := to_preview_row <$> take 10 df;
              detected_rows := length df;
              detected_message := None |}
    end.

Definition pdf_commit (business_id : Z) (request : Audit.Request) (file : UploadFile)
    (db : Db) (current_user : Z) : result (Db * nat) :=
  _ ← require_business_owner db business_id current_user;
  if negb (is_pdf_name file) then Err (HTTPException 400 "Upload a PDF file")
  else
    let df :=
      parse_pdf_transactions_text float_number float_repr strptime pd_to_datetime
        (pdf_pages (content file)) in
    match df with
    | [] => Err (HTTPException 400
                   "No transactions detected. PDF might be scanned image (needs OCR).")
    | _ =>
        let rows := df in
        db ← add_transactions db business_id rows;
        let db :=
          log_audit db request (Some current_user) (Some business_id) "PDF_COMMIT"
            (Some "transaction") None
            [("filename", json_filename file);
             ("inserted", Audit.JInt (Z.of_nat (length rows)))] in
        Ok (db, length rows)
    end.

End endpoints.

(** The metric endpoints: the owner check, then the metric of the
    transactions of the business. *)
Definition endpoint {A : Type} (metric : list Models.Transaction → A)
    (business_id : Z) (db : Db) (current_user : Z) : result A :=
  _ ← require_business_owner db business_id current_user;
  Ok (metric (transactions_of db business_id)).

Definition kpis_endpoint := endpoint kpis.
Definition kpis_monthly_endpoint := endpoint kpis_monthly.
Definition score_endpoint := endpoint score.
Definition risks_endpoint := endpoint risks.
Definition recommendations_endpoint := endpoint recommendations.

Definition forecast_endpoint (business_id : Z) (months : Z) (db : Db) (current_user : Z)
    : result forecast_result :=
  _ ← require_business_owner db business_id current_user;
  monthly ← kpis_monthly_endpoint business_id db current_user;
  forecast_of monthly months.

End Main.

(** ** [app/utils.py]: alias table and column detection *)

Module Utils.

Definition COLUMN_ALIASES_date : list string :=
  ["date"; "txn_date"; "transaction_date"; "value_date"; "posting_date"].
Definition COLUMN_ALIASES_description : list string :=
  ["description"; "narration"; "particulars"; "details"; "remark"; "remarks"].
Definition COLUMN_ALIASES_amount : list string :=
  ["amount"; "amt"; "transaction_amount"].
Definition COLUMN_ALIASES_debit : list string :=
  ["debit"; "dr"; "withdrawal"; "withdrawals"].
Definition COLUMN_ALIASES_credit : list string :=
  ["credit"; "cr"; "deposit"; "deposits"].
Definition COLUMN_ALIASES_category : list string :=
  ["category"; "expense_category"; "ledger"; "account"; "head"].

(** [{str(c).strip().lower(): c for c in df.columns}]: a later column
    overwrites an earlier one stored under the same key. *)
Definition cols_dict (columns : list string) : gmap string string :=
  foldl (λ m c, <[Py.lower (Py.strip c) := c]> m) ∅ columns.

Fixpoint find_key (cols : gmap string string) (candidates : list string) : option string :=
  match candidates with
  | [] => None
  | key :: rest =>
      match cols !! Py.lower key with
      | Some c => Some c
      | None => find_key cols rest
      end
  end.

Definition _find_col (columns : list string) (candidates : list string) : option string :=
  find_key (cols_dict columns) candidates.

Record detected_columns : Type := {
  date_col : option string;
  description_col : option string;
  amount_col : option string;
  debit_col : option string;
  credit_col : option string;
  category_col : option string;
  original_columns : list string
}.

Section normalization.
(** [str(x)] for a float [x]. *)
Variable float_repr : Q → string.
(** [pd.to_numeric(.., errors="coerce")] on one cell: a number or an
    infinity; [None] is NaN. *)
Variable pd_to_numeric : cell → option number.
(** [pd.to_datetime(series, errors="coerce").dt.date]; [None] is NaT. *)
Variable pd_to_datetime : list cell → list (option date).

Definition str_cell : cell → string := str_of_cell float_repr.

(** [pd.to_numeric(df[c], errors="coerce").fillna(0)] *)
Definition numeric_column (df : DataFrame) (c : string) : list pyfloat :=
  (λ x, float_of_number (default (Num 0) (pd_to_numeric x))) <$> series df c.

(** [df.columns = [str(c).strip() for c in df.columns]] *)
Definition trim_labels (df0 : DataFrame) : DataFrame :=
  {| columns := Py.strip <$> columns df0; rows := rows df0 |}.

Definition detect (df0 : DataFrame) : detected_columns :=
  let df := trim_labels df0 in
  {| date_col := _find_col (columns df) COLUMN_ALIASES_date;
     description_col := _find_col (columns df) COLUMN_ALIASES_description;
     amount_col := _find_col (columns df) COLUMN_ALIASES_amount;
     debit_col := _find_col (columns df) COLUMN_ALIASES_debit;
     credit_col := _find_col (columns df) COLUMN_ALIASES_credit;
     category_col := _find_col (columns df) COLUMN_ALIASES_category;
     original_columns := columns df0 |}.

(** The block under [# amount + direction] *)
Definition direction_amount (df : DataFrame) (det : detected_columns)
    : result (list string * list pyfloat) :=
  let n := length (rows df) in
  if truthy (amount_col det)
  then
    let s := numeric_column df (default "" (amount_col det)) in
    Ok ((λ x, if fge0 x then "credit" else "debit") <$> s, fabs <$> s)
  else if negb (truthy (debit_col det) || truthy (credit_col det))
  then Err (ValueError "Could not detect amount OR debit/credit columns.")
  else
    let debit :=
      if truthy (debit_col det) then numeric_column df (default "" (debit_col det))
      else replicate n (Finite 0) in
    let credit :=
      if truthy (credit_col det) then numeric_column df (default "" (credit_col det))
      else replicate n (Finite 0) in
    Ok (zip_with (λ c d, if fgt c d then "credit" else "debit") credit debit,
        zip_with (λ c d, fabs (fsub c d)) credit debit).

Definition normalize_transactions (df0 : DataFrame)
    : result (list txn_row * detected_columns) :=
  let df := trim_labels df0 in
  let n := length (rows df) in
  let detected := detect df0 in
  if negb (truthy (date_col detected))
  then Err (ValueError "Could not detect a date column. Use 'date' or 'transaction_date'.")
  else
    let descs :=
      if truthy (description_col detected)
      then str_cell <$> series df (default "" (description_col detected))
      else replicate n "" in
    '(direction, amount) ← direction_amount df detected;
    let txn_date := pd_to_datetime (series df (default "" (date_col detected))) in
    if existsb (λ d, bool_decide (d = None)) txn_date
    then Err (ValueError "Some dates could not be parsed. Check your date format.")
    else if negb (truthy (category_col detected))
    then Err (AttributeError "'str' object has no attribute 'fillna'")
    else
      let category := str_cell <$> series df (default "" (category_col detected)) in
      let descs := Py.strip <$> descs in
      let cats := (λ s, Py.lower (Py.strip s)) <$> category in
      Ok (frame_rows (ADate <$> omap id txn_date) descs cats direction amount,
          detected).

End normalization.

(** [classify_amounts]: (inflow, outflow) *)
Definition classify_amounts (direction : option string) (amount : Q) : Q * Q :=
  if String.eqb (Py.lower (default "" direction)) "credit"
  then (amount, 0%Q) else (0%Q, amount).

Definition norm_category (category : option string) : string :=
  Py.lower (Py.strip (default "" category)).

Definition revenue_names : list string := ["revenue"; "sales"; "income"; "turnover"].
Definition cogs_names : list string :=
  ["cogs"; "cost_of_goods_sold"; "inventory"; "purchases"; "purchase"].
Definition expense_names : list string :=
  ["expense"; "expenses"; "rent"; "salary"; "utilities"; "admin"; "marketing";
   "transport"; "logistics"; "repair"; "maintenance"; "office"].

Definition is_revenue (category : option string) : bool :=
  bool_decide (norm_category category ∈ revenue_names).

Definition is_cogs (category : option string) : bool :=
  bool_decide (norm_category category ∈ cogs_names).

Definition is_expense (category : option string) : bool :=
  bool_decide (norm_category category ∈ expense_names).

End Utils.

(** ** [app/routes_invoice_ocr.py]: the total of an invoice *)

Module InvoiceOcr.

(** The text of an invoice is a list of code points. *)
Definition text : Type := list N.

Definition codes (s : string) : text := N_of_ascii <$> list_ascii_of_string s.

(** [\s]: the characters for which [str.isspace] holds. *)
Definition is_space (c : N) : bool :=
  (((9 <=? c) && (c <=? 13)) || ((28 <=? c) && (c <=? 32))
   || (c =? 133) || (c =? 160) || (c =? 5760)
   || ((8192 <=? c) && (c <=? 8202))
   || (c =? 8232) || (c =? 8233) || (c =? 8239) || (c =? 8287) || (c =? 12288))%N.

Definition is_digit (c : N) : bool := ((48 <=? c) && (c <=? 57))%N.

(** Case folding of the letters of the labels. *)
Definition fold_case (c : N) : N :=
  if ((65 <=? c) && (c <=? 90))%N then (c + 32)%N
  else if (c =? 194)%N then 226%N
  else c.

(** [text.replace(",", " ")] *)
Definition commas_to_spaces (t : text) : text :=
  (λ c, if (c =? 44)%N then 32%N else c) <$> t.

(** A literal, matched without regard to case at the start of [t]: the
    rest of [t] after it. *)
Fixpoint lit (p : list N) (t : text) : option text :=
  match p, t with
  | [], _ => Some t
  | a :: p', c :: t' => if (fold_case a =? fold_case c)%N then lit p' t' else None
  | _ :: _, [] => None
  end.

(** [\s*] *)
Fixpoint skip_spaces (t : text) : text :=
  match t with
  | c :: t' => if is_space c then skip_spaces t' else t
  | [] => []
  end.

(** An optional single character out of [cs] *)
Definition opt_char (cs : list N) (t : text) : text :=
  match t with
  | c :: t' => if bool_decide (fold_case c ∈ cs) then t' else t
  | [] => []
  end.

(** [[0-9]*]: the digits taken and the rest *)
Fixpoint take_digits (t : text) : list N * text :=
  match t with
  | c :: t' =>
      if is_digit c then let '(ds, r) := take_digits t' in (c :: ds, r) else ([], t)
  | [] => ([], [])
  end.

(** [(\.[0-9]{1,2})?] after the integer part: the digits of the fraction *)
Definition take_fraction (t : text) : list N :=
  match t with
  | 46%N :: d1 :: d2 :: _ =>
      if is_digit d1 then (if is_digit d2 then [d1; d2] else [d1]) else []
  | 46%N :: d1 :: [] => if is_digit d1 then [d1] else []
  | _ => []
  end.

(** The part of the pattern after the label:
    [\s*[:\-]?\s*] then the characters U+00E2 and U+201A, an optional
    U+00B9, [\s*], and the amount [([0-9]+(\.[0-9]{1,2})?)]; the pieces
    cannot overlap, so no other split of the text has to be tried. *)
Definition amount_after_label (t : text) : option (list N * list N) :=
  let t := skip_spaces t in
  let t := opt_char [58; 45]%N t in
  let t := skip_spaces t in
  t ← lit [226; 8218]%N t;
  let t := opt_char [185]%N t in
  let t := skip_spaces t in
  let '(ds, r) := take_digits t in
  match ds with
  | [] => None
  | _ => Some (ds, take_fraction r)
  end.

Definition grand : list N := codes "grand".
Definition total : list N := codes "total".
Definition amount_word : list N := codes "amount".

(** The three labels [grand\s*total|total\s*amount|total], in this order;
    a later one is tried when the pattern fails after an earlier one. *)
Definition labels : list (text → option text) :=
  [ (λ t, t ← lit grand t; lit total (skip_spaces t));
    (λ t, t ← lit total t; lit amount_word (skip_spaces t));
    lit total ].

Fixpoint first_some {A B : Type} (fs : list (A → option B)) (a : A) : option B :=
  match fs with
  | [] => None
  | f :: fs' =>
      match f a with
      | Some b => Some b
      | None => first_some fs' a
      end
  end.

(** The pattern at the start of [t]: group 2, as integer and fraction
    digits. *)
Definition match_total_here (t : text) : option (list N * list N) :=
  first_some ((λ label t, label t ≫= amount_after_label) <$> labels) t.

(** [re.search] of the pattern: the leftmost match *)
Fixpoint search_total (t : text) : option (list N * list N) :=
  match match_total_here t with
  | Some g => Some g
  | None =>
      match t with
      | [] => None
      | _ :: t' => search_total t'
      end
  end.

Definition digits_value (ds : list N) : Z :=
  foldl (λ acc d, (acc * 10 + Z.of_N (d - 48))%Z) 0%Z ds.

(** [float] of an integer part and a fraction *)
Definition decimal_value (ds fs : list N) : Q :=
  (inject_Z (digits_value ds) + inject_Z (digits_value fs) / inject_Z (10 ^ Z.of_nat (length fs)))%Q.

Section fallback.
(** [\w] beyond ASCII: the code points that Python counts as
    alphanumeric. *)
Variable uni_alnum : N → bool.

Definition is_word (c : N) : bool :=
  if (c <? 128)%N
  then (is_digit c || ((65 <=? c) && (c <=? 90)) || ((97 <=? c) && (c <=? 122)) || (c =? 95))%N
  else uni_alnum c.

(** [\b] between a digit and the text [t] that follows it *)
Definition boundary_after (t : text) : bool :=
  match t with
  | [] => true
  | c :: _ => negb (is_word c)
  end.

(** [[0-9]{3,}(?:\.[0-9]{1,2})?\b] at the start of [t], which follows a
    word boundary: group 0, as integer and fraction digits. *)
Definition match_number_here (t : text) : option (list N * list N) :=
  let '(ds, r) := take_digits t in
  if (length ds <? 3)%nat then None
  else
    let with_fraction :=
      match r with
      | 46%N :: r' =>
          let '(fs, r'') := take_digits r' in
          if bool_decide (length fs = 1%nat ∨ length fs = 2%nat) && boundary_after r''
          then Some fs else None
      | _ => None
      end in
    match with_fraction with
    | Some fs => Some (ds, fs)
    | None => if boundary_after r then Some (ds, []) else None
    end.

Definition match_length (g : list N * list N) : nat :=
  match g.2 with
  | [] => length g.1
  | fs => length g.1 + 1 + length fs
  end.

(** [re.findall] of the fallback pattern.  [prev_word] tells whether the
    character before [t] is a word character; [skip] counts the
    characters of the last match that are still to be passed. *)
Fixpoint findall_numbers (prev_word : bool) (skip : nat) (t : text)
    : list (list N * list N) :=
  match t with
  | [] => []
  | c :: t' =>
      match skip with
      | S k => findall_numbers (is_word c) k t'
      | O =>
          if negb prev_word && is_digit c
          then
            match match_number_here t with
            | Some g => g :: findall_numbers (is_word c) (match_length g - 1) t'
            | None => findall_numbers (is_word c) O t'
            end
          else findall_numbers (is_word c) O t'
      end
  end.

(** [max(nums, key=float)]: the first of the largest *)
Definition max_by_value (nums : list (list N * list N)) : option (list N * list N) :=
  match nums with
  | [] => None
  | g :: rest =>
      Some (foldl (λ best h,
              if Qle_bool (decimal_value h.1 h.2) (decimal_value best.1 best.2)
              then best else h) g rest)
  end.

Definition _parse_total_amount (txt : text) : option Q :=
  let t := commas_to_spaces txt in
  match search_total t with
  | Some g => Some (decimal_value g.1 g.2)
  | None =>
      (λ g, decimal_value g.1 g.2) <$> max_by_value (findall_numbers false O t)
  end.

End fallback.

(** The line boundaries of [str.splitlines]. *)
Definition is_linebreak (c : N) : bool :=
  (((10 <=? c) && (c <=? 13)) || ((28 <=? c) && (c <=? 30))
   || (c =? 133) || (c =? 8232) || (c =? 8233))%N.

(** [text.splitlines()]; a carriage return and the line feed after it are
    one boundary, and no empty line follows a final boundary. *)
Fixpoint splitlines_go (cur : list N) (t : text) : list text :=
  match t with
  | [] => match cur with [] => [] | _ => [rev cur] end
  | c :: t' =>
      if is_linebreak c
      then rev cur ::
           match c, t' with
           | 13%N, 10%N :: t'' => splitlines_go [] t''
           | _, _ => splitlines_go [] t'
           end
      else splitlines_go (c :: cur) t'
  end.
Definition splitlines : text → list text := splitlines_go [].

(** [ln.strip()] *)
Definition lstrip (t : text) : text := skip_spaces t.
Definition rstrip (t : text) : text := rev (skip_spaces (rev t)).
Definition strip (t : text) : text := rstrip (lstrip t).

(** [_parse_vendor_name]: the first line that is not blank, trimmed, at
    most 255 characters of it. *)
Definition _parse_vendor_name (txt : text) : option text :=
  match filter (λ ln, ln ≠ []) (strip <$> splitlines txt) with
  | [] => None
  | ln :: _ => Some (take 255 ln)
  end.

End InvoiceOcr.

(** ** Stand-ins for the library calls, used to run the embedding

    The theorems below hold for every behaviour of the library calls; the
    examples need one.  These cover plain decimal literals and the four
    date formats of [_parse_date_any]. *)

Module Lib.

Fixpoint digits_val (acc : Z) (s : string) : option Z :=
  match s with
  | EmptyString => Some acc
  | String c s' =>
      if Py.is_digit c
      then digits_val (acc * 10 + (Z.of_N (N_of_ascii c) - 48))%Z s'
      else None
  end.

Definition unsigned_decimal (s : string) : option Q :=
  match Py.split_on "." s with
  | [i] => if decide (i = "") then None else inject_Z <$> digits_val 0 i
  | [i; f] =>
      if decide (i = "" ∧ f = "") then None
      else
        iv ← digits_val 0 i;
        fv ← digits_val 0 f;
        Some (inject_Z iv + inject_Z fv / inject_Z (10 ^ Z.of_nat (String.length f)))%Q
  | _ => None
  end.

(** [float(s)] on [[+-]digits[.digits]] *)
Definition float (s : string) : option Q :=
  match Py.strip s with
  | String "-" s' => Qopp <$> unsigned_decimal s'
  | String "+" s' => unsigned_decimal s'
  | s' => unsigned_decimal s'
  end.

Fixpoint fraction_digits (fuel : nat) (num den : Z) : string :=
  match fuel with
  | O => EmptyString
  | S fuel' =>
      if (num =? 0)%Z then EmptyString
      else String (ascii_of_N (48 + Z.to_N (num * 10 `div` den)))
                  (fraction_digits fuel' (num * 10 `mod` den)%Z den)
  end.

(** [str(x)] of a float with a short decimal expansion, such as [12.5] *)
Definition repr (x : Q) : string :=
  let a := Qabs x in
  let i := Qfloor a in
  let den := Z.pos (Qden a) in
  let f := fraction_digits 17 (Qnum a - i * den)%Z den in
  (if Qle_bool 0%Q x then "" else "-") +:+ Py.str_N (Z.to_N i) +:+ "."
    +:+ (if decide (f = "") then "0" else f).

Definition leap (y : Z) : bool :=
  ((y `mod` 4 =? 0) && (negb (y `mod` 100 =? 0) || (y `mod` 400 =? 0)))%Z.

Definition days_in_month (y m : Z) : Z :=
  if (m =? 2)%Z then (if leap y then 29 else 28)%Z
  else if bool_decide (m ∈ [4; 6; 9; 11]%Z) then 30%Z
  else 31%Z.

Definition make_date (y m d : Z) : option date :=
  if ((1 <=? y) && (y <=? 9999) && (1 <=? m) && (m <=? 12)
      && (1 <=? d) && (d <=? days_in_month y m))%Z
  then Some (Date y m d) else None.

(** A field of [lo] to [hi] digits *)
Definition field (lo hi : nat) (s : string) : option Z :=
  if ((lo <=? String.length s) && (String.length s <=? hi))%nat
  then digits_val 0 s else None.

(** [%d] also takes a digit after a blank *)
Definition day_field (s : string) : option Z :=
  match s with
  | String " " s' => field 1 1 s'
  | _ => field 1 2 s
  end.

Definition parse3 (sep : ascii) (f1 f2 f3 : string → option Z)
    (mk : Z → Z → Z → option date) (s : string) : option date :=
  match Py.split_on sep s with
  | [a; b; c] => x ← f1 a; y ← f2 b; z ← f3 c; mk x y z
  | _ => None
  end.

(** [datetime.strptime(s, fmt).date()] for the formats the code uses *)
Definition strptime (s fmt : string) : option date :=
  if decide (fmt = "%Y-%m-%d")
  then parse3 "-" (field 4 4) (field 1 2) day_field make_date s
  else if decide (fmt = "%d/%m/%Y")
  then parse3 "/" day_field (field 1 2) (field 4 4) (λ d m y, make_date y m d) s
  else if decide (fmt = "%d-%m-%Y")
  then parse3 "-" day_field (field 1 2) (field 4 4) (λ d m y, make_date y m d) s
  else if decide (fmt = "%m/%d/%Y")
  then parse3 "/" (field 1 2) day_field (field 4 4) (λ m d y, make_date y m d) s
  else None.

(** [float(s)] on these literals and on the spellings of an infinity *)
Definition float_number (s : string) : option number :=
  let t := Py.lower (Py.strip s) in
  if bool_decide (t ∈ ["inf"; "+inf"; "infinity"; "+infinity"]) then Some (Inf false)
  else if bool_decide (t ∈ ["-inf"; "-infinity"]) then Some (Inf true)
  else Num <$> float s.

(** A [pd.to_datetime] that takes the empty text and the spellings of NaN
    and NaT as missing, and reads no other spelling of a date *)
Definition to_datetime (s : string) : option pydate :=
  if bool_decide (s ∈ [""; "nan"; "NaN"; "NAN"; "nat"; "NaT"; "NAT"]) then Some NaT
  else None.

(** [pd.to_numeric(.., errors="coerce")] on a cell: a number, or the
    text of one or of an infinity *)
Definition to_numeric (x : cell) : option number :=
  match x with
  | CNum q => Some (Num q)
  | CStr s => float_number s
  | _ => None
  end.

(** [pd.to_datetime(series, errors="coerce").dt.date] on dates and ISO
    texts *)
Definition to_datetime_series (l : list cell) : list (option date) :=
  (λ x, match x with
        | CDate d => Some d
        | CStr s => strptime (Py.strip s) "%Y-%m-%d"
        | _ => None
        end) <$> l.

(** The normaliser and the PDF import of [main.py] over these stand-ins *)
Definition normalize_transactions : DataFrame → result (list txn_row) :=
  Main.normalize_transactions float_number repr strptime to_datetime.

Definition parse_pdf_transactions_text : list (option string) → list txn_row :=
  Main.parse_pdf_transactions_text float_number repr strptime to_datetime.

Definition utils_normalize_transactions
    : DataFrame → result (list txn_row * Utils.detected_columns) :=
  Utils.normalize_transactions repr to_numeric to_datetime_series.

End Lib.

(** ** Notions used to state the properties *)

(** A header as the detectors compare it: trimmed and in lower case. *)
Definition norm_header (c : string) : string := Py.lower (Py.strip c).

(** The dictionary built from the headers, from a start value on. *)
Definition dict_from (norm : string → string) (m : gmap string string)
    (l : list string) : gmap string string :=
  foldl (λ m c, <[norm c := c]> m) m l.

(** The last header, in source order, that reads as the key [k] once
    trimmed and in lower case. *)
Definition last_header (cols : list string) (k : string) : option string :=
  last (filter (λ c, norm_header c = k) cols).

(** What "the first alias in priority order that matches a column wins"
    says of a result [r] of the detection. *)
Definition first_alias_wins (cols cands : list string) (r : option string) : Prop :=
  match r with
  | Some c =>
      c ∈ cols ∧
      ∃ (i : nat) (key : string),
        cands !! i = Some key ∧ norm_header c = Py.lower key ∧
        ∀ (j : nat) (key' : string), (j < i)%nat → cands !! j = Some key' →
          ∀ c', c' ∈ cols → norm_header c' ≠ Py.lower key'
  | None => ∀ key c, key ∈ cands → c ∈ cols → norm_header c ≠ Py.lower key
  end.

(** A detected column is one of the labels of the frame. *)
Definition found (df : DataFrame) (c : option string) : Prop :=
  ∃ l, c = Some l ∧ l ∈ columns df.

(** The text [_safe_float] hands to [float]: that of the cell without its
    commas, trimmed. *)
Definition amount_text (float_repr : Q → string) (x : cell) : string :=
  Py.strip (Py.remove_char "," (str_of_cell float_repr x)).

(** Two floats of the same value; the rationals are compared as numbers,
    not as fractions. *)
Definition same_float (x y : pyfloat) : Prop :=
  match x, y with
  | Finite a, Finite b => (a == b)%Q
  | Infinite a, Infinite b => a = b
  | NaN, NaN => True
  | _, _ => False
  end.

(** The text [_parse_date_any] reads a date from: that of the cell,
    trimmed. *)
Definition date_text (float_repr : Q → string) (x : cell) : string :=
  Py.strip (str_of_cell float_repr x).


(** An amount cell that is there and whose text [float] reads as NaN. *)
Definition nan_amount (float_repr : Q → string) (x : cell) : Prop :=
  x ≠ CNaN ∧ Py.is_nan_literal (amount_text float_repr x) = true.

(** [0 <= x] and [x < 0] for a float; neither holds of NaN. *)
Definition nonneg (x : pyfloat) : Prop := fge0 x = true.

Definition negative (x : pyfloat) : Prop :=
  match x with
  | Finite q => (q < 0)%Q
  | Infinite negative => negative = true
  | NaN => False
  end.

(** Sums of rationals, from the right, and the total of one figure over
    the buckets of a dictionary. *)
Definition sumQ (l : list Q) : Q := foldr Qplus 0%Q l.

Definition total (fig : Bucket.t → Q) (m : gmap string Bucket.t) : Q :=
  sumQ ((λ p, fig p.2) <$> map_to_list m).

(** What one transaction adds to revenue and to expenses. *)
Definition rev_amount (t : Models.Transaction) : Q :=
  if Main.is_revenue t && Main.is_credit t then Models.amount t else 0%Q.
Definition exp_amount (t : Models.Transaction) : Q :=
  if Main.is_debit t then Models.amount t else 0%Q.

(** Whole numbers of hundredths. *)
Definition cents (q : Q) : Prop := ∃ k : Z, (q == k # 100)%Q.

Definition cents_bucket (b : Bucket.t) : Prop :=
  cents (Bucket.revenue b) ∧ cents (Bucket.expenses b).

(** The amounts of at most two decimals that a float holds exactly: the
    whole numbers of quarters; here those that are not negative. *)
Definition quarters (q : Q) : Prop := ∃ n : Z, (0 ≤ n)%Z ∧ (q == n # 4)%Q.

(** A batch on which the additions of the floats are exact: amounts in
    quarters that add up to [2^51] at most, so that every partial sum is a
    whole number of quarters below [2^53] quarters. *)
Definition exact_batch (txns : list Models.Transaction) : Prop :=
  Forall (λ t, quarters (Models.amount t)) txns
  ∧ (sumQ (Models.amount <$> txns) <= 2 ^ 51)%Q.

(** The four tests of [score]. *)
Definition cashflow_positive (txns : list Models.Transaction) : bool :=
  Main.gt0 (Main.inflow_of txns - Main.outflow_of txns).
Definition profit_positive (txns : list Models.Transaction) : bool :=
  Main.gt0 (Main.revenue_of txns - Main.expenses_of txns).
Definition enough_transactions (txns : list Models.Transaction) : bool :=
  (20 <=? length txns)%nat.
Definition has_revenue (txns : list Models.Transaction) : bool :=
  Main.gt0 (Main.revenue_of txns).

Definition score_points (p1 p2 p3 p4 : bool) : Z :=
  ((if p1 then 30 else 10) + (if p2 then 30 else 10)
   + (if p3 then 20 else 10) + (if p4 then 20 else 5))%Z.

Fixpoint all_digits (s : string) : bool :=
  match s with
  | EmptyString => true
  | String c s' => Py.is_digit c && all_digits s'
  end.

(** The key of a month: [strftime_Ym] of any of its days. *)
Definition ym_key (y m : Z) : string := Py.format_d 4 y +:+ "-" +:+ Py.format_d 2 m.

(** The trailing buckets the forecast averages, and their average. *)
Definition trailing3 (monthly : list Bucket.t) : list Bucket.t :=
  drop (length monthly - 3) monthly.

Definition average (fig : Bucket.t → Q) (l : list Bucket.t) : Q :=
  (py_sum (fig <$> l) / inject_Z (Z.of_nat (length l)))%Q.


(** The category a row gets from its direction. *)
Definition category_follows_direction (t : txn_row) : Prop :=
  (direction t = "credit" ∨ direction t = "debit")
  ∧ (direction t = "credit" → category t = "revenue")
  ∧ (direction t = "debit" → category t = "expense")
  ∧ (category t = "revenue" ↔ direction t = "credit").

(** The direction rule of the PDF import on the upper-cased line [u]. *)
Definition debit_marker (u : string) : Prop :=
  (∃ pre post, u = pre +:+ " DR" +:+ post) ∨ (∃ pre post, u = pre +:+ "DEBIT" +:+ post).

(** The rows of a successful result, no rows for a failed one. *)
Definition rows_of (r : result (list txn_row)) : list txn_row :=
  match r with
  | Ok out => out
  | Err _ => []
  end.

(** Shorthands for the data of the examples. *)
Definition T (d : date) (a : Q) (dir : string) (cat : option string) : Models.Transaction :=
  {| Models.txn_date := d; Models.description := None; Models.amount := a;
     Models.direction := dir; Models.category := cat |}.

Definition B (mo : string) (r e p : Q) : Bucket.t :=
  {| Bucket.month := mo; Bucket.revenue := r; Bucket.expenses := e; Bucket.profit_simple := p |}.

(** Two dated rows with a signed amount and no direction column. *)
Definition signed_frame : DataFrame :=
  {| columns := ["Date"; "Amount"];
     rows := [ [CStr "2024-01-05"; CNum (-500)]; [CStr "07/01/2024"; CStr "1,200.50"] ] |}.

(** The second row has a date no format reads. *)
Definition bad_date_frame : DataFrame :=
  {| columns := ["date"; "amount"];
     rows := [ [CStr "2024-01-05"; CNum 100]; [CStr "not a date"; CNum 50] ] |}.


(** The second row has no date, the third a blank one. *)
Definition missing_date_frame : DataFrame :=
  {| columns := ["date"; "amount"];
     rows := [ [CStr "2024-01-05"; CNum 100]; [CNaN; CNum 50]; [CStr "  "; CNum 7] ] |}.


(** A category column with a missing, a blank and an empty cell. *)
Definition missing_category_frame : DataFrame :=
  {| columns := ["date"; "amount"; "category"];
     rows := [ [CStr "2024-01-05"; CNum 100; CNaN];
               [CStr "2024-01-06"; CNum 100; CStr "   "];
               [CStr "2024-01-07"; CNum 100; CStr ""] ] |}.


(** A frame for [utils.py], with the category column it needs. *)
Definition ledger_frame : DataFrame :=
  {| columns := [" Date"; "Amount "; "Ledger"];
     rows := [ [CDate (Date 2024 1 5); CNum (-500); CStr "Rent"];
               [CDate (Date 2024 1 6); CStr "1200.50"; CStr "Sales"] ] |}.

(** Two small revenues in two months, and two amounts in whole cents. *)
Definition sub_cent_txns : list Models.Transaction :=
  [ T (Date 2024 1 15) (1 # 256) "credit" (Some "revenue");
    T (Date 2024 2 15) (1 # 256) "credit" (Some "revenue") ].

Definition quarter_txns : list Models.Transaction :=
  [ T (Date 2024 1 15) (1050 # 100) "credit" (Some "revenue");
    T (Date 2024 1 20) (325 # 100) "debit" (Some "rent");
    T (Date 2024 2 15) (75 # 100) "credit" (Some "revenue") ].

Definition cent_txns : list Models.Transaction :=
  [ T (Date 2024 1 15) (1050 # 100) "credit" (Some "revenue");
    T (Date 2024 1 20) (325 # 100) "debit" (Some "rent");
    T (Date 2024 2 15) (99 # 100) "credit" (Some "revenue") ].

(** *** Notions for the further properties *)

(** The header names [normalize_transactions] of [main.py] looks for, and
    its error when a required one is missing. *)
Definition main_date_names : list string :=
  ["date"; "txn_date"; "transaction_date"; "value_date"].
Definition main_amount_names : list string :=
  ["amount"; "amt"; "value"; "transaction_amount"].
Definition missing_columns_error : exn :=
  HTTPException 400
    "CSV/XLSX must contain at least: date, amount (optional description/category/direction).".

(** No header of the frame is one of the names, once trimmed and in lower
    case. *)
Definition no_header_among (df : DataFrame) (names : list string) : Prop :=
  ∀ c, c ∈ columns df → norm_header c ∉ names.

(** The texts [_normalize_direction] reads as a credit. *)
Definition credit_tokens : list string := ["credit"; "cr"; "c"; "in"; "inflow"; "income"].

(** Stored amounts are absolute values. *)
Definition nonneg_amounts (txns : list Models.Transaction) : Prop :=
  Forall (λ t, (0 <= Models.amount t)%Q) txns.

(** How many of the four tests of [score] pass. *)
Definition tests_passed (txns : list Models.Transaction) : nat :=
  (Nat.b2n (cashflow_positive txns) + Nat.b2n (profit_positive txns)
   + Nat.b2n (enough_transactions txns) + Nat.b2n (has_revenue txns))%nat.

Definition risk_types (txns : list Models.Transaction) : list string :=
  Main.type <$> Main.risks txns.

(** The texts of [recommendations]. *)
Definition reduce_expenses : string :=
  "Reduce expenses or improve collections to fix negative cashflow".
Definition control_expenses : string :=
  "Control operating expenses (rent, salary, utilities, marketing)".
Definition speed_up_payments : string :=
  "Speed up customer payments (reminders, shorter credit terms)".
Definition looks_stable : string :=
  "Business looks stable. Track KPIs monthly and keep emergency cash reserves".

(** The month key of a transaction and the sums over one month. *)
Definition month_key (t : Models.Transaction) : string := strftime_Ym (Models.txn_date t).
Definition in_month (k : string) (t : Models.Transaction) : bool :=
  bool_decide (month_key t = k).
Definition month_revenue (k : string) (txns : list Models.Transaction) : Q :=
  Main.sum_amounts (λ t, in_month k t && (Main.is_credit t && Main.is_revenue t)) txns.
Definition month_expenses (k : string) (txns : list Models.Transaction) : Q :=
  Main.sum_amounts (λ t, in_month k t && Main.is_debit t) txns.
Definition months_of (out : list Bucket.t) : list string := Bucket.month <$> out.

(** What one pass of the loop of [kpis_monthly] does to the bucket of the
    month, the bucket a new month starts with, and the invariant of the
    loop after the transactions [seen]. *)
Definition step_bucket (t : Models.Transaction) (b : Bucket.t) : Bucket.t :=
  let b := if Main.is_credit t && Main.is_revenue t
           then Main.add_revenue (Models.amount t) b else b in
  if Main.is_debit t then Main.add_expenses (Models.amount t) b else b.

Definition fresh_bucket (k : string) : Bucket.t :=
  {| Bucket.month := k; Bucket.revenue := 0; Bucket.expenses := 0; Bucket.profit_simple := 0 |}.

Definition buckets_inv (seen : list Models.Transaction) (m : gmap string Bucket.t) : Prop :=
  ∀ k, match m !! k with
       | Some b => Bucket.month b = k
                   ∧ (Bucket.revenue b == month_revenue k seen)%Q
                   ∧ (Bucket.expenses b == month_expenses k seen)%Q
                   ∧ ∃ t, t ∈ seen ∧ month_key t = k
       | None => ∀ t, t ∈ seen → month_key t ≠ k
       end.

(** The key of the month [i] months after the month of [d]. *)
Definition ym_after (d : date) (i : Z) : string :=
  ym_key (year d + (month d - 1 + i) `div` 12) ((month d - 1 + i) `mod` 12 + 1).

(** Dates whose year prints on four digits. *)
Definition calendar_date (d : date) : Prop :=
  (1000 ≤ year d)%Z ∧ (1 ≤ month d ≤ 12)%Z.

(** The index of a month, counted from the first month of the year 0. *)
Definition month_index (y m : Z) : Z := (y * 12 + (m - 1))%Z.

(** What every transaction stored by an import satisfies. *)
Definition stored_ok (t : Models.Transaction) : Prop :=
  (0 <= Models.amount t)%Q
  ∧ (Models.direction t = "credit" ∨ Models.direction t = "debit").


(** A row the table takes: it has a date and a finite amount. *)
Definition storable (r : txn_row) : Prop :=
  (∃ d, txn_date r = ADate d) ∧ (∃ q, amount r = Finite q).

(** A text with a decimal digit in it. *)
Fixpoint has_digit (s : string) : bool :=
  match s with
  | EmptyString => false
  | String c s' => Py.is_digit c || has_digit s'
  end.

(** The state of the scanner for the numbers holds a digit when it holds
    the text of a match. *)
Definition scanning_digits (st : Main.num_state) : Prop :=
  match st with
  | Main.IntPart cur | Main.FracPart cur => has_digit cur = true
  | _ => True
  end.

(** The two refusals of [require_business_owner]. *)
Definition not_found : exn := HTTPException 404 "Business not found".
Definition not_allowed : exn := HTTPException 403 "Not allowed for this business".

(** The record an import leaves in the audit trail. *)
Definition import_record (action : string) (request : Audit.Request) (file : Main.UploadFile)
    (business_id user : Z) (n : nat) (log : Audit.AuditLog) : Prop :=
  Audit.action log = action
  ∧ Audit.user_id log = Some user
  ∧ Audit.business_id log = Some business_id
  ∧ Audit.entity log = Some "transaction"
  ∧ Audit.ip log = Audit.client_host request
  ∧ Audit.payload log
    = [("filename", Main.json_filename file); ("inserted", Audit.JInt (Z.of_nat n))].

(** What a commit of [n] rows for a business does to the store. *)
Definition import_effect (action : string) (request : Audit.Request) (file : Main.UploadFile)
    (business_id user : Z) (db db' : Db) (n : nat) : Prop :=
  businesses db' = businesses db
  ∧ (∀ other, other ≠ business_id →
       Main.transactions_of db' other = Main.transactions_of db other)
  ∧ (∃ new, Main.transactions_of db' business_id
            = Main.transactions_of db business_id ++ new
            ∧ length new = n ∧ Forall stored_ok new)
  ∧ (∃ log, audit_logs db' = audit_logs db ++ [log]
            ∧ import_record action request file business_id user n log).

(** The debit or the credit figures of the rows of [utils.py]: those of the
    detected column, or zeros. *)
Definition side_figures (pd_to_numeric : cell → option number) (df : DataFrame)
    (col : option string) : list pyfloat :=
  if truthy col then Utils.numeric_column pd_to_numeric df (default "" col)
  else replicate (length (rows df)) (Finite 0).

Definition credit_or_debit (t : Models.Transaction) : Prop :=
  Models.direction t = "credit" ∨ Models.direction t = "debit".

(** The inflow and the outflow [classify_amounts] gives for a stored row. *)
Definition classified (t : Models.Transaction) : Q * Q :=
  Utils.classify_amounts (Some (Models.direction t)) (Models.amount t).

(** The value of a number found in the text of an invoice. *)
Definition found_value (g : list N * list N) : Q := InvoiceOcr.decimal_value g.1 g.2.

(** A text with nothing but white space. *)
Definition blank (t : InvoiceOcr.text) : Prop :=
  Forall (λ c, InvoiceOcr.is_space c = true) t.

(** The outcome of a commit, for the examples. *)
Definition outcome_of (db : Db) (r : result (Db * nat)) : Db * nat :=
  match r with
  | Ok p => p
  | Err _ => (db, 0%nat)
  end.

Definition utils_rows_of (r : result (list txn_row * Utils.detected_columns))
    : list txn_row :=
  match r with
  | Ok p => p.1
  | Err _ => []
  end.

(** Data of the examples: a frame without a date header, one with a
    direction column, one with a debit and a credit column; a ledger that
    ends with a loss; a store with one business, owned by the user 7; an
    uploaded sheet and the text of a PDF, with readers that return them. *)
Definition undated_frame : DataFrame :=
  {| columns := ["when"; "amount"]; rows := [ [CStr "2024-01-05"; CNum 100] ] |}.

Definition directed_frame : DataFrame :=
  {| columns := ["Date"; "Amount"; "DrCr"];
     rows := [ [CStr "2024-01-05"; CNum (-500); CStr " CR "];
               [CStr "2024-01-06"; CNum 20; CStr "Debit"] ] |}.

Definition two_sided_frame : DataFrame :=
  {| columns := ["Date"; "Withdrawal"; "Deposit"; "Head"];
     rows := [ [CDate (Date 2024 1 5); CNum 300; CNaN; CStr "Rent"];
               [CDate (Date 2024 1 6); CNum 50; CNum 1200; CStr "Sales"] ] |}.

Definition loss_txns : list Models.Transaction :=
  [ T (Date 2024 1 15) 100 "credit" (Some "revenue");
    T (Date 2024 1 20) 250 "debit" (Some "rent") ].

Definition acme : Models.Business :=
  {| Models.id := 1; Models.owner_user_id := 7; Models.name := "Acme" |}.

Definition acme_db : Db :=
  {| businesses := [acme];
     transactions :=
       [ {| Models.business_id := 2; Models.fields := T (Date 2023 12 1) 40 "debit" None |} ];
     audit_logs := [] |}.

Definition browser : Audit.Request :=
  {| Audit.client_host := Some "127.0.0.1"; Audit.header_user_agent := Some "curl" |}.

Definition sheet : Main.UploadFile :=
  {| Main.filename := Some "Ledger.CSV"; Main.content := "sheet" |}.

Definition statement : Main.UploadFile :=
  {| Main.filename := Some "statement.pdf";
     Main.content := "2024-01-05 Office rent DR 1,200.00" |}.

Definition read_signed_frame (content : string) : result DataFrame := Ok signed_frame.
Definition read_missing_date_frame (content : string) : result DataFrame :=
  Ok missing_date_frame.
Definition one_page (content : string) : list (option string) := [Some content].

(** The text of an invoice of two lines, the first one indented. *)
Definition invoice_text : InvoiceOcr.text :=
  InvoiceOcr.codes "  Acme Traders" ++ [10%N] ++ InvoiceOcr.codes "Items 120 and 1,250.50 due".

(** * Properties *)

(** ** Column detection *)

Section dict.
Context (norm : string → string).

Local Abbreviation dict_from := (dict_from norm).


Lemma dict_from_notin l : ∀ m k, k ∉ norm <$> l → dict_from m l !! k = m !! k.
Proof.
  induction l as [|a l IH]; intros m k Hk; [done|].
  cbn in *. apply not_elem_of_cons in Hk as [Hne Hk].
  unfold dict_from in IH. rewrite IH by done. by rewrite lookup_insert_ne.
Qed.

Lemma dict_from_in l : ∀ m c, NoDup (norm <$> l) → c ∈ l → dict_from m l !! norm c = Some c.
Proof.
  induction l as [|a l IH]; intros m c Hnd Hc; [by apply elem_of_nil in Hc|].
  cbn in *. apply NoDup_cons in Hnd as [Ha Hnd].
  apply elem_of_cons in Hc as [->|Hc].
  - pose proof (dict_from_notin l (<[norm a:=a]> m) (norm a) Ha) as E.
    unfold dict_from in E. rewrite E. apply lookup_insert_eq.
  - by apply IH.
Qed.

Lemma dict_from_Some l : ∀ m k c,
  dict_from m l !! k = Some c → (c ∈ l ∧ norm c = k) ∨ m !! k = Some c.
Proof.
  induction l as [|a l IH]; intros m k c H; [by right|].
  cbn in H. apply IH in H as [[Hc Hk]|H].
  - left. split; [by apply elem_of_cons; right | done].
  - destruct (decide (norm a = k)) as [<-|Hne].
    + rewrite lookup_insert_eq in H. injection H as ->. left. split; [apply elem_of_cons; by left|done].
    + rewrite lookup_insert_ne in H by done. by right.
Qed.

Lemma dict_from_perm l1 l2 :
  l1 ≡ₚ l2 → NoDup (norm <$> l1) → dict_from ∅ l1 = dict_from ∅ l2.
Proof.
  intros Hp Hnd. 
  assert (Hnd2 : NoDup (norm <$> l2)) by (by rewrite <- Hp).
  apply map_eq. intros k.
  destruct (dict_from ∅ l1 !! k) as [c|] eqn:E1.
  - apply dict_from_Some in E1 as [[Hc <-]|E1]; [|by rewrite lookup_empty in E1].
    symmetry. apply dict_from_in; [done|]. by rewrite <- Hp.
  - destruct (dict_from ∅ l2 !! k) as [c|] eqn:E2; [|done].
    apply dict_from_Some in E2 as [[Hc <-]|E2]; [|by rewrite lookup_empty in E2].
    rewrite dict_from_in in E1; [done|done|]. by rewrite Hp.
Qed.
End dict.

Lemma is_space_lower c : Py.is_space (Py.lower_char c) = Py.is_space c.
Proof. destruct c as [[] [] [] [] [] [] [] []]; reflexivity. Qed.

Lemma smap_rev_app f s1 : ∀ s2, Py.smap f (String.rev_app s1 s2) = String.rev_app (Py.smap f s1) (Py.smap f s2).
Proof. induction s1 as [|a s1 IH]; intros s2; cbn; [done|]. by rewrite IH. Qed.

Lemma lower_rev s : Py.lower (String.rev s) = String.rev (Py.lower s).
Proof. apply smap_rev_app. Qed.

Lemma lstrip_lower s : Py.lstrip (Py.lower s) = Py.lower (Py.lstrip s).
Proof.
  induction s as [|a s IH]; [done|]. cbn. rewrite is_space_lower.
  destruct (Py.is_space a); [done|reflexivity].
Qed.

Lemma strip_lower s : Py.strip (Py.lower s) = Py.lower (Py.strip s).
Proof.
  unfold Py.strip, Py.rstrip. by rewrite lstrip_lower, <- lower_rev, lstrip_lower, lower_rev.
Qed.

Section dict2.
Context (norm : string → string).
Lemma dict_from_is_Some l : ∀ m k, k ∈ norm <$> l → is_Some (dict_from norm m l !! k).
Proof.
  induction l as [|a l IH]; intros m k Hk; [by apply elem_of_nil in Hk|].
  cbn in *. destruct (decide (k ∈ norm <$> l)) as [Hin|Hnin]; [by apply IH|].
  apply elem_of_cons in Hk as [->|Hk]; [|done].
  pose proof (dict_from_notin norm l (<[norm a:=a]> m) (norm a) Hnin) as E.
  unfold dict_from in E. rewrite E, lookup_insert_eq. by eexists.
Qed.

Lemma dict_from_None l k :
  dict_from norm ∅ l !! k = None ↔ ∀ c, c ∈ l → norm c ≠ k.
Proof.
  split.
  - intros HN c Hc <-. 
    destruct (dict_from_is_Some l ∅ (norm c)) as [x Hx]; [by apply list_elem_of_fmap_2|].
    congruence.
  - intros H. rewrite dict_from_notin; [apply lookup_empty|].
    intros (c & -> & Hc)%list_elem_of_fmap. by apply (H c).
Qed.
End dict2.



Lemma utils_cols_dict cols : Utils.cols_dict cols = dict_from norm_header ∅ cols.
Proof. reflexivity. Qed.

Lemma main_cols_dict cols : Main.cols_dict cols = dict_from norm_header ∅ cols.
Proof.
  unfold Main.cols_dict, dict_from. generalize (∅ : gmap string string).
  induction cols as [|a l IH]; intros m; [done|]. cbn. rewrite strip_lower. apply IH.
Qed.

Lemma find_key_first_alias cols cands :
  first_alias_wins cols cands (Utils._find_col cols cands).
Proof.
  unfold Utils._find_col. rewrite utils_cols_dict.
  induction cands as [|key rest IH]; cbn.
  - intros key c Hk. by apply elem_of_nil in Hk.
  - destruct (dict_from norm_header ∅ cols !! Py.lower key) as [c|] eqn:E.
    + apply dict_from_Some in E as [[Hc Hn]|E]; [|by rewrite lookup_empty in E].
      split; [done|]. exists 0%nat, key. split_and!; [done|done|]. intros j key' Hj. lia.
    + pose proof (proj1 (dict_from_None _ _ _) E) as Hnone.
      destruct (Utils.find_key _ rest) as [c|] eqn:E'; cbn in *.
      * destruct IH as (Hc & i & k & Hi & Hn & Hfirst). split; [done|].
        exists (S i), k. split_and!; [done|done|].
        intros [|j] key' Hj Hl c' Hc'.
        -- injection Hl as <-. by apply Hnone.
        -- apply (Hfirst j key'); [lia|done|done].
      * intros k c [->|Hk]%elem_of_cons Hc; [by apply Hnone|by apply IH].
Qed.

Lemma dict_from_last norm l : ∀ m k,
  dict_from norm m l !! k
  = match last (filter (λ c, norm c = k) l) with
    | Some c => Some c
    | None => m !! k
    end.
Proof.
  induction l as [|a l IH]; intros m k; [done|].
  change (dict_from norm m (a :: l)) with (dict_from norm (<[norm a:=a]> m) l).
  rewrite IH, filter_cons. destruct (decide (norm a = k)) as [<-|Hne].
  - rewrite last_cons. destruct (last _); [done|]. apply lookup_insert_eq.
  - destruct (last _); [done|]. by apply lookup_insert_ne.
Qed.

Lemma cols_dict_last cols k :
  Utils.cols_dict cols !! k = last_header cols k
  ∧ Main.cols_dict cols !! k = last_header cols k.
Proof.
  rewrite main_cols_dict, utils_cols_dict, dict_from_last. unfold last_header.
  split; by destruct (last _).
Qed.

Lemma last_filter_split {A} (P : A → Prop) `{!∀ x, Decision (P x)} (l : list A) c :
  last (filter P l) = Some c →
  P c ∧ ∃ pre post, l = pre ++ c :: post ∧ ∀ c', c' ∈ post → ¬ P c'.
Proof.
  induction l as [|a l IH]; [done|]. rewrite filter_cons.
  destruct (last (filter P l)) as [c'|] eqn:E.
  - intros Hl. assert (c' = c) as ->.
    { destruct (decide (P a)); [rewrite last_cons, E in Hl|]; congruence. }
    destruct (IH eq_refl) as (Hc & pre & post & -> & Hpost).
    split; [done|]. by exists (a :: pre), post.
  - apply last_None in E. destruct (decide (P a)) as [Ha|Ha].
    + rewrite E. intros [= <-]. split; [done|]. exists [], l. split; [done|].
      intros c' Hc' HP.
      assert (Hin : c' ∈ filter P l) by (by apply list_elem_of_filter).
      rewrite E in Hin. by apply elem_of_nil in Hin.
    + by rewrite E.
Qed.

Lemma find_key_Some cols cands c :
  Utils.find_key cols cands = Some c → ∃ key, cols !! Py.lower key = Some c.
Proof.
  induction cands as [|key rest IH]; [done|]. cbn.
  destruct (cols !! Py.lower key) as [c'|] eqn:E; [|done].
  intros [= <-]. by exists key.
Qed.

Lemma pick_Some cols names c :
  Main.pick cols names = Some c → ∃ n, cols !! n = Some c.
Proof.
  induction names as [|n rest IH]; [done|]. cbn.
  destruct (cols !! n) as [c'|] eqn:E; [|done].
  intros [= <-]. by exists n.
Qed.

(** C6, as amended: for headers of which no two coincide after trimming
    and case folding, every permutation of the headers resolves every alias
    list to the same column, in [utils._find_col] and in [pick] of
    [main.py].  For any headers, the column found is one whose normalised
    header equals, without regard to case, the first alias in priority
    order that matches any column; both detectors look a key up in a
    dictionary that holds, for a key, the last header in source order that
    normalises to it; so the column found is followed by no header with
    the same normalised form. *)
Theorem field_detection_order_independent (cols cands : list string) :
  (∀ cols', cols ≡ₚ cols' → NoDup (norm_header <$> cols) →
     Utils._find_col cols cands = Utils._find_col cols' cands
     ∧ Main.pick (Main.cols_dict cols) cands = Main.pick (Main.cols_dict cols') cands)
  ∧ first_alias_wins cols cands (Utils._find_col cols cands)
  ∧ (∀ k, Utils.cols_dict cols !! k = last_header cols k)
  ∧ (∀ k, Main.cols_dict cols !! k = last_header cols k)
  ∧ (∀ c, Utils._find_col cols cands = Some c
          ∨ Main.pick (Main.cols_dict cols) cands = Some c →
       ∃ pre post, cols = pre ++ c :: post
                   ∧ ∀ c', c' ∈ post → norm_header c' ≠ norm_header c).
Proof.
  split_and!.
  - intros cols' Hp Hnd. split.
    + unfold Utils._find_col. rewrite !utils_cols_dict.
      by rewrite (dict_from_perm norm_header cols cols').
    + rewrite !main_cols_dict. by rewrite (dict_from_perm norm_header cols cols').
  - apply find_key_first_alias.
  - intros k. apply cols_dict_last.
  - intros k. apply cols_dict_last.
  - intros c H.
    assert (Hk : ∃ k, last_header cols k = Some c).
    { destruct H as [H|H].
      - apply find_key_Some in H as [key H]. exists (Py.lower key).
        by rewrite <- (proj1 (cols_dict_last cols _)).
      - apply pick_Some in H as [n H]. exists n.
        by rewrite <- (proj2 (cols_dict_last cols _)). }
    destruct Hk as [k Hk]. apply last_filter_split in Hk as (Hc & pre & post & -> & Hpost).
    exists pre, post. split; [done|]. intros c' Hc'. rewrite Hc. by apply Hpost.
Qed.

(** The amended C6 at the headers ["Amount"; " Txn_Date "]. *)
Lemma field_detection_order_independent_witness :
  ["Amount"; " Txn_Date "] ≡ₚ [" Txn_Date "; "Amount"]
  ∧ NoDup (norm_header <$> ["Amount"; " Txn_Date "])
  ∧ Utils._find_col ["Amount"; " Txn_Date "] Utils.COLUMN_ALIASES_date
    = Utils._find_col [" Txn_Date "; "Amount"] Utils.COLUMN_ALIASES_date.
Proof.
  assert (Hp : ["Amount"; " Txn_Date "] ≡ₚ [" Txn_Date "; "Amount"]) by apply perm_swap.
  assert (Hnd : NoDup (norm_header <$> ["Amount"; " Txn_Date "])).
  { apply (bool_decide_unpack _). vm_compute. exact I. }
  split_and!; [exact Hp | exact Hnd |].
  exact (proj1 (proj1 (field_detection_order_independent _ Utils.COLUMN_ALIASES_date)
                  _ Hp Hnd)).
Defined.

(** C6 as stated fails: the headers "Date" and "date" share a key, the later
    one overwrites the earlier one in the dictionary, and swapping them
    changes the column found: it is the last of the two. *)
Lemma field_detection_depends_on_order :
  ["Date"; "date"] ≡ₚ ["date"; "Date"]
  ∧ Utils._find_col ["Date"; "date"] Utils.COLUMN_ALIASES_date = Some "date"
  ∧ Utils._find_col ["date"; "Date"] Utils.COLUMN_ALIASES_date = Some "Date"
  ∧ Main.pick (Main.cols_dict ["Date"; "date"]) ["date"] = Some "date"
  ∧ Main.pick (Main.cols_dict ["date"; "Date"]) ["date"] = Some "Date".
Proof. split; [apply perm_swap|]. vm_compute. done. Qed.

(** ** Frames, series and the traversal of a column *)

Lemma frame_rows_lookup ds : ∀ des cs dis ams i t,
  frame_rows ds des cs dis ams !! i = Some t →
  ds !! i = Some (txn_date t) ∧ des !! i = Some (description t)
  ∧ cs !! i = Some (category t) ∧ dis !! i = Some (direction t)
  ∧ ams !! i = Some (amount t).
Proof.
  induction ds as [|d ds IH]; intros [|de des] [|c cs] [|di dis] [|a ams] i t H;
    try (cbn in H; by rewrite lookup_nil in H).
  destruct i as [|i]; cbn in H.
  - injection H as <-. done.
  - apply IH in H. done.
Qed.

Lemma frame_rows_length ds : ∀ des cs dis ams n,
  length ds = n → length des = n → length cs = n → length dis = n → length ams = n →
  length (frame_rows ds des cs dis ams) = n.
Proof.
  induction ds as [|d ds IH]; intros [|de des] [|c cs] [|di dis] [|a ams] n;
    cbn; intros; try congruence; try lia.
  destruct n as [|n]; [lia|]. f_equal. apply IH; lia.
Qed.

Lemma apply_series_Ok {A B} (f : A → result B) l : ∀ ys,
  apply_series f l = Ok ys → Forall2 (λ x y, f x = Ok y) l ys.
Proof.
  induction l as [|x l IH]; intros ys H; cbn in H.
  - injection H as <-. constructor.
  - destruct (f x) as [y|e] eqn:E; cbn in H; [|discriminate].
    destruct (apply_series f l) as [ys'|e] eqn:E'; cbn in H; [|discriminate].
    injection H as <-. constructor; [done|]. by apply IH.
Qed.

Lemma apply_series_total {A B} (f : A → result B) l :
  (∀ x, x ∈ l → ∃ y, f x = Ok y) → ∃ ys, apply_series f l = Ok ys.
Proof.
  induction l as [|x l IH]; intros H; cbn; [by eexists|].
  destruct (H x) as [y ->]; [apply elem_of_cons; by left|].
  destruct IH as [ys ->]; [intros; apply H, elem_of_cons; by right|].
  cbn. by eexists.
Qed.

Lemma apply_series_Err {A B} (f : A → result B) l x e :
  x ∈ l → f x = Err e → ∃ e', apply_series f l = Err e'.
Proof.
  induction l as [|a l IH]; intros Hx Hf; [by apply elem_of_nil in Hx|].
  cbn. destruct (f a) as [y|e0] eqn:E; cbn; [|by eexists].
  apply elem_of_cons in Hx as [->|Hx]; [congruence|].
  destruct (IH Hx Hf) as [e' ->]. cbn. by eexists.
Qed.

(** the first failing cell decides the error *)
Lemma apply_series_first_Err {A B} (f : A → result B) l e :
  apply_series f l = Err e →
  ∃ i x, l !! i = Some x ∧ f x = Err e ∧ ∀ j z, (j < i)%nat → l !! j = Some z → ∃ y, f z = Ok y.
Proof.
  induction l as [|a l IH]; intros H; cbn in H; [discriminate|].
  destruct (f a) as [y|e0] eqn:E; cbn in H.
  - destruct (apply_series f l) as [ys|e1] eqn:E'; cbn in H; [discriminate|].
    injection H as ->. destruct (IH eq_refl) as (i & x & Hi & Hx & Hlt).
    exists (S i), x. split_and!; [done|done|].
    intros [|j] z Hj Hz; cbn in Hz.
    + injection Hz as <-. by eexists.
    + apply (Hlt j); [lia|done].
  - injection H as ->. exists 0%nat, a. split_and!; [done|done|]. intros; lia.
Qed.

Lemma col_index_Some c labels : c ∈ labels → ∃ i, col_index c labels = Some i.
Proof.
  induction labels as [|l labels IH]; intros H; [by apply elem_of_nil in H|].
  cbn. destruct (decide (l = c)); [by eexists|].
  apply elem_of_cons in H as [->|H]; [done|]. destruct (IH H) as [i ->]. by eexists.
Qed.

Lemma series_length df c : c ∈ columns df → length (series df c) = length (rows df).
Proof.
  intros H. unfold series. destruct (col_index_Some _ _ H) as [i ->]. by rewrite length_fmap.
Qed.

Lemma pick_elem cols names c :
  Main.pick (Main.cols_dict cols) names = Some c → c ∈ cols.
Proof.
  rewrite main_cols_dict. induction names as [|n names IH]; cbn; [done|].
  destruct (dict_from norm_header ∅ cols !! n) as [c'|] eqn:E; [|done].
  intros [= ->]. apply dict_from_Some in E as [[? _]|E]; [done|by rewrite lookup_empty in E].
Qed.

Lemma truthy_Some o : truthy o = true → ∃ c, o = Some c.
Proof. destruct o as [[|]|]; cbn; [done|by eexists|done]. Qed.

(** ** Tabular normalisation in [main.py] *)

Section main_normalization.
Context (float_number : string → option number) (float_repr : Q → string)
        (strptime : string → string → option date)
        (pd_to_datetime : string → option pydate).

Abbreviation normalize := (Main.normalize_transactions float_number float_repr strptime pd_to_datetime).
Abbreviation parse_date := (Main._parse_date_any float_repr strptime pd_to_datetime).
Abbreviation safe_float := (Main._safe_float float_number float_repr).
Abbreviation detected_direction := (Main.detected_direction float_number float_repr).
Abbreviation amount_column := (Main.amount_column float_number float_repr).
Abbreviation category_column := (Main.category_column float_number float_repr).
Abbreviation direction_column := (Main.direction_column float_number float_repr).
Abbreviation description_column := (Main.description_column float_repr).
Abbreviation detected_category := (Main.detected_category float_repr).


Lemma detect_found df (sel : Main.field_mapping → option string) :
  sel ∈ [Main.c_date; Main.c_desc; Main.c_cat; Main.c_dir; Main.c_amt] →
  truthy (sel (Main.detect_columns df)) = true → found df (sel (Main.detect_columns df)).
Proof.
  intros Hsel Ht. apply truthy_Some in Ht as [c Hc]. exists c. split; [done|].
  rewrite !elem_of_cons, elem_of_nil in Hsel.
  destruct Hsel as [->|[->|[->|[->|[->|[]]]]]];
    unfold Main.detect_columns in Hc; cbn [Main.c_date Main.c_desc Main.c_cat Main.c_dir Main.c_amt] in Hc;
    by apply pick_elem in Hc.
Qed.

Lemma column_length df c : found df c → length (Main.column df c) = length (rows df).
Proof. intros (l & -> & Hl). by apply series_length. Qed.

Lemma detected_direction_length df :
  let fm := Main.detect_columns df in
  truthy (Main.c_amt fm) = true →
  length (detected_direction df fm) = length (rows df).
Proof.
  intros fm Ha. unfold Main.detected_direction.
  destruct (truthy (Main.c_dir fm)) eqn:Hd.
  - rewrite length_fmap. apply column_length, (detect_found df Main.c_dir); [set_solver|done].
  - rewrite !length_fmap. apply column_length, (detect_found df Main.c_amt); [set_solver|done].
Qed.

Lemma amount_column_length df :
  let fm := Main.detect_columns df in
  truthy (Main.c_amt fm) = true →
  length (amount_column df fm) = length (rows df).
Proof.
  intros fm Ha. unfold Main.amount_column.
  destruct (truthy (Main.c_dir fm)); rewrite ?length_fmap;
    apply column_length, (detect_found df Main.c_amt); (set_solver || done).
Qed.

Lemma detected_category_length df :
  let fm := Main.detect_columns df in
  length (detected_category df fm) = length (rows df).
Proof.
  intros fm. unfold Main.detected_category.
  destruct (truthy (Main.c_cat fm)) eqn:Hc.
  - rewrite length_fmap. apply column_length, (detect_found df Main.c_cat); [set_solver|done].
  - apply length_replicate.
Qed.

Lemma description_column_length df :
  let fm := Main.detect_columns df in
  length (description_column df fm) = length (rows df).
Proof.
  intros fm. unfold Main.description_column, Main.detected_description. rewrite length_fmap.
  destruct (truthy (Main.c_desc fm)) eqn:Hc.
  - rewrite length_fmap. apply column_length, (detect_found df Main.c_desc); [set_solver|done].
  - apply length_replicate.
Qed.

Lemma category_column_length df :
  let fm := Main.detect_columns df in
  truthy (Main.c_amt fm) = true →
  length (category_column df fm) = length (rows df).
Proof.
  intros fm Ha. unfold Main.category_column, Main.fill_category.
  rewrite length_fmap, !length_zip_with, detected_category_length, detected_direction_length by done.
  lia.
Qed.

(** What a successful call on a frame with rows and columns went through. *)
Lemma normalize_Ok_inv df out :
  df_empty df = false → normalize df = Ok out →
  let fm := Main.detect_columns df in
  truthy (Main.c_date fm) = true ∧ truthy (Main.c_amt fm) = true ∧
  ∃ dates,
    apply_series parse_date (Main.column df (Main.c_date fm)) = Ok dates ∧
    out = frame_rows dates (description_column df fm) (category_column df fm)
            (direction_column df fm) (amount_column df fm).
Proof.
  intros He H fm. unfold Main.normalize_transactions in H. rewrite He in H.
  fold fm in H. clearbody fm.
  destruct (truthy (Main.c_date fm)) eqn:Hd; [|discriminate].
  destruct (truthy (Main.c_amt fm)) eqn:Ha; [|discriminate].
  cbn [negb orb] in H.
  destruct (apply_series parse_date (Main.column df (Main.c_date fm))) as [dates|e] eqn:E;
    cbn in H; [|discriminate].
  injection H as <-. split_and!; [done..|]. by exists dates.
Qed.

Lemma normalize_length df out :
  df_empty df = false → normalize df = Ok out → length out = length (rows df).
Proof.
  intros He H. destruct (normalize_Ok_inv df out He H) as (Hd & Ha & dates & Hdates & ->).
  apply apply_series_Ok, Forall2_length in Hdates.
  apply frame_rows_length.
  - rewrite <- Hdates. apply column_length, (detect_found df Main.c_date); [set_solver|done].
  - apply description_column_length.
  - by apply category_column_length.
  - unfold Main.direction_column. rewrite length_fmap. by apply detected_direction_length.
  - by apply amount_column_length.
Qed.

Lemma normalize_empty df out :
  df_empty df = true → normalize df = Ok out → out = [].
Proof. intros He H. unfold Main.normalize_transactions in H. rewrite He in H. congruence. Qed.

End main_normalization.

Section main_rows.
Context (float_number : string → option number) (float_repr : Q → string)
        (strptime : string → string → option date)
        (pd_to_datetime : string → option pydate).

Abbreviation normalize := (Main.normalize_transactions float_number float_repr strptime pd_to_datetime).
Abbreviation parse_date := (Main._parse_date_any float_repr strptime pd_to_datetime).
Abbreviation safe_float := (Main._safe_float float_number float_repr).
Abbreviation py_float := (Main.py_float float_number).
Abbreviation detected_direction := (Main.detected_direction float_number float_repr).
Abbreviation amount_column := (Main.amount_column float_number float_repr).
Abbreviation category_column := (Main.category_column float_number float_repr).
Abbreviation direction_column := (Main.direction_column float_number float_repr).
Abbreviation detected_category := (Main.detected_category float_repr).

(** The cells a produced row was built from. *)
Lemma normalize_row df out i t :
  normalize df = Ok out → out !! i = Some t →
  let fm := Main.detect_columns df in
  direction_column df fm !! i = Some (direction t)
  ∧ category_column df fm !! i = Some (category t)
  ∧ amount_column df fm !! i = Some (amount t).
Proof.
  intros H Hi fm. destruct (df_empty df) eqn:He.
  - apply normalize_empty in H; [|done]. subst out. by rewrite lookup_nil in Hi.
  - destruct (normalize_Ok_inv _ _ _ _ df out He H) as (_ & _ & dates & _ & ->).
    apply frame_rows_lookup in Hi. tauto.
Qed.

Lemma normalize_row_date df out i t :
  normalize df = Ok out → out !! i = Some t →
  ∃ x, Main.column df (Main.c_date (Main.detect_columns df)) !! i = Some x
       ∧ parse_date x = Ok (txn_date t).
Proof.
  intros H Hi. destruct (df_empty df) eqn:He.
  - apply normalize_empty in H; [|done]. subst out. by rewrite lookup_nil in Hi.
  - destruct (normalize_Ok_inv _ _ _ _ df out He H) as (_ & _ & dates & Hdates & ->).
    apply frame_rows_lookup in Hi as (Hd & _).
    apply apply_series_Ok in Hdates.
    destruct (Forall2_lookup_r _ _ _ _ _ Hdates Hd) as (x & Hx & Hp). by exists x.
Qed.

Lemma normalize_row_amount df out i t :
  normalize df = Ok out → out !! i = Some t →
  ∃ x, Main.column df (Main.c_amt (Main.detect_columns df)) !! i = Some x
       ∧ amount t = fabs (safe_float x).
Proof.
  intros H Hi. destruct (normalize_row df out i t H Hi) as (_ & _ & Ha).
  unfold Main.amount_column in Ha.
  destruct (truthy (Main.c_dir (Main.detect_columns df))).
  - apply list_lookup_fmap_Some in Ha as (x & Ha & Hx). by exists x.
  - rewrite <- list_fmap_compose in Ha.
    apply list_lookup_fmap_Some in Ha as (x & Ha & Hx). by exists x.
Qed.

Lemma fabs_NaN v : fabs v = NaN ↔ v = NaN.
Proof. by destruct v. Qed.

Lemma normalize_direction_values v :
  Main._normalize_direction v = "credit" ∨ Main._normalize_direction v = "debit".
Proof.
  unfold Main._normalize_direction. repeat case_bool_decide; auto.
Qed.

Lemma sign_direction_values v : sign_direction v = "credit" ∨ sign_direction v = "debit".
Proof. unfold sign_direction. destruct (fge0 v); auto. Qed.

Lemma detected_direction_values df fm i d :
  detected_direction df fm !! i = Some d → d = "credit" ∨ d = "debit".
Proof.
  unfold Main.detected_direction. destruct (truthy (Main.c_dir fm)).
  - rewrite list_lookup_fmap. destruct (_ !! i); cbn; [|done].
    intros [= <-]. apply normalize_direction_values.
  - rewrite !list_lookup_fmap. destruct (_ !! i); cbn; [|done].
    intros [= <-]. apply sign_direction_values.
Qed.

(** [float] gives NaN for the spellings of NaN and for no other text. *)
Lemma py_float_NaN s : py_float s = Some NaN ↔ Py.is_nan_literal s = true.
Proof.
  unfold Main.py_float. destruct (Py.is_nan_literal s); [done|].
  split; [|done]. by destruct (float_number s) as [[q|b]|].
Qed.

Lemma safe_float_NaN x : safe_float x = NaN ↔ nan_amount float_repr x.
Proof.
  unfold Main._safe_float, nan_amount, amount_text, Main.str_cell.
  destruct (isna x) eqn:E.
  { assert (x = CNaN) as -> by by destruct x. split; [done|]. by intros [? _]. }
  assert (Hx : x ≠ CNaN) by by intros ->.
  case_decide as Hs.
  { rewrite Hs. split; [done|]. intros [_ H]. by vm_compute in H. }
  destruct (py_float _) as [v|] eqn:Ev.
  - split.
    + intros ->. split; [done|]. by apply py_float_NaN.
    + intros [_ H]. apply py_float_NaN in H. congruence.
  - split; [done|]. intros [_ H]. apply py_float_NaN in H. congruence.
Qed.

Lemma fabs_nonneg v : v ≠ NaN → nonneg (fabs v).
Proof.
  unfold nonneg. destruct v as [q|b|]; [|done..]. intros _. cbn [fabs fge0].
  apply Qle_bool_iff, Qabs_nonneg.
Qed.








Lemma main_category_default df out i t :
  normalize df = Ok out → out !! i = Some t →
  detected_category df (Main.detect_columns df) !! i = Some "" →
  (direction t = "credit" ∧ category t = "revenue")
  ∨ (direction t = "debit" ∧ category t = "expense").
Proof.
  intros H Hi Hcat. destruct (normalize_row df out i t H Hi) as (Hd & Hc & _).
  unfold Main.direction_column in Hd. unfold Main.category_column, Main.fill_category in Hc.
  rewrite list_lookup_fmap in Hd. rewrite list_lookup_fmap, !lookup_zip_with, Hcat in Hc.
  destruct (detected_direction df _ !! i) as [d|] eqn:Ed; [|done].
  cbn in Hd, Hc. injection Hd as Hd. injection Hc as Hc.
  destruct (detected_direction_values _ _ _ _ Ed) as [-> | ->]; [left|right];
    rewrite <- Hd, <- Hc; by vm_compute.
Qed.

(** A category that is not empty when first assigned is kept, trimmed and
    cut to 64 characters. *)
Lemma main_category_kept df out i t c :
  normalize df = Ok out → out !! i = Some t →
  detected_category df (Main.detect_columns df) !! i = Some c → c ≠ "" →
  category t = Py.slice_to 64 (Py.strip c).
Proof.
  intros H Hi Hcat Hne. destruct (normalize_row df out i t H Hi) as (_ & Hc & _).
  unfold Main.category_column, Main.fill_category in Hc.
  rewrite list_lookup_fmap, !lookup_zip_with, Hcat in Hc.
  destruct (detected_direction df _ !! i) as [d|] eqn:Ed; [|done].
  assert (E : String.eqb c "" = false) by by apply String.eqb_neq.
  cbn [mbind option_bind fmap option_fmap option_map] in Hc.
  rewrite E in Hc. cbn [andb] in Hc. rewrite E in Hc. cbn [andb] in Hc.
  by injection Hc as <-.
Qed.

Lemma parse_date_Err x e :
  parse_date x = Err e →
  e = HTTPException 400 ("Invalid date: " +:+ str_of_cell float_repr x)
  ∧ pd_to_datetime (date_text float_repr x) = None.
Proof.
  unfold Main._parse_date_any, Main.str_cell, date_text. intros H.
  destruct x; try done;
    (destruct (Main.try_formats _ _ _); [done|]; destruct (pd_to_datetime _); [done|];
     by injection H as <-).
Qed.

(** A cell is read as NaT exactly when it is no date, no format reads its
    text and pandas takes the text as missing. *)
Lemma parse_date_NaT x :
  parse_date x = Ok NaT
  ↔ (∀ d, x ≠ CDate d)
    ∧ Main.try_formats strptime (date_text float_repr x) Main.date_formats = None
    ∧ pd_to_datetime (date_text float_repr x) = Some NaT.
Proof.
  unfold Main._parse_date_any, Main.str_cell, date_text.
  destruct x as [|q|s|d];
    try (destruct (Main.try_formats _ _ _) as [d'|];
         [split; [done|by intros (_ & ? & _)]|];
         destruct (pd_to_datetime _) as [[d'|]|];
         split; first [done | by intros (_ & _ & ?) | by intros _; split_and!]).
  split; [done|]. intros (H & _). by destruct (H d).
Qed.

Lemma main_all_or_nothing df :
  df_empty df = false →
  truthy (Main.c_date (Main.detect_columns df)) = true →
  truthy (Main.c_amt (Main.detect_columns df)) = true →
  let dates := Main.column df (Main.c_date (Main.detect_columns df)) in
  (∀ out, normalize df = Ok out →
     length out = length (rows df) ∧ ∀ x, x ∈ dates → ∃ d, parse_date x = Ok d)
  ∧ ((∀ x, x ∈ dates → ∃ d, parse_date x = Ok d) → ∃ out, normalize df = Ok out)
  ∧ (∀ x e, x ∈ dates → parse_date x = Err e → ∃ e', normalize df = Err e')
  ∧ (∀ e, normalize df = Err e →
       ∃ i x, dates !! i = Some x
         ∧ e = HTTPException 400 ("Invalid date: " +:+ str_of_cell float_repr x)
         ∧ pd_to_datetime (date_text float_repr x) = None
         ∧ ∀ j z, (j < i)%nat → dates !! j = Some z → ∃ d, parse_date z = Ok d).
Proof.
  intros He Hd Ha dates.
  assert (Hunf : normalize df =
            apply_series parse_date dates ≫= λ ds,
              Ok (frame_rows ds (Main.description_column float_repr df (Main.detect_columns df))
                    (category_column df (Main.detect_columns df))
                    (direction_column df (Main.detect_columns df))
                    (amount_column df (Main.detect_columns df)))).
  { unfold Main.normalize_transactions. rewrite He.
    cbv zeta. rewrite Hd, Ha. reflexivity. }
  split_and!.
  - intros out H. split; [by eapply normalize_length|].
    intros x Hx. destruct (parse_date x) as [d|e] eqn:E; [by eexists|].
    destruct (apply_series_Err parse_date dates x e Hx E) as [e' He'].
    rewrite Hunf, He' in H. discriminate.
  - intros Hall. destruct (apply_series_total parse_date dates Hall) as [ds Hds].
    rewrite Hunf, Hds. by eexists.
  - intros x e Hx E. destruct (apply_series_Err parse_date dates x e Hx E) as [e' He'].
    rewrite Hunf, He'. by eexists.
  - intros e H. rewrite Hunf in H.
    destruct (apply_series parse_date dates) as [ds|e'] eqn:E; [discriminate|].
    injection H as ->. apply apply_series_first_Err in E as (i & x & Hi & Hx & Hlt).
    exists i, x. destruct (parse_date_Err x e Hx) as [-> Hp]. done.
Qed.

End main_rows.

(** ** Tabular normalisation in [utils.py] *)

Section utils_rows.
Context (float_repr : Q → string) (pd_to_numeric : cell → option number)
        (pd_to_datetime : list cell → list (option date)).

End utils_rows.




(** C2, as amended: on a frame with rows and with a date and an amount
    column no row is ever dropped: ingestion returns one transaction per
    input row, or fails as a whole.  It fails exactly when
    [_parse_date_any] raises on a date cell, which it does when none of the
    four formats reads the text and [pd.to_datetime] raises on it; the error
    is the "Invalid date" error of the first such row.  A cell that pandas
    takes as missing does not fail: its row is returned with the date NaT. *)
Theorem ingestion_all_or_nothing
    (float_number : string → option number) (float_repr : Q → string)
    (strptime : string → string → option date) (pd_to_datetime : string → option pydate)
    (df : DataFrame) :
  df_empty df = false →
  truthy (Main.c_date (Main.detect_columns df)) = true →
  truthy (Main.c_amt (Main.detect_columns df)) = true →
  let normalize := Main.normalize_transactions float_number float_repr strptime pd_to_datetime in
  let parse_date := Main._parse_date_any float_repr strptime pd_to_datetime in
  let dates := Main.column df (Main.c_date (Main.detect_columns df)) in
  (∀ out, normalize df = Ok out →
     length out = length (rows df) ∧ ∀ x, x ∈ dates → ∃ d, parse_date x = Ok d)
  ∧ ((∀ x, x ∈ dates → ∃ d, parse_date x = Ok d) → ∃ out, normalize df = Ok out)
  ∧ (∀ x e, x ∈ dates → parse_date x = Err e → ∃ e', normalize df = Err e')
  ∧ (∀ e, normalize df = Err e →
       ∃ i x, dates !! i = Some x
         ∧ e = HTTPException 400 ("Invalid date: " +:+ str_of_cell float_repr x)
         ∧ pd_to_datetime (date_text float_repr x) = None
         ∧ ∀ j z, (j < i)%nat → dates !! j = Some z → ∃ d, parse_date z = Ok d)
  ∧ (∀ out i t, normalize df = Ok out → out !! i = Some t →
       ∃ x, dates !! i = Some x ∧ parse_date x = Ok (txn_date t))
  ∧ (∀ x, parse_date x = Ok NaT
          ↔ (∀ d, x ≠ CDate d)
            ∧ Main.try_formats strptime (date_text float_repr x) Main.date_formats = None
            ∧ pd_to_datetime (date_text float_repr x) = Some NaT).
Proof.
  intros He Hd Ha.
  destruct (main_all_or_nothing float_number float_repr strptime pd_to_datetime df He Hd Ha)
    as (H1 & H2 & H3 & H4).
  cbv zeta. split_and!; [exact H1|exact H2|exact H3|exact H4| |].
  - intros out i t H Hi. by eapply normalize_row_date.
  - apply parse_date_NaT.
Qed.

(** The amended C2 on [missing_date_frame], whose second date is missing
    and whose third is blank: three rows in, three transactions out, the
    second with the date NaT. *)
Lemma ingestion_all_or_nothing_witness :
  let out := rows_of (Lib.normalize_transactions missing_date_frame) in
  df_empty missing_date_frame = false
  ∧ truthy (Main.c_date (Main.detect_columns missing_date_frame)) = true
  ∧ truthy (Main.c_amt (Main.detect_columns missing_date_frame)) = true
  ∧ Lib.normalize_transactions missing_date_frame = Ok out
  ∧ length out = length (rows missing_date_frame)
  ∧ txn_date <$> out = [ADate (Date 2024 1 5); NaT; NaT].
Proof.
  intros out.
  assert (H1 : df_empty missing_date_frame = false) by (vm_compute; reflexivity).
  assert (H2 : truthy (Main.c_date (Main.detect_columns missing_date_frame)) = true)
    by (vm_compute; reflexivity).
  assert (H3 : truthy (Main.c_amt (Main.detect_columns missing_date_frame)) = true)
    by (vm_compute; reflexivity).
  assert (H4 : Lib.normalize_transactions missing_date_frame = Ok out)
    by (vm_compute; reflexivity).
  assert (H5 : txn_date <$> out = [ADate (Date 2024 1 5); NaT; NaT])
    by (vm_compute; reflexivity).
  split_and!; [exact H1|exact H2|exact H3|exact H4| |exact H5].
  exact (proj1 (proj1 (ingestion_all_or_nothing Lib.float_number Lib.repr Lib.strptime
                         Lib.to_datetime missing_date_frame H1 H2 H3) out H4)).
Defined.

(** C2 as stated fails: of the two rows of [bad_date_frame] the first
    parses and the second does not, and the ingestion returns no batch of one
    row but the error of the second. *)
Lemma one_bad_date_aborts_ingestion :
  Main._parse_date_any Lib.repr Lib.strptime Lib.to_datetime (CStr "2024-01-05")
    = Ok (ADate (Date 2024 1 5))
  ∧ Main._parse_date_any Lib.repr Lib.strptime Lib.to_datetime (CStr "not a date")
    = Err (HTTPException 400 "Invalid date: not a date")
  ∧ Lib.normalize_transactions bad_date_frame
    = Err (HTTPException 400 "Invalid date: not a date").
Proof. split_and!; vm_compute; reflexivity. Qed.

(** C3: the category of a produced row is taken from its direction only
    when it was the empty text when first assigned, which is so without a
    category column and for a cell that holds the empty text.  Under a
    category column a missing cell is not empty when first assigned, since
    [astype(str)] has made it the text "nan" before [fillna("")] is
    reached: the row keeps the category "nan".  A cell of white space is
    not empty either and ends, trimmed, as the empty category.  Neither
    gets "revenue" or "expense". *)
Theorem missing_category_is_not_defaulted
    (float_number : string → option number) (float_repr : Q → string)
    (strptime : string → string → option date) (pd_to_datetime : string → option pydate)
    (df : DataFrame) (out : list txn_row) (i : nat) (t : txn_row) :
  Main.normalize_transactions float_number float_repr strptime pd_to_datetime df = Ok out →
  out !! i = Some t →
  (Main.detected_category float_repr df (Main.detect_columns df) !! i = Some "" →
   category_follows_direction t)
  ∧ (truthy (Main.c_cat (Main.detect_columns df)) = false → category_follows_direction t)
  ∧ (truthy (Main.c_cat (Main.detect_columns df)) = true →
     ∃ x, Main.column df (Main.c_cat (Main.detect_columns df)) !! i = Some x
          ∧ (x = CNaN → category t = "nan")
          ∧ (∀ s, x = CStr s → s ≠ "" → Py.strip s = "" → category t = "")
          ∧ (x = CStr "" → category_follows_direction t)).
Proof.
  intros H Hi.
  assert (Hdef : Main.detected_category float_repr df (Main.detect_columns df) !! i = Some "" →
                 category_follows_direction t).
  { intros Hc.
    destruct (main_category_default _ _ _ _ df out i t H Hi Hc) as [[Hd Hcat]|[Hd Hcat]];
      unfold category_follows_direction; rewrite Hd, Hcat; split_and!; auto; try done. }
  assert (Hlen : (i < length (rows df))%nat).
  { destruct (df_empty df) eqn:He.
    - apply (normalize_empty _ _ _ _ df out He) in H. subst out. by rewrite lookup_nil in Hi.
    - rewrite <- (normalize_length _ _ _ _ df out He H). by eapply lookup_lt_Some. }
  split_and!; [exact Hdef| |].
  - intros Hc. apply Hdef. unfold Main.detected_category. rewrite Hc.
    by apply lookup_replicate_2.
  - intros Hc.
    assert (Hx : ∃ x, Main.column df (Main.c_cat (Main.detect_columns df)) !! i = Some x).
    { apply lookup_lt_is_Some. rewrite (column_length df); [done|].
      apply (detect_found df Main.c_cat); [set_solver|done]. }
    destruct Hx as [x Hx]. exists x. split; [done|].
    assert (Hdc : Main.detected_category float_repr df (Main.detect_columns df) !! i
                  = Some (Py.lower (Main.str_cell float_repr x))).
    { unfold Main.detected_category. rewrite Hc, list_lookup_fmap, Hx. done. }
    split_and!.
    + intros ->. rewrite (main_category_kept _ _ _ _ df out i t _ H Hi Hdc); by vm_compute.
    + intros s -> Hne Hblank.
      assert (Hl : Py.lower s ≠ "") by (by destruct s).
      rewrite (main_category_kept _ _ _ _ df out i t _ H Hi Hdc Hl).
      unfold Main.str_cell. cbn [str_of_cell]. by rewrite strip_lower, Hblank.
    + intros ->. by apply Hdef.
Qed.

(** C3 on [missing_category_frame]: three credits of 100 whose category
    cell is missing, blank and empty get the categories "nan", "" and
    "revenue". *)
Lemma missing_category_is_not_defaulted_witness :
  let out := rows_of (Lib.normalize_transactions missing_category_frame) in
  Lib.normalize_transactions missing_category_frame = Ok out
  ∧ truthy (Main.c_cat (Main.detect_columns missing_category_frame)) = true
  ∧ (λ t, (direction t, category t)) <$> out
    = [("credit", "nan"); ("credit", ""); ("credit", "revenue")]
  ∧ ∃ t, out !! 0%nat = Some t ∧ category t = "nan".
Proof.
  intros out.
  assert (H1 : Lib.normalize_transactions missing_category_frame = Ok out)
    by (vm_compute; reflexivity).
  assert (H2 : truthy (Main.c_cat (Main.detect_columns missing_category_frame)) = true)
    by (vm_compute; reflexivity).
  assert (H3 : (λ t, (direction t, category t)) <$> out
               = [("credit", "nan"); ("credit", ""); ("credit", "revenue")])
    by (vm_compute; reflexivity).
  assert (H4 : ∃ t, out !! 0%nat = Some t) by (eexists; vm_compute; reflexivity).
  split_and!; [exact H1|exact H2|exact H3|].
  destruct H4 as [t Ht]. exists t. split; [exact Ht|].
  destruct (proj2 (proj2 (missing_category_is_not_defaulted Lib.float_number Lib.repr
                            Lib.strptime Lib.to_datetime missing_category_frame out
                            0%nat t H1 Ht)) H2) as (x & Hx & Hnan & _).
  vm_compute in Hx. injection Hx as <-. exact (Hnan eq_refl).
Defined.





(** ** The monthly series against the summary *)

Lemma py_sum_from (l : list Q) : ∀ a, (foldl Qplus a l == a + sumQ l)%Q.
Proof.
  unfold sumQ. induction l as [|x l IH]; intros a; cbn [foldl foldr].
  - ring.
  - rewrite IH. ring.
Qed.

Lemma py_sum_sumQ l : (py_sum l == sumQ l)%Q.
Proof. unfold py_sum. rewrite py_sum_from. ring. Qed.

Lemma sumQ_perm (l1 l2 : list Q) : l1 ≡ₚ l2 → (sumQ l1 == sumQ l2)%Q.
Proof.
  unfold sumQ. induction 1 as [|x l1 l2 _ IH|x y l|l1 l2 l3 _ IH1 _ IH2]; cbn [foldr].
  - reflexivity.
  - by rewrite IH.
  - ring.
  - by rewrite IH1.
Qed.

Lemma sumQ_app l1 l2 : (sumQ (l1 ++ l2) == sumQ l1 + sumQ l2)%Q.
Proof.
  unfold sumQ. induction l1 as [|x l1 IH]; [cbn [app foldr]; ring|].
  change (x + foldr Qplus 0 (l1 ++ l2) == x + foldr Qplus 0 l1 + foldr Qplus 0 l2)%Q.
  rewrite IH. ring.
Qed.

Section buckets.
(** a figure of a bucket: its revenue or its expenses *)
Context (fig : Bucket.t → Q).

Local Abbreviation total := (total fig).


Lemma total_insert_fresh m k b :
  m !! k = None → (total (<[k:=b]> m) == fig b + total m)%Q.
Proof.
  intros H. unfold total.
  rewrite (sumQ_perm _ _ (fmap_Permutation _ _ _ (map_to_list_insert m k b H))).
  reflexivity.
Qed.

Lemma total_delete m k b :
  m !! k = Some b → (total m == fig b + total (delete k m))%Q.
Proof.
  intros H. unfold total.
  rewrite <- (sumQ_perm _ _ (fmap_Permutation _ _ _ (map_to_list_delete m k b H))).
  reflexivity.
Qed.

Lemma total_alter m k b f :
  m !! k = Some b → (total (alter f k m) == total m + (fig (f b) - fig b))%Q.
Proof.
  intros H. rewrite (alter_alt_Some f m k b H), <- insert_delete_eq.
  rewrite total_insert_fresh by apply lookup_delete_eq.
  rewrite (total_delete m k b H). ring.
Qed.
End buckets.


Lemma sum_amounts_cons p t txns :
  (Main.sum_amounts p (t :: txns) == (if p t then Models.amount t else 0) + Main.sum_amounts p txns)%Q.
Proof.
  unfold Main.sum_amounts. rewrite !py_sum_sumQ. rewrite filter_cons.
  destruct (decide (p t = true)) as [E|E].
  - rewrite E. reflexivity.
  - apply not_true_is_false in E. rewrite E. ring.
Qed.

Lemma bucket_step_totals m t :
  (total Bucket.revenue (Main.bucket_step m t) == total Bucket.revenue m + rev_amount t)%Q
  ∧ (total Bucket.expenses (Main.bucket_step m t) == total Bucket.expenses m + exp_amount t)%Q.
Proof.
  unfold Main.bucket_step, rev_amount, exp_amount.
  set (k := strftime_Ym (Models.txn_date t)).
  set (b0 := {| Bucket.month := k; Bucket.revenue := 0; Bucket.expenses := 0; Bucket.profit_simple := 0 |}).
  set (m1 := match m !! k with Some _ => m | None => <[k:=b0]> m end).
  assert (H1 : ∃ b, m1 !! k = Some b).
  { unfold m1. destruct (m !! k) as [b|] eqn:E; [by exists b|].
    exists b0. apply lookup_insert_eq. }
  assert (Hr1 : (total Bucket.revenue m1 == total Bucket.revenue m)%Q).
  { unfold m1. destruct (m !! k) eqn:E; [reflexivity|].
    rewrite total_insert_fresh by done. cbn. ring. }
  assert (He1 : (total Bucket.expenses m1 == total Bucket.expenses m)%Q).
  { unfold m1. destruct (m !! k) eqn:E; [reflexivity|].
    rewrite total_insert_fresh by done. cbn. ring. }
  clearbody m1. destruct H1 as [b Hb].
  rewrite (andb_comm (Main.is_revenue t)).
  set (m2 := if Main.is_credit t && Main.is_revenue t
             then alter (Main.add_revenue (Models.amount t)) k m1 else m1).
  assert (H2 : ∃ b, m2 !! k = Some b).
  { unfold m2. destruct (_ && _); [|by exists b].
    rewrite lookup_alter. rewrite decide_True by done. rewrite Hb. by eexists. }
  assert (Hr2 : (total Bucket.revenue m2 == total Bucket.revenue m
                 + if Main.is_credit t && Main.is_revenue t then Models.amount t else 0)%Q).
  { unfold m2. destruct (_ && _).
    - rewrite (total_alter _ _ _ _ _ Hb), Hr1. cbn. ring.
    - rewrite Hr1. ring. }
  assert (He2 : (total Bucket.expenses m2 == total Bucket.expenses m)%Q).
  { unfold m2. destruct (_ && _); [|done].
    rewrite (total_alter _ _ _ _ _ Hb), He1. cbn. ring. }
  clearbody m2. destruct H2 as [b2 Hb2].
  destruct (Main.is_debit t).
  - rewrite !(total_alter _ _ _ _ _ Hb2), Hr2, He2. cbn. split; ring.
  - rewrite Hr2, He2. split; ring.
Qed.

Lemma monthly_buckets_totals txns : ∀ m,
  (total Bucket.revenue (foldl Main.bucket_step m txns)
     == total Bucket.revenue m + Main.revenue_of txns)%Q
  ∧ (total Bucket.expenses (foldl Main.bucket_step m txns)
     == total Bucket.expenses m + Main.expenses_of txns)%Q.
Proof.
  induction txns as [|t txns IH]; intros m.
  - cbn. unfold Main.revenue_of, Main.expenses_of, Main.sum_amounts. cbn. split; ring.
  - cbn [foldl]. destruct (IH (Main.bucket_step m t)) as [Hr He].
    destruct (bucket_step_totals m t) as [Hr1 He1].
    unfold Main.revenue_of, Main.expenses_of in *.
    rewrite Hr, He, Hr1, He1, !sum_amounts_cons. unfold rev_amount, exp_amount. split; ring.
Qed.

Lemma round_half_even_Z x k : (x == inject_Z k)%Q → round_half_even x = k.
Proof.
  intros H. unfold round_half_even.
  rewrite (Qfloor_comp x (inject_Z k) H), Qfloor_Z.
  assert (E0 : (x - inject_Z k == 0)%Q) by (rewrite H; ring).
  assert (E : ((x - inject_Z k) ?= (1 # 2))%Q = Lt) by (by rewrite E0).
  by rewrite E.
Qed.


Lemma round2_cents q : cents q → (round2 q == q)%Q.
Proof.
  intros [k Hk]. unfold round2. rewrite Qred_correct.
  rewrite (round_half_even_Z (q * 100) k).
  - rewrite Hk. unfold Qeq, Qdiv, Qmult, Qinv, inject_Z. cbn. lia.
  - rewrite Hk. unfold Qeq, Qmult, inject_Z. cbn. lia.
Qed.

Lemma cents_0 : cents 0.
Proof. exists 0%Z. reflexivity. Qed.

Lemma cents_plus a b : cents a → cents b → cents (a + b).
Proof.
  intros [k Hk] [j Hj]. exists (k + j)%Z. rewrite Hk, Hj.
  unfold Qeq, Qplus. cbn. lia.
Qed.

Lemma cents_comp a b : (a == b)%Q → cents a → cents b.
Proof. intros E [k Hk]. exists k. by rewrite <- E. Qed.

Lemma cents_sumQ l : Forall cents l → cents (sumQ l).
Proof.
  induction 1 as [|x l Hx _ IH]; [apply cents_0|]. by apply cents_plus.
Qed.

Lemma sumQ_round2 {A} (fig : A → Q) (l : list A) :
  Forall (λ a, cents (fig a)) l →
  (sumQ ((λ a, round2 (fig a)) <$> l) == sumQ (fig <$> l))%Q.
Proof.
  induction 1 as [|a l Ha _ IH]; [reflexivity|].
  change (round2 (fig a) + sumQ ((λ a, round2 (fig a)) <$> l) == fig a + sumQ (fig <$> l))%Q.
  by rewrite IH, round2_cents.
Qed.


Lemma bucket_step_cents m t :
  cents (Models.amount t) →
  map_Forall (λ _, cents_bucket) m → map_Forall (λ _, cents_bucket) (Main.bucket_step m t).
Proof.
  intros Ha Hm. unfold Main.bucket_step.
  set (k := strftime_Ym (Models.txn_date t)).
  assert (Halter : ∀ f (m' : gmap string Bucket.t), (∀ b, cents_bucket b → cents_bucket (f b)) →
            map_Forall (λ _, cents_bucket) m' →
            map_Forall (λ _ : string, cents_bucket) (alter f k m')).
  { intros f m' Hf Hm' j b. rewrite lookup_alter. case_decide as E.
    - subst j. destruct (m' !! k) as [b'|] eqn:Eb; cbn; [|done].
      intros [= <-]. apply Hf. by apply (Hm' k).
    - apply Hm'. }
  assert (H1 : map_Forall (λ _, cents_bucket)
                 (match m !! k with
                  | Some _ => m
                  | None => <[k:={| Bucket.month := k; Bucket.revenue := 0;
                                    Bucket.expenses := 0; Bucket.profit_simple := 0 |}]> m
                  end)).
  { destruct (m !! k); [done|]. apply map_Forall_insert_2; [|done].
    split; apply cents_0. }
  revert H1. generalize (match m !! k with
                  | Some _ => m
                  | None => <[k:={| Bucket.month := k; Bucket.revenue := 0%Q;
                                    Bucket.expenses := 0%Q; Bucket.profit_simple := 0%Q |}]> m
                  end).
  intros m1 H1.
  assert (H2 : map_Forall (λ _, cents_bucket)
                 (if Main.is_credit t && Main.is_revenue t
                  then alter (Main.add_revenue (Models.amount t)) k m1 else m1)).
  { destruct (_ && _); [|done]. apply Halter; [|done].
    intros b [Hr He]. split; cbn; [by apply cents_plus|done]. }
  revert H2. generalize (if Main.is_credit t && Main.is_revenue t
                  then alter (Main.add_revenue (Models.amount t)) k m1 else m1).
  intros m2 H2. destruct (Main.is_debit t); [|done]. apply Halter; [|done].
  intros b [Hr He]. split; cbn; [done|by apply cents_plus].
Qed.

Lemma monthly_buckets_cents txns : ∀ m,
  Forall (λ t, cents (Models.amount t)) txns →
  map_Forall (λ _, cents_bucket) m →
  map_Forall (λ _, cents_bucket) (foldl Main.bucket_step m txns).
Proof.
  induction txns as [|t txns IH]; intros m Ht Hm; [done|].
  apply Forall_cons in Ht as [Ht Htx]. cbn [foldl]. apply IH; [done|].
  by apply bucket_step_cents.
Qed.

Lemma sum_amounts_cents p txns :
  Forall (λ t, cents (Models.amount t)) txns → cents (Main.sum_amounts p txns).
Proof.
  induction 1 as [|t txns Ht _ IH].
  - apply (cents_comp 0); [|apply cents_0]. unfold Main.sum_amounts. by rewrite py_sum_sumQ.
  - eapply cents_comp; [symmetry; apply sum_amounts_cons|].
    apply cents_plus; [|done]. destruct (p t); [done|apply cents_0].
Qed.

Lemma sorted_buckets_perm txns :
  merge_sort Main.key_le (map_to_list (Main.monthly_buckets txns))
  ≡ₚ map_to_list (Main.monthly_buckets txns).
Proof. apply merge_sort_Permutation. Qed.

Lemma monthly_unrounded_sums txns :
  (py_sum (Bucket.revenue <$> Main.monthly_unrounded txns) == Main.revenue_of txns)%Q
  ∧ (py_sum (Bucket.expenses <$> Main.monthly_unrounded txns) == Main.expenses_of txns)%Q.
Proof.
  unfold Main.monthly_unrounded. rewrite !py_sum_sumQ, <- !list_fmap_compose.
  destruct (monthly_buckets_totals txns ∅) as [Hr He].
  unfold total in Hr, He. rewrite map_to_list_empty in Hr, He. cbn [fmap list_fmap sumQ foldr] in Hr, He.
  fold (Main.monthly_buckets txns) in Hr, He.
  split.
  - rewrite (sumQ_perm _ _ (fmap_Permutation _ _ _ (sorted_buckets_perm txns))).
    etrans; [|etrans; [apply Hr|ring]]. reflexivity.
  - rewrite (sumQ_perm _ _ (fmap_Permutation _ _ _ (sorted_buckets_perm txns))).
    etrans; [|etrans; [apply He|ring]]. reflexivity.
Qed.

Lemma monthly_unrounded_cents txns :
  Forall (λ t, cents (Models.amount t)) txns →
  Forall cents_bucket (Main.monthly_unrounded txns).
Proof.
  intros Ht. unfold Main.monthly_unrounded. apply Forall_fmap.
  rewrite (sorted_buckets_perm txns).
  pose proof (monthly_buckets_cents txns ∅ Ht (map_Forall_empty _)) as Hm.
  apply map_Forall_to_list in Hm. eapply Forall_impl; [apply Hm|].
  intros [k b] H. exact H.
Qed.

Lemma kpis_monthly_sums txns :
  Forall (λ t, cents (Models.amount t)) txns →
  (py_sum (Bucket.revenue <$> Main.kpis_monthly txns) == Main.total_revenue (Main.kpis txns))%Q
  ∧ (py_sum (Bucket.expenses <$> Main.kpis_monthly txns) == Main.total_expenses (Main.kpis txns))%Q.
Proof.
  intros Ht. cbn [Main.kpis Main.total_revenue Main.total_expenses].
  rewrite !round2_cents by by apply sum_amounts_cents.
  destruct (monthly_unrounded_sums txns) as [Hr He].
  destruct txns as [|t txns].
  - cbn [Main.kpis_monthly]. unfold Main.revenue_of, Main.expenses_of, Main.sum_amounts.
    cbn. split; reflexivity.
  - cbn [Main.kpis_monthly]. rewrite <- Hr, <- He, !py_sum_sumQ, <- !list_fmap_compose.
    pose proof (monthly_unrounded_cents _ Ht) as Hc. split.
    + apply (sumQ_round2 Bucket.revenue). eapply Forall_impl; [apply Hc|]. by intros b [].
    + apply (sumQ_round2 Bucket.expenses). eapply Forall_impl; [apply Hc|]. by intros b [].
Qed.


Lemma quarters_cents q : quarters q → cents q.
Proof.
  intros (n & _ & Hn). exists (25 * n)%Z. rewrite Hn.
  unfold Qeq. cbn. lia.
Qed.

(** C4, as amended: for a batch whose amounts are whole numbers of
    quarters, not negative, that add up to [2^51] at most, the revenues of
    the emitted monthly buckets add up to the total revenue of the summary,
    and the monthly expenses to the total expenses.  On such a batch every
    sum the code forms is a number a float holds exactly, and rounding it
    to two decimals leaves it as it is; for other batches the equality can
    fail. *)
Theorem monthly_sums_reaggregate (txns : list Models.Transaction) :
  exact_batch txns →
  (py_sum (Bucket.revenue <$> Main.kpis_monthly txns)
     == Main.total_revenue (Main.kpis txns))%Q
  ∧ (py_sum (Bucket.expenses <$> Main.kpis_monthly txns)
     == Main.total_expenses (Main.kpis txns))%Q
  ∧ (Main.total_revenue (Main.kpis txns) == Main.revenue_of txns)%Q
  ∧ (Main.total_expenses (Main.kpis txns) == Main.expenses_of txns)%Q.
Proof.
  intros [Hq _].
  assert (Hc : Forall (λ t, cents (Models.amount t)) txns).
  { eapply Forall_impl; [exact Hq|]. intros t. apply quarters_cents. }
  destruct (kpis_monthly_sums txns Hc) as [Hr He].
  split_and!; [exact Hr|exact He| |];
    cbn [Main.kpis Main.total_revenue Main.total_expenses];
    apply round2_cents; by apply sum_amounts_cents.
Qed.

(** The amended C4 on [quarter_txns]: revenue 10.50 and 0.75 in two
    months, 11.25 in all. *)
Lemma monthly_sums_reaggregate_witness :
  exact_batch quarter_txns
  ∧ (py_sum (Bucket.revenue <$> Main.kpis_monthly quarter_txns)
       == Main.total_revenue (Main.kpis quarter_txns))%Q
  ∧ (Main.total_revenue (Main.kpis quarter_txns) == 1125 # 100)%Q.
Proof.
  assert (H : exact_batch quarter_txns).
  { split; [|by vm_compute].
    repeat constructor; [exists 42%Z|exists 13%Z|exists 3%Z]; by vm_compute. }
  split_and!; [exact H| |vm_compute; reflexivity].
  exact (proj1 (monthly_sums_reaggregate quarter_txns H)).
Defined.

(** C4 as stated fails: two revenues of 1/256 in two months, numbers a
    float holds exactly, are each rounded to 0 in the monthly series, while
    their sum 1/128 is rounded to 0.01 in the summary. *)
Lemma monthly_rounding_breaks_reaggregation :
  Bucket.revenue <$> Main.kpis_monthly sub_cent_txns = [0%Q; 0%Q]
  ∧ Main.total_revenue (Main.kpis sub_cent_txns) = (1 # 100)%Q
  ∧ ¬ (py_sum (Bucket.revenue <$> Main.kpis_monthly sub_cent_txns)
       == Main.total_revenue (Main.kpis sub_cent_txns))%Q.
Proof.
  split_and!; [vm_compute; reflexivity..|].
  vm_compute. discriminate.
Qed.

(** ** Health score *)

Lemma score_nonempty txns :
  txns ≠ [] →
  Main.health_score (Main.score txns)
  = score_points (cashflow_positive txns) (profit_positive txns)
      (enough_transactions txns) (has_revenue txns).
Proof.
  intros H. destruct txns as [|t txns]; [done|].
  unfold score_points, cashflow_positive, profit_positive, enough_transactions, has_revenue.
  cbn [Main.score Main.health_score]. lia.
Qed.

(** C5: for two non-empty batches, if each of the four tests of the score
    (net cashflow positive, profit positive, at least 20 transactions,
    revenue positive) that holds of the first holds of the second, the score
    of the first is at most that of the second; the score is the sum of
    30 or 10, 30 or 10, 20 or 10 and 20 or 5 points, and lies in 0..100. *)
Theorem health_score_monotone (t1 t2 : list Models.Transaction) :
  t1 ≠ [] → t2 ≠ [] →
  (cashflow_positive t1 = true → cashflow_positive t2 = true) →
  (profit_positive t1 = true → profit_positive t2 = true) →
  (enough_transactions t1 = true → enough_transactions t2 = true) →
  (has_revenue t1 = true → has_revenue t2 = true) →
  (Main.health_score (Main.score t1) ≤ Main.health_score (Main.score t2))%Z
  ∧ Main.health_score (Main.score t1)
    = score_points (cashflow_positive t1) (profit_positive t1)
        (enough_transactions t1) (has_revenue t1)
  ∧ (0 ≤ Main.health_score (Main.score t1) ≤ 100)%Z.
Proof.
  intros H1 H2 Hc Hp He Hr. rewrite !score_nonempty by done. unfold score_points.
  destruct (cashflow_positive t1), (cashflow_positive t2), (profit_positive t1),
    (profit_positive t2), (enough_transactions t1), (enough_transactions t2),
    (has_revenue t1), (has_revenue t2);
    try (specialize (Hc eq_refl)); try (specialize (Hp eq_refl));
    try (specialize (He eq_refl)); try (specialize (Hr eq_refl));
    try discriminate; split_and!; (lia || reflexivity).
Qed.


(** C5 on one debit against one revenue credit: 35 points and 90 points. *)
Lemma health_score_monotone_witness :
  let t1 := [T (Date 2024 1 5) 100 "debit" (Some "expense")] in
  let t2 := [T (Date 2024 1 5) 100 "credit" (Some "revenue")] in
  t1 ≠ [] ∧ t2 ≠ []
  ∧ (Main.health_score (Main.score t1) ≤ Main.health_score (Main.score t2))%Z
  ∧ Main.health_score (Main.score t1) = 35%Z
  ∧ Main.health_score (Main.score t2) = 90%Z.
Proof.
  intros t1 t2.
  assert (H1 : t1 ≠ []) by done. assert (H2 : t2 ≠ []) by done.
  split_and!; [done|done| |by vm_compute|by vm_compute].
  refine (proj1 (health_score_monotone t1 t2 H1 H2 _ _ _ _)); vm_compute; done.
Defined.

(** * PDF direction *)
(** ** Direction in the PDF import *)

Lemma startswith_spec p : ∀ s, Py.startswith p s = true ↔ ∃ post, s = p +:+ post.
Proof.
  induction p as [|a p IH]; intros s; cbn.
  - split; [intros _; by exists s|done].
  - destruct s as [|b s]; cbn.
    + split; [done|]. intros [post H]. discriminate.
    + rewrite andb_true_iff, IH. split.
      * intros [->%Ascii.eqb_eq [post ->]]. by exists post.
      * intros [post [= -> ->]]. split; [apply Ascii.eqb_refl|by exists post].
Qed.

Lemma contains_spec p s :
  Py.contains p s = true ↔ ∃ pre post, s = pre +:+ p +:+ post.
Proof.
  induction s as [|b s IH].
  - cbn. rewrite orb_false_r, startswith_spec. split.
    + intros [post H]. by exists "", post.
    + intros (pre & post & H). destruct pre; [by exists post|discriminate].
  - cbn [Py.contains]. rewrite orb_true_iff, startswith_spec, IH. split.
    + intros [[post H]|(pre & post & ->)].
      * by exists "", post.
      * by exists (String b pre), post.
    + intros ([|a pre] & post & H).
      * left. by exists post.
      * right. injection H as -> ->. by exists pre, post.
Qed.

Section pdf.
Context (float_number : string → option number) (float_repr : Q → string)
        (strptime : string → string → option date)
        (pd_to_datetime : string → option pydate).

Abbreviation parse_pdf_line := (Main.parse_pdf_line float_number float_repr strptime pd_to_datetime).
Abbreviation parse_pdf := (Main.parse_pdf_transactions_text float_number float_repr strptime pd_to_datetime).

Lemma pdf_line_direction line row :
  parse_pdf_line line = Some row → direction row = Main.pdf_direction line.
Proof.
  unfold Main.parse_pdf_line. destruct (negb _); [done|].
  destruct (Py.split line); [done|]. destruct (Main._parse_date_any _ _ _ _); [|done].
  destruct (last _); [|done]. destruct (Main.py_float _ _); [|done]. by intros [= <-].
Qed.

Lemma pdf_direction_spec line :
  (Main.pdf_direction line = "debit" ↔ debit_marker (Py.upper line))
  ∧ (Main.pdf_direction line = "credit" ∨ Main.pdf_direction line = "debit").
Proof.
  unfold debit_marker. set (u := Py.upper line). unfold Main.pdf_direction. fold u.
  rewrite <- !contains_spec, <- orb_true_iff.
  destruct (Py.contains " DR" u || Py.contains "DEBIT" u); (split; [split; done|auto]).
Qed.

(** C7, as amended: every row of the PDF import comes from a text line
    that was accepted as a transaction candidate, and it is a debit exactly
    when the upper-cased line holds a blank followed by "DR" (whatever
    follows) or holds "DEBIT"; otherwise it is a credit. *)
Theorem pdf_direction_rule pages row :
  row ∈ parse_pdf pages →
  ∃ line, line ∈ Main.pdf_lines pages ∧ parse_pdf_line line = Some row
    ∧ (direction row = "debit" ↔ debit_marker (Py.upper line))
    ∧ (direction row = "credit" ∨ direction row = "debit").
Proof.
  unfold Main.parse_pdf_transactions_text. intros (line & Hl & Hp)%list_elem_of_omap.
  exists line. split; [exact Hl|]. split; [exact Hp|].
  rewrite (pdf_line_direction _ _ Hp). apply pdf_direction_spec.
Qed.
End pdf.

(** The amended C7 on the line "2024-01-05 NEFT ACME DR 500.00". *)
Lemma pdf_direction_rule_witness :
  let rows := Lib.parse_pdf_transactions_text [Some "2024-01-05 NEFT ACME DR 500.00"] in
  ∃ row, row ∈ rows ∧ direction row = "debit".
Proof.
  intros rows.
  assert (H : ∃ row, rows !! 0%nat = Some row) by (eexists; vm_compute; reflexivity).
  destruct H as [row Hrow]. exists row.
  assert (Hin : row ∈ rows) by (by eapply list_elem_of_lookup_2).
  split; [exact Hin|].
  destruct (pdf_direction_rule Lib.float_number Lib.repr Lib.strptime Lib.to_datetime _ row Hin)
    as (line & Hl & _ & Hiff & _).
  assert (E : Main.pdf_lines [Some "2024-01-05 NEFT ACME DR 500.00"]
              = ["2024-01-05 NEFT ACME DR 500.00"]) by (vm_compute; reflexivity).
  rewrite E in Hl. apply list_elem_of_singleton in Hl as ->.
  apply Hiff. left. by exists "2024-01-05 NEFT ACME", " 500.00".
Defined.

(** C7 as stated fails: the line below is accepted and becomes a debit,
    though "DR" is none of its tokens and it does not hold "DEBIT"; the word
    "DRAFT" after a blank is enough. *)
Lemma pdf_direction_counterexample :
  let line := "2024-01-05 DRAFT PAYMENT 1,500.00" in
  (direction <$> Lib.parse_pdf_transactions_text [Some line]) = ["debit"]
  ∧ ("DR" ∉ Py.split (Py.upper line))
  ∧ Py.contains "DEBIT" (Py.upper line) = false.
Proof.
  intros line. split_and!.
  - vm_compute. reflexivity.
  - apply (bool_decide_unpack _). vm_compute. exact I.
  - vm_compute. reflexivity.
Qed.

(** ** The total of an invoice *)

Section invoice_total.
Import InvoiceOcr.

Lemma skip_spaces_suffix t : skip_spaces t `suffix_of` t.
Proof.
induction t as [|c t IH]; cbn; [done|].
destruct (is_space c); [by apply suffix_cons_r|done].
Qed.

Lemma opt_char_suffix cs t : opt_char cs t `suffix_of` t.
Proof.
destruct t as [|c t]; cbn; [done|]. case_bool_decide; [by apply suffix_cons_r|done].
Qed.

Lemma lit_suffix p : ∀ t t', lit p t = Some t' → t' `suffix_of` t.
Proof.
induction p as [|a p IH]; intros t t' H; cbn in H.
- by injection H as <-.
- destruct t as [|c t]; [done|]. destruct (_ =? _)%N; [|done].
  apply suffix_cons_r. by apply IH.
Qed.

Lemma fold_case_low_quote c : fold_case c = 8218%N → c = 8218%N.
Proof.
unfold fold_case. destruct (_ && _) eqn:E.
- apply andb_true_iff in E as [_ E%N.leb_le]. lia.
- destruct (c =? 194)%N; [done|done].
Qed.

Lemma amount_after_label_low_quote t g :
amount_after_label t = Some g → 8218%N ∈ t.
Proof.
unfold amount_after_label.
set (t1 := skip_spaces (opt_char [58%N; 45%N] (skip_spaces t))).
assert (Hs : t1 `suffix_of` t).
{ unfold t1. etrans; [apply skip_spaces_suffix|].
  etrans; [apply opt_char_suffix|apply skip_spaces_suffix]. }
intros H. destruct (lit [226%N; 8218%N] t1) as [t2|] eqn:E; [|done].
clear H. clearbody t1. destruct Hs as [pre ->].
apply elem_of_app. right.
destruct t1 as [|c1 [|c2 t1]]; cbn [lit] in E; try done.
- by destruct (fold_case 226 =? fold_case c1)%N.
- destruct (fold_case 226 =? fold_case c1)%N; [|done].
  destruct (fold_case 8218 =? fold_case c2)%N eqn:E2; [|done].
  apply N.eqb_eq in E2. symmetry in E2. apply fold_case_low_quote in E2 as ->.
  apply elem_of_cons. right. apply elem_of_cons. by left.
Qed.

Lemma label_then_amount_low_quote (label : text → option text) t g :
(∀ t', label t = Some t' → t' `suffix_of` t) →
label t ≫= amount_after_label = Some g → 8218%N ∈ t.
Proof.
intros Hl Hg. destruct (label t) as [t'|] eqn:E; [|done]. cbn in Hg.
destruct (Hl t' eq_refl) as [pre ->]. apply elem_of_app. right.
by eapply amount_after_label_low_quote.
Qed.

Lemma two_words_suffix w1 w2 t t' :
(lit w1 t ≫= λ t, lit w2 (skip_spaces t)) = Some t' → t' `suffix_of` t.
Proof.
destruct (lit w1 t) as [t1|] eqn:E; [|done]. cbn. intros H.
etrans; [by eapply lit_suffix|]. etrans; [apply skip_spaces_suffix|by eapply lit_suffix].
Qed.

Lemma match_total_here_low_quote t g :
match_total_here t = Some g → 8218%N ∈ t.
Proof.
unfold match_total_here, labels. cbn [fmap list_fmap first_some].
pose (l1 := λ t : text, lit grand t ≫= λ t, lit total (skip_spaces t)).
pose (l2 := λ t : text, lit total t ≫= λ t, lit amount_word (skip_spaces t)).
destruct ((lit grand t ≫= λ t, lit total (skip_spaces t)) ≫= amount_after_label)
  as [g1|] eqn:E1.
{ intros _. apply (label_then_amount_low_quote l1 t g1); [|exact E1].
  intros t'. apply two_words_suffix. }
destruct ((lit total t ≫= λ t, lit amount_word (skip_spaces t)) ≫= amount_after_label)
  as [g2|] eqn:E2.
{ intros _. apply (label_then_amount_low_quote l2 t g2); [|exact E2].
  intros t'. apply two_words_suffix. }
destruct (lit total t ≫= amount_after_label) as [g3|] eqn:E3; [|done].
intros _. apply (label_then_amount_low_quote (lit total) t g3); [|exact E3].
intros t'. apply lit_suffix.
Qed.

Lemma search_total_low_quote t : 8218%N ∉ t → search_total t = None.
Proof.
induction t as [|c t IH]; intros H.
- cbn. destruct (match_total_here []) eqn:E; [|done].
  apply match_total_here_low_quote in E. done.
- cbn [search_total]. destruct (match_total_here (c :: t)) eqn:E.
  + apply match_total_here_low_quote in E. done.
  + apply IH. intros Hin. apply H. by apply elem_of_cons; right.
Qed.

Lemma commas_to_spaces_low_quote t : 8218%N ∉ t → 8218%N ∉ commas_to_spaces t.
Proof.
intros H (c & Hc & Hin)%list_elem_of_fmap. destruct (c =? 44)%N eqn:E; [done|].
by subst c.
Qed.

(** Without the character U+201A in the text the label is never honoured. *)
Lemma total_label_needs_low_quote uni_alnum txt :
8218%N ∉ txt →
_parse_total_amount uni_alnum txt
= (λ g, decimal_value g.1 g.2) <$>
    max_by_value (findall_numbers uni_alnum false O (commas_to_spaces txt)).
Proof.
intros H. unfold _parse_total_amount.
by rewrite (search_total_low_quote _ (commas_to_spaces_low_quote _ H)).
Qed.

(** C9 on the code: in "Grand Total: 500.00 Ref 12345" the labelled total
  500.00 is passed over for the largest number of the text, and in
  "Total: 50" no total is found at all. *)
Theorem labelled_total_ignored (uni_alnum : N → bool) :
_parse_total_amount uni_alnum (codes "Grand Total: 500.00 Ref 12345") = Some 12345%Q
∧ _parse_total_amount uni_alnum (codes "Total: 50") = None.
Proof. split; vm_compute; reflexivity. Qed.

End invoice_total.


(** ** Month keys and the forecast *)

Lemma app_cons c s1 s2 : String c s1 +:+ s2 = String c (s1 +:+ s2).
Proof. reflexivity. Qed.

Lemma app_empty_l s : "" +:+ s = s.
Proof. reflexivity. Qed.

Lemma all_digits_app s1 s2 : all_digits (s1 +:+ s2) = all_digits s1 && all_digits s2.
Proof.
  induction s1 as [|c s1 IH]; [done|]. rewrite app_cons. cbn.
  by rewrite IH, andb_assoc.
Qed.

Lemma all_digits_rev_app s1 : ∀ s2,
  all_digits (String.rev_app s1 s2) = all_digits s1 && all_digits s2.
Proof.
  induction s1 as [|c s1 IH]; intros s2; cbn; [done|].
  rewrite IH. cbn. by destruct (Py.is_digit c), (all_digits s1), (all_digits s2).
Qed.

Lemma rev_app_rev_app s1 : ∀ s2 s3,
  String.rev_app (String.rev_app s1 s2) s3 = String.rev_app s2 (s1 +:+ s3).
Proof.
  induction s1 as [|c s1 IH]; intros s2 s3; [done|].
  rewrite app_cons. cbn. by rewrite IH.
Qed.

Lemma append_empty_r s : s +:+ "" = s.
Proof. induction s as [|c s IH]; [done|]. by rewrite app_cons, IH. Qed.

Lemma rev_involutive s : String.rev (String.rev s) = s.
Proof. unfold String.rev. rewrite rev_app_rev_app. cbn [String.rev_app]. apply append_empty_r. Qed.

Lemma digit_not_space c : Py.is_digit c = true → Py.is_space c = false.
Proof. destruct c as [[] [] [] [] [] [] [] []]; cbn; done. Qed.

Lemma lstrip_digits s : all_digits s = true → Py.lstrip s = s.
Proof.
  destruct s as [|c s]; [done|]. cbn. intros [Hc _]%andb_true_iff.
  by rewrite (digit_not_space c Hc).
Qed.

Lemma strip_digits s : all_digits s = true → Py.strip s = s.
Proof.
  intros H. unfold Py.strip, Py.rstrip. rewrite (lstrip_digits s H).
  rewrite lstrip_digits; [apply rev_involutive|].
  unfold String.rev. by rewrite all_digits_rev_app, H.
Qed.

Lemma all_digits_string_of_uint d : all_digits (NilEmpty.string_of_uint d) = true.
Proof. induction d; cbn; done. Qed.

Lemma all_digits_str_N n : all_digits (Py.str_N n) = true.
Proof.
  unfold Py.str_N, NilZero.string_of_uint.
  destruct (N.to_uint n); try apply (all_digits_string_of_uint (_ _)); done.
Qed.

Lemma all_digits_zeros k : all_digits (Py.zeros k) = true.
Proof. induction k; cbn; done. Qed.

Lemma all_digits_zfill w s : all_digits s = true → all_digits (Py.zfill w s) = true.
Proof. intros H. unfold Py.zfill. by rewrite all_digits_app, all_digits_zeros, H. Qed.

Lemma str_N_nonempty n : Py.str_N n ≠ "".
Proof.
  unfold Py.str_N, NilZero.string_of_uint. destruct (N.to_uint n); cbn; done.
Qed.

Lemma int_digits_str_N n : Py.int_digits (Py.str_N n) = Some (Z.of_N n).
Proof.
  unfold Py.int_digits, Py.str_N.
  destruct (N.to_uint n) as [| | | | | | | | | |] eqn:E.
  1: { cbn. f_equal. rewrite <- (Unsigned.of_to n), E. done. }
  all: rewrite NilZero.usu by done; cbn [fmap option_fmap option_map];
       by rewrite <- E, Unsigned.of_to.
Qed.

Lemma int_digits_zeros k s :
  s ≠ "" → Py.int_digits (Py.zeros k +:+ s) = Py.int_digits s.
Proof.
  intros Hs. induction k as [|k IH]; [done|].
  change (Py.zeros (S k) +:+ s) with (String "0" (Py.zeros k +:+ s)).
  unfold Py.int_digits in *. 
  assert (Hne : Py.zeros k +:+ s ≠ "") by (destruct k; [done|cbn [Py.zeros]; by rewrite app_cons]).
  unfold NilZero.uint_of_string at 1. cbn [NilEmpty.uint_of_string].
  assert (E : NilEmpty.uint_of_string (Py.zeros k +:+ s) = NilZero.uint_of_string (Py.zeros k +:+ s)).
  { unfold NilZero.uint_of_string. destruct (Py.zeros k +:+ s); done. }
  rewrite E, <- IH. destruct (NilZero.uint_of_string _); cbn; done.
Qed.

Lemma digit_not_sign c s (P : string → option Z) :
  Py.is_digit c = true →
  match String c s with
  | String "-" s' => Z.opp <$> P s'
  | String "+" s' => P s'
  | s' => P s'
  end = P (String c s).
Proof. destruct c as [[] [] [] [] [] [] [] []]; cbn; done. Qed.

Lemma int_format_d w n : (0 ≤ n)%Z → Py.int (Py.format_d w n) = Some n.
Proof.
  intros Hn. unfold Py.format_d. rewrite (proj2 (Z.ltb_ge n 0) Hn).
  unfold Py.int. rewrite strip_digits by apply all_digits_zfill, all_digits_str_N.
  pose proof (all_digits_zfill w _ (all_digits_str_N (Z.to_N n))) as Hd.
  assert (E : Py.int_digits (Py.zfill w (Py.str_N (Z.to_N n))) = Some n).
  { unfold Py.zfill. rewrite int_digits_zeros by apply str_N_nonempty.
    rewrite int_digits_str_N. f_equal. lia. }
  destruct (Py.zfill w (Py.str_N (Z.to_N n))) as [|c s] eqn:Es.
  - cbn in E. discriminate.
  - cbn in Hd. apply andb_true_iff in Hd as [Hc _].
    by rewrite (digit_not_sign c s Py.int_digits Hc).
Qed.

Lemma digit_not_dash c : Py.is_digit c = true → Ascii.eqb c "-" = false.
Proof. destruct c as [[] [] [] [] [] [] [] []]; cbn; done. Qed.

Lemma split_on_go_digits a : ∀ cur rest,
  all_digits a = true →
  Py.split_on_go "-" cur (a +:+ rest) = Py.split_on_go "-" (String.rev_app a cur) rest.
Proof.
  induction a as [|c a IH]; intros cur rest H; [done|].
  cbn in H. apply andb_true_iff in H as [Hc Ha].
  rewrite app_cons. cbn [Py.split_on_go String.rev_app]. rewrite (digit_not_dash c Hc). by apply IH.
Qed.

Lemma split_year_month a b :
  all_digits a = true → all_digits b = true →
  Py.split_on "-" (a +:+ "-" +:+ b) = [a; b].
Proof.
  intros Ha Hb. unfold Py.split_on. rewrite split_on_go_digits by done.
  rewrite app_cons, app_empty_l. cbn [Py.split_on_go].
  rewrite Ascii.eqb_refl.
  rewrite <- (append_empty_r b) at 1. rewrite split_on_go_digits by done.
  cbn [Py.split_on_go]. fold (String.rev a). fold (String.rev b).
  fold (String.rev (String.rev a)). fold (String.rev (String.rev b)).
  by rewrite !rev_involutive.
Qed.

Lemma all_digits_format_d w n : (0 ≤ n)%Z → all_digits (Py.format_d w n) = true.
Proof.
  intros Hn. unfold Py.format_d. rewrite (proj2 (Z.ltb_ge n 0) Hn).
  apply all_digits_zfill, all_digits_str_N.
Qed.

(** calendar arithmetic on the keys *)
Lemma add_months_ym_spec y m i :
  (0 ≤ y)%Z → (1 ≤ m ≤ 12)%Z → (0 ≤ i)%Z →
  Main._add_months_ym (strftime_Ym (Date y m 1)) i
  = Ok (Py.format_d 4 (y + (m - 1 + i) `div` 12)
        +:+ "-" +:+ Py.format_d 2 ((m - 1 + i) `mod` 12 + 1)).
Proof.
  intros Hy Hm Hi. unfold Main._add_months_ym, strftime_Ym. cbn [year month].
  rewrite split_year_month by (apply all_digits_format_d; lia).
  rewrite !int_format_d by lia.
  replace (y * 12 + (m - 1) + i)%Z with ((m - 1 + i) + y * 12)%Z by lia.
  rewrite Z.div_add, Z.mod_add by lia.
  do 3 f_equal. lia.
Qed.


Lemma strftime_Ym_key d : strftime_Ym d = ym_key (year d) (month d).
Proof. reflexivity. Qed.

Lemma apply_series_map {A B} (f : A → result B) (g : A → B) l :
  (∀ x, x ∈ l → f x = Ok (g x)) → apply_series f l = Ok (g <$> l).
Proof.
  induction l as [|x l IH]; intros H; [done|].
  cbn [apply_series]. rewrite (H x) by (apply elem_of_cons; by left).
  rewrite IH by (intros; apply H, elem_of_cons; by right). done.
Qed.


(** C8: for a monthly series that ends in the month [m] of the year [y] and
    a horizon of [n >= 1] months, the forecast is the list, for [i] from 1 to
    [n], of the month [i] months after the last one (12 months to a year),
    each with the rounded average revenue and the rounded average profit of
    the trailing buckets, which are the last three or all when there are
    fewer. *)
Theorem forecast_flat_average (monthly : list Bucket.t) (last_bucket : Bucket.t)
    (y m n : Z) :
  last monthly = Some last_bucket →
  Bucket.month last_bucket = ym_key y m →
  (0 ≤ y)%Z → (1 ≤ m ≤ 12)%Z → (1 ≤ n)%Z →
  Main.forecast_of monthly n
  = Ok (Main.Projection
          ((λ i, {| Forecast.month := ym_key (y + (m - 1 + i) `div` 12)
                                             ((m - 1 + i) `mod` 12 + 1);
                    Forecast.forecast_revenue :=
                      round2 (average Bucket.revenue (trailing3 monthly));
                    Forecast.forecast_net_cashflow :=
                      round2 (average Bucket.profit_simple (trailing3 monthly)) |})
             <$> seqZ 1 n)
          (Bucket.month <$> trailing3 monthly))
  ∧ length (trailing3 monthly) = (length monthly `min` 3)%nat
  ∧ (0 < length (trailing3 monthly))%nat.
Proof.
  intros Hlast Hkey Hy Hm Hn. split_and!.
  - unfold Main.forecast_of. rewrite Hlast.
    assert (E : (if (3 <=? length monthly)%nat
                 then drop (length monthly - 3) monthly else monthly) = trailing3 monthly).
    { unfold trailing3. destruct (3 <=? length monthly)%nat eqn:E; [done|].
      apply Nat.leb_gt in E. by replace (length monthly - 3)%nat with 0%nat by lia. }
    rewrite E, Hkey.
    rewrite (apply_series_map _
      (λ i, {| Forecast.month := ym_key (y + (m - 1 + i) `div` 12) ((m - 1 + i) `mod` 12 + 1);
               Forecast.forecast_revenue := round2 (average Bucket.revenue (trailing3 monthly));
               Forecast.forecast_net_cashflow :=
                 round2 (average Bucket.profit_simple (trailing3 monthly)) |})).
    + reflexivity.
    + intros i Hi%elem_of_seqZ.
      change (ym_key y m) with (strftime_Ym (Date y m 1)).
      rewrite add_months_ym_spec by lia. reflexivity.
  - unfold trailing3. rewrite length_drop. lia.
  - unfold trailing3. rewrite length_drop.
    destruct monthly; [discriminate|]. cbn [length]. lia.
Qed.


(** C8 on the series of the specification: 2024-01 to 2024-03 with
    revenue 1000, 1200, 800 and profit 200, 300, 100, two months ahead. *)
Lemma forecast_flat_average_witness :
  let monthly := [B "2024-01" 1000 800 200; B "2024-02" 1200 900 300; B "2024-03" 800 700 100] in
  last monthly = Some (B "2024-03" 800 700 100)
  ∧ Main.forecast_of monthly 2
    = Ok (Main.Projection
            [ {| Forecast.month := "2024-04"; Forecast.forecast_revenue := 1000;
                 Forecast.forecast_net_cashflow := 200 |};
              {| Forecast.month := "2024-05"; Forecast.forecast_revenue := 1000;
                 Forecast.forecast_net_cashflow := 200 |} ]
            ["2024-01"; "2024-02"; "2024-03"]).
Proof.
  intros monthly. split; [reflexivity|].
  assert (H : Main.forecast_of monthly 2 = _) by
    exact (proj1 (forecast_flat_average monthly (B "2024-03" 800 700 100) 2024 3 2
             eq_refl eq_refl ltac:(lia) ltac:(lia) ltac:(lia))).
  rewrite H. vm_compute. reflexivity.
Defined.

Lemma forecast_year_rollover :
  Main.forecast_of [B "2024-11" 100 0 100] 3
  = Ok (Main.Projection
          [ {| Forecast.month := "2024-12"; Forecast.forecast_revenue := 100;
               Forecast.forecast_net_cashflow := 100 |};
            {| Forecast.month := "2025-01"; Forecast.forecast_revenue := 100;
               Forecast.forecast_net_cashflow := 100 |};
            {| Forecast.month := "2025-02"; Forecast.forecast_revenue := 100;
               Forecast.forecast_net_cashflow := 100 |} ]
          ["2024-11"]).
Proof. vm_compute. reflexivity. Qed.

(** * Further properties of the code *)

Lemma pick_None cols names :
  Main.pick (Main.cols_dict cols) names = None
  ↔ ∀ c, c ∈ cols → norm_header c ∉ names.
Proof.
  rewrite main_cols_dict. induction names as [|n names IH]; cbn [Main.pick].
  - split; [|done]. intros _ c _ H. by apply elem_of_nil in H.
  - destruct (dict_from norm_header ∅ cols !! n) as [c|] eqn:E.
    + split; [done|]. intros H. apply dict_from_Some in E as [[Hc Hn]|E];
        [|by rewrite lookup_empty in E].
      exfalso. apply (H c Hc). apply elem_of_cons. by left.
    + pose proof (proj1 (dict_from_None _ _ _) E) as Hn. destruct IH as [IH1 IH2]. split.
      * intros H c Hc [Heq|Hin]%elem_of_cons; [by apply (Hn c Hc)|by apply (IH1 H c)].
      * intros H. apply IH2. intros c Hc Hin. apply (H c Hc). apply elem_of_cons. by right.
Qed.

Lemma pick_Some_norm cols names c :
  Main.pick (Main.cols_dict cols) names = Some c → c ∈ cols ∧ norm_header c ∈ names.
Proof.
  rewrite main_cols_dict. induction names as [|n names IH]; cbn [Main.pick]; [done|].
  destruct (dict_from norm_header ∅ cols !! n) as [c'|] eqn:E.
  - intros [= ->]. apply dict_from_Some in E as [[Hc Hn]|E]; [|by rewrite lookup_empty in E].
    split; [done|]. apply elem_of_cons. by left.
  - intros H. destruct (IH H) as [? ?]. split; [done|]. apply elem_of_cons. by right.
Qed.

Lemma pick_truthy cols names :
  "" ∉ names →
  truthy (Main.pick (Main.cols_dict cols) names) = false
  ↔ ∀ c, c ∈ cols → norm_header c ∉ names.
Proof.
  intros Hne. rewrite <- pick_None.
  destruct (Main.pick (Main.cols_dict cols) names) as [c|] eqn:E; [|done].
  split; [|done]. destruct c as [|a c]; [|done]. intros _.
  apply pick_Some_norm in E as [_ E]. done.
Qed.

(** ** Tabular normalisation: required columns, the shape of a row *)

Section required_columns.
Context (float_number : string → option number) (float_repr : Q → string)
        (strptime : string → string → option date)
        (pd_to_datetime : string → option pydate).
Abbreviation normalize := (Main.normalize_transactions float_number float_repr strptime pd_to_datetime).

(** X1: [normalize_transactions] of [main.py] returns no row for a frame
    without rows, whatever its headers; on a frame with rows it fails with
    the 400 error on the required columns exactly when no header reads,
    trimmed and in lower case, as one of date, txn_date, transaction_date,
    value_date, or none as one of amount, amt, value, transaction_amount. *)
Theorem missing_required_column df :
  (df_empty df = true → normalize df = Ok [])
  ∧ (normalize df = Err missing_columns_error
     ↔ df_empty df = false
       ∧ (no_header_among df main_date_names ∨ no_header_among df main_amount_names)).
Proof.
  split.
  { intros He. unfold Main.normalize_transactions. by rewrite He. }
  unfold no_header_among.
  assert (Hd : "" ∉ main_date_names) by (apply (bool_decide_unpack _); vm_compute; exact I).
  assert (Ha : "" ∉ main_amount_names) by (apply (bool_decide_unpack _); vm_compute; exact I).
  rewrite <- (pick_truthy (columns df) main_date_names Hd).
  rewrite <- (pick_truthy (columns df) main_amount_names Ha).
  unfold Main.normalize_transactions.
  change (Main.c_date (Main.detect_columns df))
    with (Main.pick (Main.cols_dict (columns df)) main_date_names).
  change (Main.c_amt (Main.detect_columns df))
    with (Main.pick (Main.cols_dict (columns df)) main_amount_names).
  destruct (df_empty df); [split; [done|by intros [? _]]|].
  destruct (truthy (Main.pick _ main_date_names)), (truthy (Main.pick _ main_amount_names));
    cbn [negb orb]; try (split; [auto|done]).
  split; [|by intros [_ [?|?]]].
  intros H. exfalso.
  destruct (apply_series _ _) as [ds|e] eqn:E; [discriminate|].
  cbn in H. injection H as ->.
  apply apply_series_first_Err in E as (i & x & _ & Hx & _).
  apply parse_date_Err in Hx as [Hx _]. discriminate Hx.
Qed.
End required_columns.

(** X1 on a frame with one row whose headers are "when" and "amount". *)
Lemma missing_required_column_witness :
  df_empty undated_frame = false
  ∧ no_header_among undated_frame main_date_names
  ∧ Lib.normalize_transactions undated_frame = Err missing_columns_error.
Proof.
  assert (H1 : df_empty undated_frame = false) by reflexivity.
  assert (H2 : no_header_among undated_frame main_date_names).
  { assert (HF : Forall (λ c, norm_header c ∉ main_date_names) (columns undated_frame))
      by (apply (bool_decide_unpack _); vm_compute; exact I).
    intros c Hc. eapply Forall_forall in HF; [exact HF|exact Hc]. }
  split_and!; [exact H1|exact H2|].
  apply (proj2 (proj2 (missing_required_column Lib.float_number Lib.repr Lib.strptime
                         Lib.to_datetime undated_frame))).
  split; [exact H1|left; exact H2].
Defined.

Lemma slice_to_length n : ∀ s, (String.length (Py.slice_to n s) ≤ n)%nat.
Proof.
  induction n as [|n IH]; intros s; [destruct s; cbn; lia|].
  destruct s as [|c s]; cbn; [lia|]. specialize (IH s). lia.
Qed.

Lemma normalize_direction_credit v :
  Main._normalize_direction v = "credit" ↔ Py.lower (Py.strip v) ∈ credit_tokens.
Proof.
  unfold Main._normalize_direction. fold credit_tokens.
  case_bool_decide as H; [done|]. split; [|done]. by repeat case_bool_decide.
Qed.

Lemma is_space_upper c : Py.is_space (Py.upper_char c) = Py.is_space c.
Proof. destruct c as [[] [] [] [] [] [] [] []]; reflexivity. Qed.

Lemma lower_upper_char c : Py.lower_char (Py.upper_char c) = Py.lower_char c.
Proof. destruct c as [[] [] [] [] [] [] [] []]; reflexivity. Qed.

Lemma lower_upper s : Py.lower (Py.upper s) = Py.lower s.
Proof.
  induction s as [|a s IH]; [done|].
  change (String (Py.lower_char (Py.upper_char a)) (Py.lower (Py.upper s))
          = String (Py.lower_char a) (Py.lower s)).
  by rewrite lower_upper_char, IH.
Qed.

Lemma upper_rev s : Py.upper (String.rev s) = String.rev (Py.upper s).
Proof. apply smap_rev_app. Qed.

Lemma lstrip_upper s : Py.lstrip (Py.upper s) = Py.upper (Py.lstrip s).
Proof.
  induction s as [|a s IH]; [done|]. cbn. rewrite is_space_upper.
  destruct (Py.is_space a); [done|reflexivity].
Qed.

Lemma strip_upper s : Py.strip (Py.upper s) = Py.upper (Py.strip s).
Proof.
  unfold Py.strip, Py.rstrip. by rewrite lstrip_upper, <- upper_rev, lstrip_upper, upper_rev.
Qed.

(** X2: [_normalize_direction] answers "credit" exactly for the texts that,
    trimmed and in lower case, are one of credit, cr, c, in, inflow, income,
    and "debit" for every other text, known or not; it does not look at the
    case of the letters, and applying it twice changes nothing. *)
Theorem direction_tokens (v : string) :
  (Main._normalize_direction v = "credit" ↔ Py.lower (Py.strip v) ∈ credit_tokens)
  ∧ (Main._normalize_direction v = "debit" ↔ Py.lower (Py.strip v) ∉ credit_tokens)
  ∧ Main._normalize_direction (Py.upper v) = Main._normalize_direction v
  ∧ Main._normalize_direction (Main._normalize_direction v) = Main._normalize_direction v.
Proof.
  split_and!.
  - apply normalize_direction_credit.
  - rewrite <- normalize_direction_credit.
    destruct (normalize_direction_values v) as [-> | ->]; split; done.
  - unfold Main._normalize_direction. by rewrite strip_upper, lower_upper.
  - destruct (normalize_direction_values v) as [-> | ->]; by vm_compute.
Qed.

Section row_schema.
Context (float_number : string → option number) (float_repr : Q → string)
        (strptime : string → string → option date)
        (pd_to_datetime : string → option pydate).
Abbreviation normalize := (Main.normalize_transactions float_number float_repr strptime pd_to_datetime).

Lemma normalize_row_description df out i t :
  normalize df = Ok out → out !! i = Some t →
  Main.description_column float_repr df (Main.detect_columns df) !! i = Some (description t).
Proof.
  intros H Hi. destruct (df_empty df) eqn:He.
  - apply normalize_empty in H; [|done]. subst out. by rewrite lookup_nil in Hi.
  - destruct (normalize_Ok_inv _ _ _ _ df out He H) as (_ & _ & dates & _ & ->).
    apply frame_rows_lookup in Hi. tauto.
Qed.

(** X3: every row [normalize_transactions] of [main.py] produces has an
    amount that is never negative: it is [>= 0], or it is NaN, which it is
    exactly when the amount cell of the row is there and its text is a
    spelling of NaN that [float] takes; the row has the direction "credit"
    or "debit", a description of at most 255 characters and a category of
    at most 64. *)
Theorem normalized_row_schema df out i t :
  normalize df = Ok out → out !! i = Some t →
  (nonneg (amount t) ∨ amount t = NaN)
  ∧ (amount t = NaN
     ↔ ∃ x, Main.column df (Main.c_amt (Main.detect_columns df)) !! i = Some x
            ∧ nan_amount float_repr x)
  ∧ (direction t = "credit" ∨ direction t = "debit")
  ∧ (String.length (description t) ≤ 255)%nat
  ∧ (String.length (category t) ≤ 64)%nat.
Proof.
  intros H Hi.
  destruct (normalize_row _ _ _ _ df out i t H Hi) as (Hd & Hc & Ha).
  pose proof (normalize_row_description df out i t H Hi) as Hde.
  destruct (normalize_row_amount _ _ _ _ df out i t H Hi) as (x & Hxa & Hax).
  split_and!.
  - rewrite Hax. destruct (Main._safe_float float_number float_repr x) as [q|b|] eqn:E;
      [left|left|by right]; by apply fabs_nonneg.
  - rewrite Hax, fabs_NaN, safe_float_NaN. split.
    + intros Hn. by exists x.
    + intros (x' & Hx' & Hn). rewrite Hxa in Hx'. by injection Hx' as <-.
  - unfold Main.direction_column in Hd.
    apply list_lookup_fmap_Some in Hd as (d & Hd & E). rewrite Hd.
    destruct (detected_direction_values _ _ _ _ _ _ E) as [-> | ->]; [by left|by right].
  - unfold Main.description_column in Hde.
    apply list_lookup_fmap_Some in Hde as (d & Hx & _). rewrite Hx. apply slice_to_length.
  - unfold Main.category_column in Hc.
    apply list_lookup_fmap_Some in Hc as (d & Hx & _). rewrite Hx. apply slice_to_length.
Qed.

(** X4: when the frame has a direction column, the direction of a row is
    [_normalize_direction] of the text of its direction cell, whatever the
    sign of its amount, and the amount is the absolute value of
    [_safe_float] of its amount cell. *)
Theorem explicit_direction_overrides_sign df out i t :
  truthy (Main.c_dir (Main.detect_columns df)) = true →
  normalize df = Ok out → out !! i = Some t →
  ∃ xd xa,
    Main.column df (Main.c_dir (Main.detect_columns df)) !! i = Some xd
    ∧ Main.column df (Main.c_amt (Main.detect_columns df)) !! i = Some xa
    ∧ direction t = Main._normalize_direction (str_of_cell float_repr xd)
    ∧ amount t = fabs (Main._safe_float float_number float_repr xa).
Proof.
  intros Hdir H Hi.
  destruct (normalize_row _ _ _ _ df out i t H Hi) as (Hd & _ & Ha).
  unfold Main.direction_column, Main.detected_direction in Hd.
  unfold Main.amount_column in Ha. rewrite Hdir in Hd, Ha.
  apply list_lookup_fmap_Some in Hd as (d & Ed & Hd).
  apply list_lookup_fmap_Some in Hd as (xd & Exd & Hd). subst d.
  apply list_lookup_fmap_Some in Ha as (xa & Ea & Ha).
  exists xd, xa. split_and!; [done|done| |done].
  rewrite Ed. unfold Main.str_cell.
  destruct (normalize_direction_values (str_of_cell float_repr xd)) as [-> | ->]; by vm_compute.
Qed.

End row_schema.

(** X3 on the second row of [signed_frame]. *)
Lemma normalized_row_schema_witness :
  let out := rows_of (Lib.normalize_transactions signed_frame) in
  Lib.normalize_transactions signed_frame = Ok out
  ∧ ∃ t, out !! 1%nat = Some t
         ∧ (nonneg (amount t) ∨ amount t = NaN)
         ∧ (direction t = "credit" ∨ direction t = "debit")
         ∧ (String.length (description t) ≤ 255)%nat
         ∧ (String.length (category t) ≤ 64)%nat.
Proof.
  intros out.
  assert (H1 : Lib.normalize_transactions signed_frame = Ok out) by (vm_compute; reflexivity).
  assert (H2 : ∃ t, out !! 1%nat = Some t) by (eexists; vm_compute; reflexivity).
  split; [exact H1|]. destruct H2 as [t Ht]. exists t. split; [exact Ht|].
  destruct (normalized_row_schema Lib.float_number Lib.repr Lib.strptime Lib.to_datetime
              signed_frame out 1%nat t H1 Ht) as (Ha & _ & Hrest).
  exact (conj Ha Hrest).
Defined.

(** X4 on the first row of [directed_frame]: the amount -500 with the
    direction " CR " is a credit of 500. *)
Lemma explicit_direction_overrides_sign_witness :
  let out := rows_of (Lib.normalize_transactions directed_frame) in
  truthy (Main.c_dir (Main.detect_columns directed_frame)) = true
  ∧ Lib.normalize_transactions directed_frame = Ok out
  ∧ ∃ t, out !! 0%nat = Some t ∧ direction t = "credit" ∧ same_float (amount t) (Finite 500).
Proof.
  intros out.
  assert (H1 : truthy (Main.c_dir (Main.detect_columns directed_frame)) = true)
    by (vm_compute; reflexivity).
  assert (H2 : Lib.normalize_transactions directed_frame = Ok out) by (vm_compute; reflexivity).
  assert (H3 : ∃ t, out !! 0%nat = Some t) by (eexists; vm_compute; reflexivity).
  split_and!; [exact H1|exact H2|].
  destruct H3 as [t Ht]. exists t. split; [exact Ht|].
  destruct (explicit_direction_overrides_sign Lib.float_number Lib.repr Lib.strptime Lib.to_datetime
              directed_frame out 0%nat t H1 H2 Ht) as (xd & xa & Hxd & Hxa & Hd & Ha).
  vm_compute in Hxd. injection Hxd as <-. vm_compute in Hxa. injection Hxa as <-.
  split; [rewrite Hd; vm_compute; reflexivity|rewrite Ha; vm_compute; reflexivity].
Defined.

(** ** KPIs, score, risks and recommendations *)

Lemma gt0_spec x : Main.gt0 x = true ↔ (0 < x)%Q.
Proof.
  unfold Main.gt0. rewrite negb_true_iff. split.
  - intros H. apply Qnot_le_lt. intros Hle. apply Qle_bool_iff in Hle. congruence.
  - intros H. apply not_true_is_false. intros Hle%Qle_bool_iff. by apply Qlt_not_le in H.
Qed.

Lemma Qgt_bool_spec x y : Main.Qgt_bool x y = true ↔ (y < x)%Q.
Proof.
  unfold Main.Qgt_bool. rewrite negb_true_iff. split.
  - intros H. apply Qnot_le_lt. intros Hle. apply Qle_bool_iff in Hle. congruence.
  - intros H. apply not_true_is_false. intros Hle%Qle_bool_iff. by apply Qlt_not_le in H.
Qed.

Lemma lt0_spec x : Main.lt0 x = true ↔ (x < 0)%Q.
Proof. apply (Qgt_bool_spec 0 x). Qed.

Lemma sum_amounts_nonneg p txns :
  nonneg_amounts txns → (0 <= Main.sum_amounts p txns)%Q.
Proof.
  induction 1 as [|t txns Ht _ IH].
  - unfold Main.sum_amounts. cbn. lra.
  - rewrite sum_amounts_cons. destruct (p t); lra.
Qed.

Lemma sum_amounts_mono p q txns :
  (∀ t, p t = true → q t = true) → nonneg_amounts txns →
  (Main.sum_amounts p txns <= Main.sum_amounts q txns)%Q.
Proof.
  intros Hpq. induction 1 as [|t txns Ht _ IH].
  - unfold Main.sum_amounts. cbn. lra.
  - rewrite !sum_amounts_cons. specialize (Hpq t).
    destruct (p t), (q t); first [lra | by specialize (Hpq eq_refl)].
Qed.

Lemma revenue_le_inflow txns :
  nonneg_amounts txns → (Main.revenue_of txns <= Main.inflow_of txns)%Q.
Proof.
  apply sum_amounts_mono. intros t H. by apply andb_true_iff in H as [_ H].
Qed.

Lemma round_half_even_mono x y :
  (x <= y)%Q → (round_half_even x ≤ round_half_even y)%Z.
Proof.
  intros H. pose proof (Qfloor_resp_le x y H) as Hf. unfold round_half_even.
  destruct (decide (Qfloor x = Qfloor y)) as [E|E].
  - rewrite E. generalize (Qfloor y). intros f.
    destruct (x - inject_Z f ?= 1 # 2)%Q eqn:Ex, (y - inject_Z f ?= 1 # 2)%Q eqn:Ey;
      try (destruct (Z.even f); lia);
      first [apply Qeq_alt in Ex|apply Qlt_alt in Ex|apply Qgt_alt in Ex];
      first [apply Qeq_alt in Ey|apply Qlt_alt in Ey|apply Qgt_alt in Ey];
      exfalso; revert H Ex Ey; generalize (inject_Z f); intros z ???; lra.
  - destruct (x - inject_Z (Qfloor x) ?= 1 # 2)%Q, (y - inject_Z (Qfloor y) ?= 1 # 2)%Q;
      repeat destruct (Z.even _); lia.
Qed.

Lemma round2_mono x y : (x <= y)%Q → (round2 x <= round2 y)%Q.
Proof.
  intros H. unfold round2. rewrite !Qred_correct.
  assert (H' : (x * 100 <= y * 100)%Q) by lra.
  apply round_half_even_mono in H'. revert H'.
  generalize (round_half_even (x * 100)), (round_half_even (y * 100)). intros a b Hab.
  unfold Qle, Qdiv, Qmult, Qinv, inject_Z. cbn. lia.
Qed.

(** X5: for stored amounts that are not negative, the figures [kpis]
    reports keep their order after rounding: the revenue is at most the
    inflow, the simple profit at most the net cashflow, neither the revenue
    nor the outflow is negative, and the expenses are the outflow. *)
Theorem reported_profit_le_cashflow txns :
  nonneg_amounts txns →
  (Main.total_revenue (Main.kpis txns) <= Main.total_inflow (Main.kpis txns))%Q
  ∧ (Main.net_profit_simple (Main.kpis txns) <= Main.net_cashflow (Main.kpis txns))%Q
  ∧ (0 <= Main.total_revenue (Main.kpis txns))%Q
  ∧ (0 <= Main.total_outflow (Main.kpis txns))%Q
  ∧ Main.total_expenses (Main.kpis txns) = Main.total_outflow (Main.kpis txns).
Proof.
  intros H. pose proof (revenue_le_inflow txns H) as Hr.
  cbn [Main.kpis Main.total_revenue Main.total_inflow Main.net_profit_simple
       Main.net_cashflow Main.total_outflow Main.total_expenses].
  split_and!.
  - by apply round2_mono.
  - apply round2_mono. unfold Main.expenses_of, Main.outflow_of. lra.
  - change 0%Q with (round2 0). apply round2_mono. by apply sum_amounts_nonneg.
  - change 0%Q with (round2 0). apply round2_mono. by apply sum_amounts_nonneg.
  - reflexivity.
Qed.

(** X5 on [cent_txns]. *)
Lemma reported_profit_le_cashflow_witness :
  nonneg_amounts cent_txns
  ∧ (Main.total_revenue (Main.kpis cent_txns) <= Main.total_inflow (Main.kpis cent_txns))%Q
  ∧ (Main.net_profit_simple (Main.kpis cent_txns) <= Main.net_cashflow (Main.kpis cent_txns))%Q.
Proof.
  assert (H : nonneg_amounts cent_txns) by (repeat constructor; by vm_compute).
  destruct (reported_profit_le_cashflow cent_txns H) as (H1 & H2 & _).
  split_and!; [exact H|exact H1|exact H2].
Defined.

Lemma rating_nonempty txns :
  txns ≠ [] →
  Main.rating (Main.score txns)
  = Main.rating_of (score_points (cashflow_positive txns) (profit_positive txns)
      (enough_transactions txns) (has_revenue txns)).
Proof.
  intros H. destruct txns as [|t txns]; [done|].
  unfold score_points, cashflow_positive, profit_positive, enough_transactions, has_revenue.
  cbn [Main.score Main.rating]. f_equal.
Qed.

(** X6: for a business with transactions, the rating of [score] depends
    only on how many of its four tests pass: none gives "Poor", one
    "Average", two "Good", three or four "Excellent"; and the score lies
    between 35 and 100. *)
Theorem rating_counts_tests_passed txns :
  txns ≠ [] →
  Main.rating (Main.score txns)
  = match tests_passed txns with
    | 0 => "Poor" | 1 => "Average" | 2 => "Good" | _ => "Excellent"
    end%nat
  ∧ (35 ≤ Main.health_score (Main.score txns) ≤ 100)%Z.
Proof.
  intros H. rewrite rating_nonempty, score_nonempty by done. unfold tests_passed.
  destruct (cashflow_positive txns), (profit_positive txns),
    (enough_transactions txns), (has_revenue txns); by vm_compute.
Qed.

(** X6 on [cent_txns], which pass three of the four tests. *)
Lemma rating_counts_tests_passed_witness :
  cent_txns ≠ [] ∧ tests_passed cent_txns = 3%nat
  ∧ Main.rating (Main.score cent_txns) = "Excellent".
Proof.
  assert (H1 : cent_txns ≠ []) by discriminate.
  assert (H2 : tests_passed cent_txns = 3%nat) by (vm_compute; reflexivity).
  split_and!; [exact H1|exact H2|].
  destruct (rating_counts_tests_passed cent_txns H1) as [Hr _].
  rewrite H2 in Hr. exact Hr.
Defined.

Lemma profit_positive_tests txns :
  nonneg_amounts txns → profit_positive txns = true →
  txns ≠ [] ∧ cashflow_positive txns = true ∧ has_revenue txns = true.
Proof.
  intros Hn Hp. unfold profit_positive, cashflow_positive, has_revenue in *.
  apply gt0_spec in Hp.
  pose proof (revenue_le_inflow txns Hn) as Hr.
  pose proof (sum_amounts_nonneg Main.is_debit txns Hn) as He.
  unfold Main.expenses_of, Main.outflow_of in *.
  split_and!.
  - intros ->. vm_compute in Hp. discriminate.
  - apply gt0_spec. lra.
  - apply gt0_spec. lra.
Qed.

(** X7: for stored amounts that are not negative, a positive simple profit
    (revenue above expenses) makes the cashflow and the revenue tests pass
    too, so the rating is "Excellent" and the score at least 80. *)
Theorem profitable_business_is_excellent txns :
  nonneg_amounts txns → profit_positive txns = true →
  Main.rating (Main.score txns) = "Excellent"
  ∧ (80 ≤ Main.health_score (Main.score txns))%Z.
Proof.
  intros Hn Hp. destruct (profit_positive_tests txns Hn Hp) as (Hne & Hc & Hr).
  rewrite rating_nonempty, score_nonempty by done. rewrite Hp, Hc, Hr.
  destruct (enough_transactions txns); by vm_compute.
Qed.

(** X7 on [cent_txns]. *)
Lemma profitable_business_is_excellent_witness :
  nonneg_amounts cent_txns ∧ profit_positive cent_txns = true
  ∧ Main.rating (Main.score cent_txns) = "Excellent"
  ∧ (80 ≤ Main.health_score (Main.score cent_txns))%Z.
Proof.
  assert (H1 : nonneg_amounts cent_txns) by (repeat constructor; by vm_compute).
  assert (H2 : profit_positive cent_txns = true) by (vm_compute; reflexivity).
  destruct (profitable_business_is_excellent cent_txns H1 H2) as [Hr Hs].
  split_and!; [exact H1|exact H2|exact Hr|exact Hs].
Defined.

Lemma risks_nonempty_eq t txns :
  Main.risks (t :: txns)
  = let l :=
      (if Main.lt0 (Main.inflow_of (t :: txns) - Main.outflow_of (t :: txns))
       then [ {| Main.type := "cashflow_risk"; Main.severity := "high";
                 Main.message := "Negative cashflow detected" |} ] else [])
      ++ (if Main.gt0 (Main.revenue_of (t :: txns))
             && Main.Qgt_bool (Main.expenses_of (t :: txns) / Main.revenue_of (t :: txns)) (8 # 10)
          then [ {| Main.type := "high_expense"; Main.severity := "medium";
                    Main.message := "Expenses are > 80% of revenue" |} ] else [])
      ++ (if (length (t :: txns) <? 10)%nat
          then [ {| Main.type := "low_data"; Main.severity := "low";
                    Main.message := "Few transactions; insights may be weak" |} ] else []) in
    match l with
    | [] => [ {| Main.type := "no_major_risks"; Main.severity := "info";
                 Main.message := "No major risks detected" |} ]
    | _ => l
    end.
Proof.
  cbn [Main.risks].
  destruct (Main.lt0 _), (_ && _), (_ <? _)%nat; reflexivity.
Qed.

Lemma recommendations_nonempty_eq t txns :
  Main.recommendations (t :: txns)
  = let l :=
      (if Main.Qgt_bool (Main.outflow_of (t :: txns)) (Main.inflow_of (t :: txns))
       then [reduce_expenses] else [])
      ++ (if Main.gt0 (Main.revenue_of (t :: txns))
             && Main.Qgt_bool (Main.expenses_of (t :: txns) / Main.revenue_of (t :: txns)) (7 # 10)
          then [control_expenses] else [])
      ++ (if Main.gt0 (Main.revenue_of (t :: txns))
             && Main.Qgt_bool (Main.revenue_of (t :: txns)) (Main.inflow_of (t :: txns))
          then [speed_up_payments] else []) in
    match l with
    | [] => [looks_stable]
    | _ => l
    end.
Proof.
  cbn [Main.recommendations].
  destruct (Main.Qgt_bool (Main.outflow_of _) _), (_ && Main.Qgt_bool (_ / _) _),
    (_ && Main.Qgt_bool (Main.revenue_of _) _); reflexivity.
Qed.

Local Ltac solve_elem :=
  cbn; rewrite ?elem_of_cons, ?elem_of_nil;
  intuition (first [discriminate | congruence | lia]).

(** X8: [risks] never returns an empty list; it reports no_data exactly
    for a business without transactions, and then nothing else;
    cashflow_risk exactly when there are transactions and the inflow is
    below the outflow; low_data exactly for 1 to 9 transactions; and
    no_major_risks only as the single entry of the list. *)
Theorem risk_flags txns :
  Main.risks txns ≠ []
  ∧ ("no_data" ∈ risk_types txns ↔ txns = [])
  ∧ ("cashflow_risk" ∈ risk_types txns
     ↔ txns ≠ [] ∧ (Main.inflow_of txns < Main.outflow_of txns)%Q)
  ∧ ("low_data" ∈ risk_types txns ↔ (0 < length txns < 10)%nat)
  ∧ ("no_major_risks" ∈ risk_types txns ↔ risk_types txns = ["no_major_risks"])
  ∧ ("no_data" ∈ risk_types txns → risk_types txns = ["no_data"]).
Proof.
  unfold risk_types. destruct txns as [|t txns].
  - split_and!; [done|solve_elem|solve_elem| |solve_elem|done].
    cbn. rewrite ?elem_of_cons, ?elem_of_nil. intuition (first [discriminate | lia]).
  - rewrite risks_nonempty_eq.
    assert (Hc : Main.lt0 (Main.inflow_of (t :: txns) - Main.outflow_of (t :: txns)) = true
                 ↔ (Main.inflow_of (t :: txns) < Main.outflow_of (t :: txns))%Q).
    { rewrite lt0_spec. split; intros; lra. }
    assert (Hl : (length (t :: txns) <? 10)%nat = true ↔ (0 < length (t :: txns) < 10)%nat).
    { rewrite Nat.ltb_lt. cbn [length]. lia. }
    revert Hc Hl.
    generalize (Main.inflow_of (t :: txns) < Main.outflow_of (t :: txns))%Q.
    generalize (0 < length (t :: txns) < 10)%nat.
    destruct (Main.lt0 _), (_ && _), (_ <? _)%nat; intros P1 P2 Hc Hl;
      (split_and!; [done|solve_elem|solve_elem|solve_elem|solve_elem|solve_elem]).
Qed.

Lemma risk_types_elem t txns r :
  let l := t :: txns in
  let b1 := Main.lt0 (Main.inflow_of l - Main.outflow_of l) in
  let b2 := Main.gt0 (Main.revenue_of l)
            && Main.Qgt_bool (Main.expenses_of l / Main.revenue_of l) (8 # 10) in
  let b3 := (length l <? 10)%nat in
  r ∈ risk_types l
  ↔ (r = "cashflow_risk" ∧ b1 = true) ∨ (r = "high_expense" ∧ b2 = true)
    ∨ (r = "low_data" ∧ b3 = true)
    ∨ (r = "no_major_risks" ∧ b1 = false ∧ b2 = false ∧ b3 = false).
Proof.
  intros l b1 b2 b3. unfold risk_types. subst l. rewrite risks_nonempty_eq.
  fold b1 b2 b3. destruct b1, b2, b3; solve_elem.
Qed.

Lemma recommendations_elem t txns r :
  let l := t :: txns in
  let b1 := Main.Qgt_bool (Main.outflow_of l) (Main.inflow_of l) in
  let b2 := Main.gt0 (Main.revenue_of l)
            && Main.Qgt_bool (Main.expenses_of l / Main.revenue_of l) (7 # 10) in
  let b3 := Main.gt0 (Main.revenue_of l)
            && Main.Qgt_bool (Main.revenue_of l) (Main.inflow_of l) in
  r ∈ Main.recommendations l
  ↔ (r = reduce_expenses ∧ b1 = true) ∨ (r = control_expenses ∧ b2 = true)
    ∨ (r = speed_up_payments ∧ b3 = true)
    ∨ (r = looks_stable ∧ b1 = false ∧ b2 = false ∧ b3 = false).
Proof.
  intros l b1 b2 b3. subst l. rewrite recommendations_nonempty_eq.
  fold b1 b2 b3. destruct b1, b2, b3; solve_elem.
Qed.

(** X9: the two endpoints agree on the same transactions: [risks] flags
    cashflow_risk exactly when [recommendations] advises to reduce expenses
    or improve collections, and whenever [risks] flags high_expense (above
    80 % of revenue) [recommendations] advises to control operating
    expenses (its threshold is 70 %). *)
Theorem risks_and_recommendations_agree txns :
  ("cashflow_risk" ∈ risk_types txns ↔ reduce_expenses ∈ Main.recommendations txns)
  ∧ ("high_expense" ∈ risk_types txns → control_expenses ∈ Main.recommendations txns).
Proof.
  destruct txns as [|t txns]; [split; solve_elem|].
  rewrite !risk_types_elem, !recommendations_elem.
  set (l := t :: txns).
  assert (H1 : Main.lt0 (Main.inflow_of l - Main.outflow_of l)
               = Main.Qgt_bool (Main.outflow_of l) (Main.inflow_of l)).
  { apply eq_true_iff_eq. rewrite lt0_spec, Qgt_bool_spec. split; intros; lra. }
  assert (H2 : Main.Qgt_bool (Main.expenses_of l / Main.revenue_of l) (8 # 10) = true
               → Main.Qgt_bool (Main.expenses_of l / Main.revenue_of l) (7 # 10) = true).
  { rewrite !Qgt_bool_spec. intros. lra. }
  rewrite H1. revert H2. generalize (Main.expenses_of l / Main.revenue_of l)%Q. intros q H2.
  destruct (Main.Qgt_bool (Main.outflow_of l) (Main.inflow_of l)),
    (Main.gt0 (Main.revenue_of l)), (Main.Qgt_bool q (8 # 10)), (Main.Qgt_bool q (7 # 10));
    cbn [andb]; split; intuition (first [discriminate | congruence]).
Qed.

(** X10: for stored amounts that are not negative, [recommendations] never
    advises to speed up customer payments: its test, revenue above inflow,
    cannot hold, the revenue being part of the inflow. *)
Theorem speed_up_never_recommended txns :
  nonneg_amounts txns → speed_up_payments ∉ Main.recommendations txns.
Proof.
  intros Hn. destruct txns as [|t txns]; [solve_elem|].
  rewrite recommendations_elem. set (l := t :: txns).
  pose proof (revenue_le_inflow l Hn) as Hr.
  assert (H : Main.Qgt_bool (Main.revenue_of l) (Main.inflow_of l) = false).
  { apply not_true_is_false. rewrite Qgt_bool_spec. lra. }
  rewrite H, andb_false_r. intuition discriminate.
Qed.

(** X10 on [cent_txns]. *)
Lemma speed_up_never_recommended_witness :
  nonneg_amounts cent_txns ∧ speed_up_payments ∉ Main.recommendations cent_txns.
Proof.
  assert (H : nonneg_amounts cent_txns) by (repeat constructor; by vm_compute).
  split; [exact H|]. exact (speed_up_never_recommended cent_txns H).
Defined.

(** X11: for stored amounts that are not negative, a business that [risks]
    flags with cashflow_risk fails the cashflow and the profit tests of
    [score]: its score is at most 60 and its rating is not "Excellent". *)
Theorem cashflow_risk_caps_score txns :
  nonneg_amounts txns → "cashflow_risk" ∈ risk_types txns →
  (Main.health_score (Main.score txns) ≤ 60)%Z
  ∧ Main.rating (Main.score txns) ≠ "Excellent".
Proof.
  intros Hn Hr. destruct txns as [|t txns]; [revert Hr; solve_elem|].
  set (l := t :: txns) in *.
  assert (Hne : l ≠ []) by done.
  apply risk_types_elem in Hr. fold l in Hr.
  assert (H1 : Main.lt0 (Main.inflow_of l - Main.outflow_of l) = true)
    by (revert Hr; intuition discriminate).
  apply lt0_spec in H1.
  assert (Hc : cashflow_positive l = false).
  { apply not_true_is_false. unfold cashflow_positive. rewrite gt0_spec. lra. }
  assert (Hp : profit_positive l = false).
  { apply not_true_is_false. intros Hp.
    destruct (profit_positive_tests l Hn Hp) as (_ & Hc' & _). congruence. }
  rewrite rating_nonempty, score_nonempty by done. rewrite Hc, Hp.
  destruct (enough_transactions l), (has_revenue l); by vm_compute.
Qed.

(** X11 on [loss_txns]: a revenue of 100 and a rent of 250. *)
Lemma cashflow_risk_caps_score_witness :
  nonneg_amounts loss_txns ∧ "cashflow_risk" ∈ risk_types loss_txns
  ∧ (Main.health_score (Main.score loss_txns) ≤ 60)%Z
  ∧ Main.rating (Main.score loss_txns) ≠ "Excellent".
Proof.
  assert (H1 : nonneg_amounts loss_txns) by (repeat constructor; by vm_compute).
  assert (H2 : "cashflow_risk" ∈ risk_types loss_txns)
    by (apply (bool_decide_unpack _); vm_compute; exact I).
  destruct (cashflow_risk_caps_score loss_txns H1 H2) as [Hs Hr].
  split_and!; [exact H1|exact H2|exact Hs|exact Hr].
Defined.

(** ** The monthly series *)

Lemma bucket_step_lookup m t k :
  Main.bucket_step m t !! k
  = if decide (month_key t = k)
    then Some (step_bucket t (default (fresh_bucket k) (m !! k)))
    else m !! k.
Proof.
  unfold Main.bucket_step, step_bucket. fold (month_key t).
  fold (fresh_bucket (month_key t)).
  set (k0 := month_key t).
  set (m1 := match m !! k0 with Some _ => m | None => <[k0:=fresh_bucket k0]> m end).
  assert (H1 : m1 !! k = if decide (k0 = k) then Some (default (fresh_bucket k) (m !! k))
                         else m !! k).
  { unfold m1. destruct (decide (k0 = k)) as [<-|Hne].
    - destruct (m !! k0) as [b|] eqn:E; [by rewrite E|]. by rewrite lookup_insert_eq.
    - destruct (m !! k0); [done|]. by rewrite lookup_insert_ne. }
  clearbody m1.
  destruct (Main.is_credit t && Main.is_revenue t), (Main.is_debit t);
    rewrite ?lookup_alter; destruct (decide (k0 = k)) as [<-|Hne];
    rewrite ?lookup_alter, ?decide_True by done; rewrite ?H1, ?decide_True by done; done.
Qed.

Lemma sum_amounts_snoc p txns t :
  (Main.sum_amounts p (txns ++ [t])
   == Main.sum_amounts p txns + (if p t then Models.amount t else 0))%Q.
Proof.
  induction txns as [|a txns IH].
  - cbn [app]. rewrite sum_amounts_cons. unfold Main.sum_amounts. cbn. ring.
  - cbn [app]. rewrite !sum_amounts_cons, IH. ring.
Qed.

Lemma sum_amounts_other_month k p seen :
  (∀ t, t ∈ seen → month_key t ≠ k) →
  (Main.sum_amounts (λ t, in_month k t && p t) seen == 0)%Q.
Proof.
  intros H. induction seen as [|a seen IH].
  - unfold Main.sum_amounts. cbn. reflexivity.
  - rewrite sum_amounts_cons, IH.
    + unfold in_month. rewrite bool_decide_eq_false_2; [cbn [andb]; ring|].
      apply H, elem_of_cons. by left.
    + intros t0 Ht0. apply H, elem_of_cons. by right.
Qed.

Lemma step_bucket_figures t b :
  Bucket.month (step_bucket t b) = Bucket.month b
  ∧ (Bucket.revenue (step_bucket t b)
     == Bucket.revenue b
        + (if Main.is_credit t && Main.is_revenue t then Models.amount t else 0))%Q
  ∧ (Bucket.expenses (step_bucket t b)
     == Bucket.expenses b + (if Main.is_debit t then Models.amount t else 0))%Q.
Proof.
  unfold step_bucket.
  destruct (Main.is_credit t && Main.is_revenue t), (Main.is_debit t);
    cbn [Main.add_revenue Main.add_expenses Bucket.month Bucket.revenue Bucket.expenses];
    split_and!; first [done | ring].
Qed.

Lemma buckets_inv_step seen m t :
  buckets_inv seen m → buckets_inv (seen ++ [t]) (Main.bucket_step m t).
Proof.
  intros H k. specialize (H k). rewrite bucket_step_lookup.
  destruct (decide (month_key t = k)) as [E|E].
  - destruct (step_bucket_figures t (default (fresh_bucket k) (m !! k))) as (Hm & Hr & He).
    rewrite Hm. unfold month_revenue, month_expenses.
    rewrite !sum_amounts_snoc, Hr, He. unfold in_month at 2 4.
    rewrite (bool_decide_eq_true_2 _ E). cbn [andb].
    assert (Hex : ∃ t0, t0 ∈ seen ++ [t] ∧ month_key t0 = k).
    { exists t. split; [|done]. apply elem_of_app. right. by apply list_elem_of_singleton. }
    destruct (m !! k) as [b|] eqn:Eb; cbn [default].
    + destruct H as (Hmb & Hrb & Heb & _). unfold month_revenue, month_expenses in *.
      rewrite Hrb, Heb. done.
    + cbn [fresh_bucket Bucket.month Bucket.revenue Bucket.expenses].
      rewrite (sum_amounts_other_month k (λ t, Main.is_credit t && Main.is_revenue t) seen H).
      rewrite (sum_amounts_other_month k Main.is_debit seen H). done.
  - destruct (m !! k) as [b|].
    + destruct H as (Hm & Hr & He & t0 & Ht0 & Hk).
      unfold month_revenue, month_expenses in *. rewrite !sum_amounts_snoc.
      unfold in_month at 2 4. rewrite (bool_decide_eq_false_2 _ E). cbn [andb].
      split_and!; [done| | |].
      * rewrite Hr. ring.
      * rewrite He. ring.
      * exists t0. split; [|done]. apply elem_of_app. by left.
    + intros t0 [Ht0|Ht0%list_elem_of_singleton]%elem_of_app; [by apply H|by subst].
Qed.

Lemma buckets_inv_foldl txns : ∀ seen m,
  buckets_inv seen m → buckets_inv (seen ++ txns) (foldl Main.bucket_step m txns).
Proof.
  induction txns as [|t txns IH]; intros seen m H; cbn [foldl].
  - by rewrite app_nil_r.
  - rewrite (assoc_L (++) seen [t] txns : seen ++ t :: txns = (seen ++ [t]) ++ txns).
    by apply IH, buckets_inv_step.
Qed.

Lemma monthly_buckets_inv txns : buckets_inv txns (Main.monthly_buckets txns).
Proof.
  apply (buckets_inv_foldl txns [] ∅). intros k. rewrite lookup_empty.
  intros t Ht. by apply elem_of_nil in Ht.
Qed.

Lemma round_half_even_comp x y : (x == y)%Q → round_half_even x = round_half_even y.
Proof.
  intros H. unfold round_half_even. rewrite (Qfloor_comp x y H).
  assert (E : (x - inject_Z (Qfloor y) ?= 1 # 2)%Q = (y - inject_Z (Qfloor y) ?= 1 # 2)%Q)
    by (by rewrite H).
  by rewrite E.
Qed.

Lemma round2_comp x y : (x == y)%Q → round2 x = round2 y.
Proof.
  intros H. unfold round2. f_equal. f_equal. f_equal.
  apply round_half_even_comp. by rewrite H.
Qed.

Lemma kpis_monthly_unfold txns :
  Main.kpis_monthly txns = Main.round_bucket <$> Main.monthly_unrounded txns.
Proof. destruct txns; [by vm_compute|done]. Qed.

Lemma sorted_buckets_elem txns k b :
  (k, b) ∈ merge_sort Main.key_le (map_to_list (Main.monthly_buckets txns))
  ↔ Main.monthly_buckets txns !! k = Some b.
Proof. by rewrite sorted_buckets_perm, elem_of_map_to_list. Qed.

Lemma kpis_monthly_elem txns b :
  b ∈ Main.kpis_monthly txns
  ↔ ∃ k b0, Main.monthly_buckets txns !! k = Some b0
            ∧ b = Main.round_bucket (Main.set_profit b0).
Proof.
  rewrite kpis_monthly_unfold. unfold Main.monthly_unrounded.
  rewrite <- list_fmap_compose, list_elem_of_fmap. split.
  - intros ([k b0] & -> & H%sorted_buckets_elem). by exists k, b0.
  - intros (k & b0 & H%sorted_buckets_elem & ->). by exists (k, b0).
Qed.

(** X12: every bucket of [kpis_monthly] is the bucket of a month in which
    some transaction is dated; its revenue is the rounded sum of the
    amounts of the revenue credits dated in that month, its expenses the
    rounded sum of the debits dated in that month, and its profit the
    rounded difference of the two sums. *)
Theorem monthly_bucket_figures txns b :
  b ∈ Main.kpis_monthly txns →
  (∃ t, t ∈ txns ∧ month_key t = Bucket.month b)
  ∧ Bucket.revenue b = round2 (month_revenue (Bucket.month b) txns)
  ∧ Bucket.expenses b = round2 (month_expenses (Bucket.month b) txns)
  ∧ Bucket.profit_simple b
    = round2 (month_revenue (Bucket.month b) txns - month_expenses (Bucket.month b) txns).
Proof.
  intros (k & b0 & Hk & ->)%kpis_monthly_elem.
  pose proof (monthly_buckets_inv txns k) as H. rewrite Hk in H.
  destruct H as (Hm & Hr & He & Ht).
  cbn [Main.round_bucket Main.set_profit Bucket.month Bucket.revenue Bucket.expenses
       Bucket.profit_simple]. rewrite Hm.
  split_and!; [done|by apply round2_comp|by apply round2_comp|].
  apply round2_comp. by rewrite Hr, He.
Qed.

(** X12 on the first bucket of [cent_txns], that of January 2024. *)
Lemma monthly_bucket_figures_witness :
  ∃ b, b ∈ Main.kpis_monthly cent_txns ∧ Bucket.month b = "2024-01"
       ∧ Bucket.revenue b = round2 (month_revenue "2024-01" cent_txns)
       ∧ Bucket.expenses b = round2 (month_expenses "2024-01" cent_txns).
Proof.
  assert (H : ∃ b, Main.kpis_monthly cent_txns !! 0%nat = Some b ∧ Bucket.month b = "2024-01")
    by (eexists; split; vm_compute; reflexivity).
  destruct H as (b & Hb & Hm). exists b.
  assert (Hin : b ∈ Main.kpis_monthly cent_txns) by exact (list_elem_of_lookup_2 _ _ _ Hb).
  destruct (monthly_bucket_figures cent_txns b Hin) as (_ & Hr & He & _).
  rewrite Hm in Hr, He. split_and!; [exact Hin|exact Hm|exact Hr|exact He].
Defined.

Lemma key_le_trans : Transitive Main.key_le.
Proof. intros x y z. unfold Main.key_le. apply transitivity. Qed.

Lemma key_le_total : Total Main.key_le.
Proof. intros x y. unfold Main.key_le. apply String.le_total. Qed.

Lemma kpis_monthly_months txns :
  months_of (Main.kpis_monthly txns)
  = (merge_sort Main.key_le (map_to_list (Main.monthly_buckets txns))).*1.
Proof.
  unfold months_of. rewrite kpis_monthly_unfold. unfold Main.monthly_unrounded.
  rewrite <- !list_fmap_compose. apply Forall_fmap_ext_1, Forall_forall.
  intros [k b0] H%sorted_buckets_elem. cbn.
  pose proof (monthly_buckets_inv txns k) as Hi. rewrite H in Hi. tauto.
Qed.

Lemma kpis_monthly_months_sorted txns :
  StronglySorted String.le (months_of (Main.kpis_monthly txns)).
Proof.
  rewrite kpis_monthly_months.
  apply (StronglySorted_fmap fst Main.key_le); [done|].
  apply StronglySorted_merge_sort; [apply key_le_trans|apply key_le_total].
Qed.

Lemma kpis_monthly_months_dated txns k :
  k ∈ months_of (Main.kpis_monthly txns) ↔ ∃ t, t ∈ txns ∧ month_key t = k.
Proof.
  rewrite kpis_monthly_months, list_elem_of_fmap.
  pose proof (monthly_buckets_inv txns k) as Hi. split.
  - intros ([k' b] & -> & H%sorted_buckets_elem). cbn in *. rewrite H in Hi. tauto.
  - intros (t & Ht & Hk). destruct (Main.monthly_buckets txns !! k) as [b|] eqn:E.
    + exists (k, b). split; [done|]. by apply sorted_buckets_elem.
    + by destruct (Hi t Ht).
Qed.

(** X13: the months of the series [kpis_monthly] returns are in ascending
    order of their keys and without repetition, and they are exactly the
    months in which a transaction is dated. *)
Theorem monthly_buckets_by_month txns :
  StronglySorted String.le (months_of (Main.kpis_monthly txns))
  ∧ NoDup (months_of (Main.kpis_monthly txns))
  ∧ (∀ k, k ∈ months_of (Main.kpis_monthly txns) ↔ ∃ t, t ∈ txns ∧ month_key t = k).
Proof.
  split_and!.
  - apply kpis_monthly_months_sorted.
  - rewrite kpis_monthly_months, sorted_buckets_perm. apply NoDup_fst_map_to_list.
  - apply kpis_monthly_months_dated.
Qed.

(** ** Month arithmetic and the forecast over the store *)

Lemma add_months_ym_index y m i :
  (0 ≤ y)%Z → (0 ≤ m)%Z →
  Main._add_months_ym (ym_key y m) i
  = Ok (ym_key ((month_index y m + i) `div` 12) ((month_index y m + i) `mod` 12 + 1)).
Proof.
  intros Hy Hm. unfold Main._add_months_ym, ym_key, month_index.
  rewrite split_year_month by (apply all_digits_format_d; lia).
  by rewrite !int_format_d by lia.
Qed.

(** X14: on the key of a month [m] of a year [y >= 0], [_add_months_ym]
    with 0 returns the key itself; and when adding [i] months does not lead
    before the year 0, adding [j] months to the result is adding [i + j]
    months to the key. *)
Theorem add_months_compose y m i j :
  (0 ≤ y)%Z → (1 ≤ m ≤ 12)%Z → (0 ≤ month_index y m + i)%Z →
  Main._add_months_ym (ym_key y m) 0 = Ok (ym_key y m)
  ∧ ∃ k, Main._add_months_ym (ym_key y m) i = Ok k
         ∧ Main._add_months_ym k j = Main._add_months_ym (ym_key y m) (i + j).
Proof.
  intros Hy Hm Hi. split.
  - rewrite add_months_ym_index by lia. unfold month_index. do 2 f_equal.
    + rewrite Z.add_0_r. replace (y * 12 + (m - 1))%Z with ((m - 1) + y * 12)%Z by lia.
      rewrite Z.div_add by lia. rewrite Z.div_small by lia. lia.
    + rewrite Z.add_0_r. replace (y * 12 + (m - 1))%Z with ((m - 1) + y * 12)%Z by lia.
      rewrite Z.mod_add by lia. rewrite Z.mod_small by lia. lia.
  - eexists. split; [by apply add_months_ym_index; lia|].
    set (idx := (month_index y m + i)%Z) in *.
    pose proof (Z.mod_pos_bound idx 12 ltac:(lia)) as Hb.
    pose proof (Z.div_pos idx 12 Hi ltac:(lia)) as Hd.
    rewrite !add_months_ym_index by lia.
    assert (E : (month_index (idx `div` 12) (idx `mod` 12 + 1) + j
                 = month_index y m + (i + j))%Z).
    { pose proof (Z.div_mod idx 12 ltac:(lia)) as Hdm. unfold month_index in *. subst idx. lia. }
    by rewrite E.
Qed.

(** X14 from November 2024: three months on, then two months back. *)
Lemma add_months_compose_witness :
  (0 ≤ month_index 2024 11 + 3)%Z
  ∧ ∃ k, Main._add_months_ym (ym_key 2024 11) 3 = Ok k
         ∧ Main._add_months_ym k (-2) = Main._add_months_ym (ym_key 2024 11) (3 + -2).
Proof.
  assert (H : (0 ≤ month_index 2024 11 + 3)%Z) by (by vm_compute).
  split; [exact H|].
  exact (proj2 (add_months_compose 2024 11 3 (-2) ltac:(lia) ltac:(lia) H)).
Defined.

Lemma last_strongly_sorted {A} (R : relation A) `{!Reflexive R} (l : list A) x :
  StronglySorted R l → last l = Some x → ∀ y, y ∈ l → R y x.
Proof.
  induction 1 as [|a l Hs IH Ha]; intros Hl y Hy; [by apply elem_of_nil in Hy|].
  destruct l as [|b l].
  - cbn in Hl. injection Hl as <-. apply list_elem_of_singleton in Hy as ->. done.
  - change (last (a :: b :: l)) with (last (b :: l)) in Hl.
    apply elem_of_cons in Hy as [->|Hy]; [|by apply IH].
    eapply Forall_forall; [exact Ha|]. by apply last_Some_elem_of.
Qed.

Lemma trailing_last (monthly : list Bucket.t) b :
  last monthly = Some b →
  let last_n := if (3 <=? length monthly)%nat
                then drop (length monthly - 3) monthly else monthly in
  last last_n = Some b ∧ (length last_n ≤ 3)%nat.
Proof.
  intros H. cbn zeta. destruct (3 <=? length monthly)%nat eqn:E.
  - apply Nat.leb_le in E. split; [|rewrite length_drop; lia].
    rewrite !last_lookup in *. rewrite length_drop, lookup_drop. rewrite <- H. f_equal. lia.
  - apply Nat.leb_gt in E. split; [done|lia].
Qed.

(** X15: for a business with transactions, all dated in years of four
    digits, [forecast] over the stored transactions does not fail: it is
    based on at most three months, the last of which is the latest month
    [k] with a transaction, and its entries are, for [i] from 1 to the
    horizon, the months [i] months after [k] (none for a horizon below 1). *)
Theorem forecast_follows_latest_month txns n :
  Forall (λ t, calendar_date (Models.txn_date t)) txns → txns ≠ [] →
  ∃ t out based,
    t ∈ txns ∧ (∀ t', t' ∈ txns → String.le (month_key t') (month_key t))
    ∧ Main.forecast txns n = Ok (Main.Projection out based)
    ∧ Forecast.month <$> out = ym_after (Models.txn_date t) <$> seqZ 1 n
    ∧ last based = Some (month_key t) ∧ (length based ≤ 3)%nat.
Proof.
  intros Hd Hne. unfold Main.forecast, Main.forecast_of.
  pose proof (kpis_monthly_months_sorted txns) as Hs.
  pose proof (kpis_monthly_months_dated txns) as Hk.
  destruct (last (Main.kpis_monthly txns)) as [b|] eqn:El.
  - assert (Hb : Bucket.month b ∈ months_of (Main.kpis_monthly txns)).
    { apply list_elem_of_fmap_2. by apply last_Some_elem_of. }
    pose proof Hb as (t & Ht & Hkt)%Hk.
    assert (Hlm : last (months_of (Main.kpis_monthly txns)) = Some (Bucket.month b)).
    { unfold months_of. by rewrite fmap_last, El. }
    exists t. eexists. eexists. split; [done|]. split.
    { intros t' Ht'. rewrite Hkt.
      apply (last_strongly_sorted String.le _ _ Hs Hlm). apply Hk. by exists t'. }
    assert (Hc : calendar_date (Models.txn_date t)).
    { eapply Forall_forall in Hd; [exact Hd|done]. }
    destruct Hc as [Hy Hm].
    destruct (trailing_last _ _ El) as [Hl3 Hlen]. cbn zeta in Hl3, Hlen.
    rewrite <- Hkt.
    set (last_n := if (3 <=? length (Main.kpis_monthly txns))%nat
                   then drop (length (Main.kpis_monthly txns) - 3) (Main.kpis_monthly txns)
                   else Main.kpis_monthly txns) in *.
    rewrite (apply_series_map _
      (λ i, {| Forecast.month := ym_after (Models.txn_date t) i;
               Forecast.forecast_revenue := round2 (average Bucket.revenue last_n);
               Forecast.forecast_net_cashflow :=
                 round2 (average Bucket.profit_simple last_n) |})).
    + cbn [mbind result_bind]. split; [reflexivity|]. subst last_n. split_and!.
      * rewrite <- list_fmap_compose. done.
      * by rewrite fmap_last, Hl3, Hkt.
      * by rewrite length_fmap.
    + intros i Hi%elem_of_seqZ. unfold month_key.
      destruct (Models.txn_date t) as [y m d] eqn:Edate. cbn [year month] in *.
      change (strftime_Ym (Date y m d)) with (strftime_Ym (Date y m 1)).
      rewrite add_months_ym_spec by lia. reflexivity.
  - exfalso. apply last_None in El. destruct txns as [|t txns]; [done|].
    assert (H : month_key t ∈ months_of (Main.kpis_monthly (t :: txns))).
    { apply Hk. exists t. split; [apply elem_of_cons; by left|done]. }
    rewrite El in H. by apply elem_of_nil in H.
Qed.

(** X15 on [cent_txns], two months ahead. *)
Lemma forecast_follows_latest_month_witness :
  Forall (λ t, calendar_date (Models.txn_date t)) cent_txns ∧ cent_txns ≠ []
  ∧ ∃ t out based,
      t ∈ cent_txns
      ∧ Main.forecast cent_txns 2 = Ok (Main.Projection out based)
      ∧ Forecast.month <$> out = ym_after (Models.txn_date t) <$> seqZ 1 2.
Proof.
  assert (H1 : Forall (λ t, calendar_date (Models.txn_date t)) cent_txns)
    by (repeat constructor; by vm_compute).
  assert (H2 : cent_txns ≠ []) by discriminate.
  split_and!; [exact H1|exact H2|].
  destruct (forecast_follows_latest_month cent_txns 2 H1 H2)
    as (t & out & based & Ht & _ & Hf & Hm & _).
  exists t, out, based. split_and!; [exact Ht|exact Hf|exact Hm].
Defined.

(** ** The endpoints over the store *)

Lemma require_business_owner_spec db bid uid :
  match Main.require_business_owner db bid uid with
  | Ok biz => biz ∈ businesses db ∧ Models.id biz = bid ∧ Models.owner_user_id biz = uid
  | Err e =>
      (e = not_found ∧ ∀ b, b ∈ businesses db → Models.id b ≠ bid)
      ∨ (e = not_allowed
         ∧ ∃ b, b ∈ businesses db ∧ Models.id b = bid ∧ Models.owner_user_id b ≠ uid)
  end.
Proof.
  unfold Main.require_business_owner.
  destruct (find _ (businesses db)) as [biz|] eqn:E.
  - apply find_some in E as [Hin Hid]. apply bool_decide_eq_true in Hid.
    apply list_elem_of_In in Hin.
    case_bool_decide as Ho.
    + right. split; [done|]. by exists biz.
    + split_and!; [done|done|]. by destruct (decide (Models.owner_user_id biz = uid)).
  - left. split; [done|]. intros b Hb%list_elem_of_In Hid.
    apply (find_none _ _ E) in Hb. by apply bool_decide_eq_false in Hb.
Qed.

Lemma new_transaction_Some bid r row :
  Main.new_transaction bid r = Some row →
  Models.business_id row = bid
  ∧ txn_date r = ADate (Models.txn_date (Models.fields row))
  ∧ amount r = Finite (Models.amount (Models.fields row))
  ∧ Models.direction (Models.fields row) = direction r.
Proof.
  unfold Main.new_transaction. destruct (txn_date r) as [d|]; [|done].
  destruct (amount r) as [q| |]; [|done..]. by intros [= <-].
Qed.

Lemma new_transaction_storable bid r :
  is_Some (Main.new_transaction bid r) ↔ storable r.
Proof.
  unfold Main.new_transaction, storable. split.
  - intros [row H]. destruct (txn_date r) as [d|]; [|done].
    destruct (amount r) as [q| |]; [|done..]. split; by eexists.
  - intros [[d ->] [q ->]]. by eexists.
Qed.

Lemma add_transactions_Ok db bid rows db' :
  Main.add_transactions db bid rows = Ok db' →
  ∃ new, Forall2 (λ r row, Main.new_transaction bid r = Some row) rows new
         ∧ db' = {| businesses := businesses db;
                    transactions := transactions db ++ new;
                    audit_logs := audit_logs db |}.
Proof.
  unfold Main.add_transactions.
  destruct (mapM _ rows) as [new|] eqn:E; [|done].
  intros [= <-]. exists new. split; [by apply mapM_Some|done].
Qed.

Lemma add_transactions_storable db bid rows :
  (∃ db', Main.add_transactions db bid rows = Ok db') ↔ Forall storable rows.
Proof.
  unfold Main.add_transactions. split.
  - intros [db' H]. destruct (mapM _ rows) as [new|] eqn:E; [|done].
    apply mapM_Some in E. apply Forall_forall. intros r Hr.
    apply list_elem_of_lookup in Hr as [i Hi].
    destruct (Forall2_lookup_l _ _ _ _ _ E Hi) as (row & _ & Hrow).
    apply (new_transaction_storable bid). by exists row.
  - intros H.
    assert (Hs : is_Some (mapM (Main.new_transaction bid) rows)).
    { apply mapM_is_Some. eapply Forall_impl; [exact H|].
      intros r Hr. by apply new_transaction_storable. }
    destruct Hs as [new ->]. by eexists.
Qed.

Lemma add_transactions_Err db bid rows e :
  Main.add_transactions db bid rows = Err e →
  e = SQLAlchemyError ∧ ¬ Forall storable rows.
Proof.
  intros H. split.
  - unfold Main.add_transactions in H. destruct (mapM _ rows); [done|]. by injection H as <-.
  - intros [db' H']%(add_transactions_storable db bid). congruence.
Qed.

Lemma transactions_of_add db bid rows db' other :
  Main.add_transactions db bid rows = Ok db' →
  ∃ new, Forall2 (λ r row, Main.new_transaction bid r = Some row) rows new
    ∧ businesses db' = businesses db
    ∧ audit_logs db' = audit_logs db
    ∧ Main.transactions_of db' other
      = Main.transactions_of db other
        ++ (if decide (other = bid) then Models.fields <$> new else []).
Proof.
  intros (new & Hnew & ->)%add_transactions_Ok. exists new.
  split_and!; [done..|].
  unfold Main.transactions_of. cbn [transactions].
  rewrite filter_app, fmap_app. f_equal.
  induction Hnew as [|r row rows new Hr _ IH]; [by destruct (decide _)|].
  apply new_transaction_Some in Hr as (Hb & _).
  rewrite filter_cons, Hb.
  destruct (decide (bid = other)) as [->|Hne].
  - rewrite decide_True in IH |- * by done. cbn [fmap list_fmap]. by rewrite <- IH.
  - rewrite decide_False in IH |- * by done. done.
Qed.

Lemma import_effect_intro action request file bid uid db db1 rows :
  Forall (λ r, (nonneg (amount r) ∨ amount r = NaN)
               ∧ (direction r = "credit" ∨ direction r = "debit")) rows →
  Main.add_transactions db bid rows = Ok db1 →
  import_effect action request file bid uid db
    (log_audit db1 request (Some uid) (Some bid) action
       (Some "transaction") None
       [("filename", Main.json_filename file);
        ("inserted", Audit.JInt (Z.of_nat (length rows)))])
    (length rows).
Proof.
  intros Hrows Hadd. unfold import_effect. split_and!.
  - by destruct (transactions_of_add db bid rows db1 bid Hadd) as (new & _ & ? & _).
  - intros other Hne. unfold log_audit, Main.transactions_of at 1. cbn [transactions].
    fold (Main.transactions_of db1 other).
    destruct (transactions_of_add db bid rows db1 other Hadd) as (new & _ & _ & _ & E).
    rewrite E, decide_False by done. by rewrite app_nil_r.
  - destruct (transactions_of_add db bid rows db1 bid Hadd) as (new & Hnew & _ & _ & E).
    exists (Models.fields <$> new). split; [|split].
    + unfold log_audit, Main.transactions_of at 1. cbn [transactions].
      fold (Main.transactions_of db1 bid). rewrite E, decide_True by done. reflexivity.
    + rewrite length_fmap. symmetry. by eapply Forall2_length.
    + apply Forall_fmap, Forall_forall. intros row Hrow.
      apply list_elem_of_lookup in Hrow as [i Hi].
      destruct (Forall2_lookup_r _ _ _ _ _ Hnew Hi) as (r & Hr & Hrr).
      apply new_transaction_Some in Hrr as (_ & _ & Ha & Hd).
      eapply Forall_lookup_1 in Hrows as [Hamt Hdir]; [|exact Hr].
      unfold stored_ok. cbn [compose]. rewrite Hd. split; [|done].
      rewrite Ha in Hamt. destruct Hamt as [Hamt|Hamt]; [|done].
      by apply Qle_bool_iff.
  - destruct (transactions_of_add db bid rows db1 bid Hadd) as (new & _ & _ & E & _).
    eexists. split; [unfold log_audit; cbn [audit_logs]; by rewrite E|].
    by unfold import_record.
Qed.

Lemma omap_length {A B} (f : A → option B) (l : list A) :
  (length (omap f l) ≤ length l)%nat.
Proof.
  induction l as [|x l IH]; [done|]. cbn [omap list_omap length].
  destruct (f x); cbn [length]; fold (omap f l); lia.
Qed.

(** *** The numbers of a line hold a digit, so none is read as NaN *)

Lemma is_digit_not_space c : Py.is_digit c = true → Py.is_space c = false.
Proof. destruct c as [[] [] [] [] [] [] [] []]; by vm_compute. Qed.

Lemma is_digit_lower c : Py.is_digit (Py.lower_char c) = Py.is_digit c.
Proof. destruct c as [[] [] [] [] [] [] [] []]; reflexivity. Qed.

Lemma is_digit_not_comma c : Py.is_digit c = true → Ascii.eqb c "," = false.
Proof. destruct c as [[] [] [] [] [] [] [] []]; by vm_compute. Qed.

Lemma has_digit_rev_app s1 : ∀ s2,
  has_digit (String.rev_app s1 s2) = has_digit s1 || has_digit s2.
Proof.
  induction s1 as [|a s1 IH]; intros s2; cbn; [done|]. rewrite IH. cbn.
  destruct (Py.is_digit a), (has_digit s1), (has_digit s2); done.
Qed.

Lemma has_digit_rev s : has_digit (String.rev s) = has_digit s.
Proof. unfold String.rev. rewrite has_digit_rev_app. cbn. apply orb_false_r. Qed.

Lemma has_digit_lstrip s : has_digit (Py.lstrip s) = has_digit s.
Proof.
  induction s as [|a s IH]; [done|]. cbn. destruct (Py.is_space a) eqn:E; [|done].
  rewrite IH. destruct (Py.is_digit a) eqn:Ed; [|done].
  apply is_digit_not_space in Ed. congruence.
Qed.

Lemma has_digit_strip s : has_digit (Py.strip s) = has_digit s.
Proof.
  unfold Py.strip, Py.rstrip.
  by rewrite has_digit_rev, has_digit_lstrip, has_digit_rev, has_digit_lstrip.
Qed.

Lemma has_digit_lower s : has_digit (Py.lower s) = has_digit s.
Proof.
  induction s as [|a s IH]; [done|].
  change (Py.is_digit (Py.lower_char a) || has_digit (Py.lower s)
          = Py.is_digit a || has_digit s).
  by rewrite is_digit_lower, IH.
Qed.

Lemma has_digit_remove_comma s : has_digit (Py.remove_char "," s) = has_digit s.
Proof.
  induction s as [|a s IH]; [done|]. cbn [Py.remove_char].
  destruct (Ascii.eqb a ",") eqn:E.
  - rewrite IH. cbn [has_digit]. destruct (Py.is_digit a) eqn:Ed; [|done].
    apply is_digit_not_comma in Ed. congruence.
  - cbn [has_digit]. by rewrite IH.
Qed.

Lemma nan_literal_no_digit s : Py.is_nan_literal s = true → has_digit s = false.
Proof.
  unfold Py.is_nan_literal. intros H%bool_decide_eq_true.
  rewrite <- has_digit_strip, <- has_digit_lower.
  rewrite !elem_of_cons, elem_of_nil in H.
  destruct H as [->|[->|[->|[]]]]; reflexivity.
Qed.

Lemma num_start_scanning c : scanning_digits (Main.num_start c).
Proof.
  unfold Main.num_start. destruct (Py.is_digit c) eqn:E.
  - cbn. by rewrite E.
  - by destruct (Ascii.eqb c "-").
Qed.

Lemma findall_nums_go_digit s : ∀ st num,
  scanning_digits st → num ∈ Main.findall_nums_go st s → has_digit num = true.
Proof.
  induction s as [|c s IH]; intros st num Hst Hin.
  - destruct st as [| |cur|cur]; cbn in Hin; try (by apply elem_of_nil in Hin);
      apply list_elem_of_singleton in Hin as ->; by rewrite has_digit_rev.
  - destruct st as [| |cur|cur]; cbn [Main.findall_nums_go] in Hin.
    + eapply IH; [apply num_start_scanning|exact Hin].
    + destruct (Py.is_digit c) eqn:E.
      * eapply IH; [|exact Hin]. cbn. by rewrite E.
      * eapply IH; [apply num_start_scanning|exact Hin].
    + destruct (Py.is_digit c || Ascii.eqb c ",").
      * eapply IH; [|exact Hin]. cbn in Hst |- *. rewrite Hst. apply orb_true_r.
      * destruct (Ascii.eqb c ".").
        -- eapply IH; [|exact Hin]. cbn in Hst |- *. rewrite Hst. apply orb_true_r.
        -- apply elem_of_cons in Hin as [->|Hin]; [by rewrite has_digit_rev|].
           eapply IH; [apply num_start_scanning|exact Hin].
    + destruct (Py.is_digit c).
      * eapply IH; [|exact Hin]. cbn in Hst |- *. rewrite Hst. apply orb_true_r.
      * apply elem_of_cons in Hin as [->|Hin]; [by rewrite has_digit_rev|].
        eapply IH; [apply num_start_scanning|exact Hin].
Qed.

Lemma findall_nums_digit line num :
  num ∈ Main.findall_nums line → has_digit num = true.
Proof. by apply findall_nums_go_digit. Qed.

Section imports.
Context (float_number : string → option number) (float_repr : Q → string)
        (strptime : string → string → option date)
        (pd_to_datetime : string → option pydate)
        (pd_read_csv pd_read_excel : string → result DataFrame)
        (pdf_pages : string → list (option string)).

Abbreviation upload_preview :=
  (Main.upload_preview float_number float_repr strptime pd_to_datetime pd_read_csv pd_read_excel).
Abbreviation upload_commit :=
  (Main.upload_commit float_number float_repr strptime pd_to_datetime pd_read_csv pd_read_excel).
Abbreviation pdf_preview :=
  (Main.pdf_preview float_number float_repr strptime pd_to_datetime pdf_pages).
Abbreviation pdf_commit :=
  (Main.pdf_commit float_number float_repr strptime pd_to_datetime pdf_pages).
Abbreviation parse_pdf :=
  (Main.parse_pdf_transactions_text float_number float_repr strptime pd_to_datetime).


Lemma pdf_line_ok line r :
  Main.parse_pdf_line float_number float_repr strptime pd_to_datetime line = Some r →
  nonneg (amount r)
  ∧ ((direction r = "credit" ∧ category r = "revenue")
     ∨ (direction r = "debit" ∧ category r = "expense"))
  ∧ (String.length (description r) ≤ 255)%nat
  ∧ Main.date_re_search line = true.
Proof.
  unfold Main.parse_pdf_line. destruct (Main.date_re_search line); [|done]. cbn [negb].
  destruct (Py.split line) as [|raw_date ?]; [done|].
  destruct (Main._parse_date_any _ _ _ _) as [d|]; [|done].
  destruct (last _) as [num|] eqn:El; [|done].
  destruct (Main.py_float _ _) as [amt|] eqn:Ea; [|done].
  intros H. injection H as <-. cbn [amount direction category description].
  split_and!; [| |apply (slice_to_length 255)|done].
  - apply fabs_nonneg. intros ->. apply py_float_NaN, nan_literal_no_digit in Ea.
    apply last_Some_elem_of, findall_nums_digit in El.
    rewrite has_digit_remove_comma in Ea. congruence.
  - unfold Main.pdf_direction. destruct (_ || _); [by right|by left].
Qed.

Lemma pdf_rows_ok pages :
  Forall (λ r, (nonneg (amount r) ∨ amount r = NaN)
               ∧ (direction r = "credit" ∨ direction r = "debit"))
    (parse_pdf pages).
Proof.
  apply Forall_forall. intros r Hr. unfold Main.parse_pdf_transactions_text in Hr.
  apply list_elem_of_omap in Hr as (line & _ & Hl).
  destruct (pdf_line_ok _ _ Hl) as (? & [[? _]|[? _]] & _); auto.
Qed.


(** X17: when [pdf_commit] succeeds with [n] rows inserted, [n] is not 0,
    and the store changes as for an upload: only the transactions of the
    business grow, by [n] rows of the stored shape, and one PDF_COMMIT
    record is added to the audit trail. *)
Theorem pdf_commit_effect bid request file db uid db' n :
  pdf_commit bid request file db uid = Ok (db', n) →
  import_effect "PDF_COMMIT" request file bid uid db db' n
  ∧ (0 < n)%nat
  ∧ ∃ biz, biz ∈ businesses db ∧ Models.id biz = bid ∧ Models.owner_user_id biz = uid.
Proof.
  unfold Main.pdf_commit. intros H.
  pose proof (require_business_owner_spec db bid uid) as Ho.
  destruct (Main.require_business_owner db bid uid) as [biz|]; [|done].
  cbn [mbind result_bind] in H.
  destruct (negb (Main.is_pdf_name file)); [done|].
  pose proof (pdf_rows_ok (pdf_pages (Main.content file))) as Hok.
  destruct (parse_pdf (pdf_pages (Main.content file))) as [|r rows] eqn:Er; [done|].
  destruct (Main.add_transactions db bid (r :: rows)) as [db1|] eqn:Ea; [|done].
  cbn [mbind result_bind] in H. injection H as <- <-.
  split_and!; [|cbn [length]; lia|by exists biz].
  by apply (import_effect_intro "PDF_COMMIT" request file bid uid db db1 (r :: rows)).
Qed.

(** X18: a preview announces the commit of the same file by the same
    user, up to the store.  When [upload_preview] succeeds it shows the
    first rows, 10 at most, of the rows [normalize_transactions] returns
    for the file; [upload_commit] then inserts as many rows as the preview
    detected when every row has a date and a finite amount, and it fails
    in [db.commit()] when a row has the date NaT, which the preview shows
    as the text "NaT".  Whenever [upload_preview] fails, [upload_commit]
    fails with the same error; and when [upload_commit] fails with an error
    that is not one of [upload_preview], it is the error of the store, after
    a preview that succeeds, on rows of which one has no date or no finite
    amount.  When [pdf_preview] succeeds, [pdf_commit] fails with the 400
    error when the preview detected no row, and otherwise inserts the rows
    it detected, as it does when each has a date and a finite amount, or
    fails in [db.commit()]. *)
Theorem preview_announces_commit bid request file db uid :
  (∀ p, upload_preview bid file db uid = Ok p →
        length (Main.preview_rows p) = (Main.detected_rows p `min` 10)%nat
        ∧ ∃ rows,
            (Main.read_file_to_df pd_read_csv pd_read_excel
               (Main.filename file) (Main.content file)
             ≫= Main.normalize_transactions float_number float_repr strptime pd_to_datetime)
            = Ok rows
            ∧ length rows = Main.detected_rows p
            ∧ Main.preview_rows p = Main.to_preview_row <$> take 10 rows
            ∧ (Forall storable rows →
               ∃ db', upload_commit bid request file db uid = Ok (db', Main.detected_rows p))
            ∧ (∀ r, r ∈ rows → txn_date r = NaT →
               upload_commit bid request file db uid = Err SQLAlchemyError))
  ∧ (∀ e, upload_preview bid file db uid = Err e →
          upload_commit bid request file db uid = Err e)
  ∧ (∀ e, upload_commit bid request file db uid = Err e →
          upload_preview bid file db uid = Err e
          ∨ (e = SQLAlchemyError
             ∧ ∃ p rows,
                 upload_preview bid file db uid = Ok p
                 ∧ (Main.read_file_to_df pd_read_csv pd_read_excel
                      (Main.filename file) (Main.content file)
                    ≫= Main.normalize_transactions float_number float_repr strptime
                         pd_to_datetime)
                   = Ok rows
                 ∧ ¬ Forall storable rows))
  ∧ (∀ p, pdf_preview bid file db uid = Ok p →
        length (Main.preview_rows p) = (Main.detected_rows p `min` 10)%nat
        ∧ Main.detected_rows p = length (parse_pdf (pdf_pages (Main.content file)))
        ∧ if decide (Main.detected_rows p = 0)%nat
          then pdf_commit bid request file db uid
               = Err (HTTPException 400
                        "No transactions detected. PDF might be scanned image (needs OCR).")
          else (Forall storable (parse_pdf (pdf_pages (Main.content file))) →
                ∃ db', pdf_commit bid request file db uid = Ok (db', Main.detected_rows p))
               ∧ ((∃ db', pdf_commit bid request file db uid = Ok (db', Main.detected_rows p))
                  ∨ pdf_commit bid request file db uid = Err SQLAlchemyError)).
Proof.
  assert (Hadd : ∀ rows,
            (Forall storable rows → ∃ db1, Main.add_transactions db bid rows = Ok db1)
            ∧ (¬ Forall storable rows → Main.add_transactions db bid rows = Err SQLAlchemyError)).
  { intros rows. split.
    - intros H. by apply add_transactions_storable.
    - intros H. destruct (Main.add_transactions db bid rows) as [db1|e] eqn:E.
      + destruct H. apply (add_transactions_storable db bid). by exists db1.
      + by apply add_transactions_Err in E as [-> _]. }
  unfold Main.upload_preview, Main.upload_commit, Main.pdf_preview, Main.pdf_commit.
  destruct (Main.require_business_owner db bid uid) as [biz|e0]; cbn [mbind result_bind].
  2:{ split_and!; [intros p H; discriminate H| | |intros p H; discriminate H].
      - intros e H. injection H as ->. reflexivity.
      - intros e H. injection H as ->. by left. }
  split_and!.
  - intros p H.
    destruct (Main.read_file_to_df _ _ _ _) as [df|]; [|done]. cbn [mbind result_bind] in *.
    destruct (Main.normalize_transactions _ _ _ _ df) as [rows|]; [|done].
    cbn [mbind result_bind] in *. injection H as <-.
    cbn [Main.preview_rows Main.detected_rows].
    split; [rewrite length_fmap, length_take; lia|].
    exists rows. destruct (Hadd rows) as [Hok Hbad].
    assert (Hfail : ¬ Forall storable rows →
              (Main.add_transactions db bid rows ≫= λ db0,
                 Ok (log_audit db0 request (Some uid) (Some bid) "UPLOAD_COMMIT"
                       (Some "transaction") None
                       [("filename", Main.json_filename file);
                        ("inserted", Audit.JInt (Z.of_nat (length rows)))], length rows))
              = Err SQLAlchemyError).
    { intros Hn. by rewrite (Hbad Hn). }
    split_and!; [done|done|done| |].
    + intros Hs. destruct (Hok Hs) as [db1 ->]. cbn [mbind result_bind]. by eexists.
    + intros r Hr Hnat. apply Hfail. intros Hs.
      eapply Forall_forall in Hs as [[d Hd] _]; [|exact Hr]. congruence.
  - intros e.
    destruct (Main.read_file_to_df _ _ _ _) as [df|]; cbn [mbind result_bind];
      [|intros H; injection H as ->; reflexivity].
    destruct (Main.normalize_transactions _ _ _ _ df) as [rows|]; cbn [mbind result_bind];
      [|intros H; injection H as ->; reflexivity].
    intros H; discriminate H.
  - intros e.
    destruct (Main.read_file_to_df _ _ _ _) as [df|]; cbn [mbind result_bind];
      [|intros H; injection H as ->; by left].
    destruct (Main.normalize_transactions _ _ _ _ df) as [rows|]; cbn [mbind result_bind];
      [|intros H; injection H as ->; by left].
    destruct (Main.add_transactions db bid rows) as [db1|e1] eqn:Ea;
      cbn [mbind result_bind]; [done|].
    intros H. injection H as <-. right.
    apply add_transactions_Err in Ea as [-> Hn]. split; [done|].
    eexists _, rows. split_and!; [reflexivity|reflexivity|exact Hn].
  - intros p H. destruct (negb (Main.is_pdf_name file)); [done|].
    destruct (parse_pdf (pdf_pages (Main.content file))) as [|r rows].
    + injection H as <-. cbn [Main.preview_rows Main.detected_rows length].
      split_and!; [done|done|]. by rewrite decide_True by done.
    + injection H as <-. cbn [Main.preview_rows Main.detected_rows].
      split_and!; [|done|].
      * change (length (Main.to_preview_row <$> take 10 (r :: rows))
                = (length (r :: rows) `min` 10)%nat).
        rewrite length_fmap, length_take. lia.
      * rewrite decide_False by (cbn [length]; lia).
        destruct (Hadd (r :: rows)) as [Hok Hbad]. split.
        -- intros Hs. destruct (Hok Hs) as [db1 ->]. cbn [mbind result_bind]. by eexists.
        -- destruct (Main.add_transactions db bid (r :: rows)) as [db1|e] eqn:Ea;
             cbn [mbind result_bind]; [left; by eexists|right].
           by apply add_transactions_Err in Ea as [-> _].
Qed.

(** X19: [parse_pdf_transactions_text] returns at most one row per text
    line; every row comes from a line that starts with a date, has an
    amount that is not negative, a description of at most 255 characters,
    and is either a credit of category revenue or a debit of category
    expense. *)
Theorem pdf_rows_schema pages :
  (length (parse_pdf pages) ≤ length (Main.pdf_lines pages))%nat
  ∧ ∀ r, r ∈ parse_pdf pages →
      nonneg (amount r)
      ∧ ((direction r = "credit" ∧ category r = "revenue")
         ∨ (direction r = "debit" ∧ category r = "expense"))
      ∧ (String.length (description r) ≤ 255)%nat
      ∧ ∃ line, line ∈ Main.pdf_lines pages ∧ Main.date_re_search line = true
                ∧ Main.parse_pdf_line float_number float_repr strptime pd_to_datetime line
                  = Some r.
Proof.
  unfold Main.parse_pdf_transactions_text. split; [apply omap_length|].
  intros r (line & Hin & Hl)%list_elem_of_omap.
  destruct (pdf_line_ok _ _ Hl) as (Ha & Hd & Hlen & Hre).
  split_and!; [done..|]. by exists line.
Qed.

(** X20: when no business with the given id is owned by the caller, every
    endpoint over the store fails with the same error and does nothing
    else: 404 when there is no business with that id, 403 otherwise. *)
Theorem only_the_owner_is_served bid request file months db uid :
  (∀ biz, biz ∈ businesses db → Models.id biz = bid → Models.owner_user_id biz ≠ uid) →
  ∃ e, (e = not_found ∨ e = not_allowed)
       ∧ (e = not_found ↔ ∀ biz, biz ∈ businesses db → Models.id biz ≠ bid)
       ∧ upload_preview bid file db uid = Err e
       ∧ upload_commit bid request file db uid = Err e
       ∧ pdf_preview bid file db uid = Err e
       ∧ pdf_commit bid request file db uid = Err e
       ∧ Main.kpis_endpoint bid db uid = Err e
       ∧ Main.kpis_monthly_endpoint bid db uid = Err e
       ∧ Main.score_endpoint bid db uid = Err e
       ∧ Main.risks_endpoint bid db uid = Err e
       ∧ Main.recommendations_endpoint bid db uid = Err e
       ∧ Main.forecast_endpoint bid months db uid = Err e.
Proof.
  intros Hno.
  unfold Main.upload_preview, Main.upload_commit, Main.pdf_preview, Main.pdf_commit,
    Main.forecast_endpoint, Main.kpis_endpoint, Main.kpis_monthly_endpoint,
    Main.score_endpoint, Main.risks_endpoint, Main.recommendations_endpoint,
    Main.endpoint.
  pose proof (require_business_owner_spec db bid uid) as Ho.
  destruct (Main.require_business_owner db bid uid) as [biz|e].
  - destruct Ho as (Hin & Hid & How). by destruct (Hno biz Hin Hid).
  - exists e. cbn [mbind result_bind]. split_and!; try reflexivity.
    + destruct Ho as [[-> _]|[-> _]]; [by left|by right].
    + destruct Ho as [[-> Hnone]|[-> (b & Hb & Hid & _)]]; split; try done.
      intros Hnone. by destruct (Hnone b Hb).
Qed.
End imports.


(** X17 on the store [acme_db]: its owner commits a statement of one
    line. *)
Lemma pdf_commit_effect_witness :
  let p := outcome_of acme_db
             (Main.pdf_commit Lib.float_number Lib.repr Lib.strptime Lib.to_datetime
                one_page 1 browser statement acme_db 7) in
  Main.pdf_commit Lib.float_number Lib.repr Lib.strptime Lib.to_datetime
    one_page 1 browser statement acme_db 7 = Ok (p.1, p.2)
  ∧ import_effect "PDF_COMMIT" browser statement 1 7 acme_db p.1 p.2
  ∧ (0 < p.2)%nat.
Proof.
  intros p.
  assert (H : Main.pdf_commit Lib.float_number Lib.repr Lib.strptime Lib.to_datetime
                one_page 1 browser statement acme_db 7 = Ok (p.1, p.2))
    by (vm_compute; reflexivity).
  destruct (pdf_commit_effect Lib.float_number Lib.repr Lib.strptime Lib.to_datetime
              one_page 1 browser statement acme_db 7 p.1 p.2 H) as (He & Hn & _).
  split_and!; [exact H|exact He|exact Hn].
Defined.

(** X18 on the store [acme_db] and the sheet: the preview detects two rows
    and the commit inserts two. *)
Lemma preview_announces_commit_witness :
  ∃ pv, Main.upload_preview Lib.float_number Lib.repr Lib.strptime Lib.to_datetime
          read_signed_frame read_signed_frame 1 sheet acme_db 7 = Ok pv
        ∧ Main.detected_rows pv = 2%nat
        ∧ ∃ db', Main.upload_commit Lib.float_number Lib.repr Lib.strptime Lib.to_datetime
                   read_signed_frame read_signed_frame 1 browser sheet acme_db 7
                 = Ok (db', 2%nat).
Proof.
  assert (H : ∃ pv, Main.upload_preview Lib.float_number Lib.repr Lib.strptime Lib.to_datetime
                      read_signed_frame read_signed_frame 1 sheet acme_db 7 = Ok pv
                    ∧ Main.detected_rows pv = 2%nat)
    by (eexists; split; vm_compute; reflexivity).
  destruct H as (pv & Hp & Hn). exists pv. split_and!; [exact Hp|exact Hn|].
  destruct (proj1 (preview_announces_commit Lib.float_number Lib.repr Lib.strptime Lib.to_datetime
                     read_signed_frame read_signed_frame one_page 1 browser sheet acme_db 7)
              pv Hp) as (_ & rows & Hrows & _ & _ & Hc & _).
  rewrite Hn in Hc. apply Hc.
  vm_compute in Hrows. injection Hrows as <-.
  repeat constructor; eexists; reflexivity.
Defined.

(** A sheet that reads as [missing_date_frame]: the preview succeeds and
    announces three rows, two of them with the date "NaT"; the commit of
    the same sheet fails in the store. *)
Lemma preview_of_a_missing_date :
  (Main.detected_rows
     <$> Main.upload_preview Lib.float_number Lib.repr Lib.strptime Lib.to_datetime
           read_missing_date_frame read_missing_date_frame 1 sheet acme_db 7) = Ok 3%nat
  ∧ (λ p, Main.p_txn_date <$> Main.preview_rows p)
      <$> Main.upload_preview Lib.float_number Lib.repr Lib.strptime Lib.to_datetime
            read_missing_date_frame read_missing_date_frame 1 sheet acme_db 7
    = Ok ["2024-01-05"; "NaT"; "NaT"]
  ∧ Main.upload_commit Lib.float_number Lib.repr Lib.strptime Lib.to_datetime
      read_missing_date_frame read_missing_date_frame 1 browser sheet acme_db 7
    = Err SQLAlchemyError.
Proof. split_and!; vm_compute; reflexivity. Qed.

(** X20 on the store [acme_db]: the user 8 asks for the business of the
    user 7. *)
Lemma only_the_owner_is_served_witness :
  (∀ biz, biz ∈ businesses acme_db → Models.id biz = 1%Z → Models.owner_user_id biz ≠ 8%Z)
  ∧ Main.kpis_endpoint 1 acme_db 8 = Err not_allowed
  ∧ Main.upload_commit Lib.float_number Lib.repr Lib.strptime Lib.to_datetime
      read_signed_frame read_signed_frame 1 browser sheet acme_db 8 = Err not_allowed.
Proof.
  assert (H : ∀ biz, biz ∈ businesses acme_db → Models.id biz = 1%Z
                     → Models.owner_user_id biz ≠ 8%Z).
  { intros biz Hin _. apply list_elem_of_singleton in Hin. rewrite Hin. discriminate. }
  split; [exact H|].
  destruct (only_the_owner_is_served Lib.float_number Lib.repr Lib.strptime Lib.to_datetime
              read_signed_frame read_signed_frame one_page 1 browser sheet 3 acme_db 8 H)
    as (e & He & Hiff & _ & Hc & _ & _ & Hk & _).
  assert (E : e = not_allowed).
  { destruct He as [He|He]; [|exact He]. exfalso.
    apply (proj1 Hiff He acme); [apply list_elem_of_singleton; reflexivity|reflexivity]. }
  rewrite E in Hk, Hc. split; [exact Hk|exact Hc].
Defined.

(** X21: for the owner of a business without transactions, [kpis] reports
    zeros and no expense ratio, [kpis_monthly] an empty series, [score] 0
    with the rating "No Data", [risks] the single flag no_data,
    [recommendations] the advice to upload transactions, and [forecast] no
    data, whatever the horizon. *)
Theorem metrics_without_transactions db bid uid biz months :
  Main.require_business_owner db bid uid = Ok biz →
  Main.transactions_of db bid = [] →
  Main.kpis_endpoint bid db uid
  = Ok {| Main.total_transactions := 0; Main.total_inflow := 0; Main.total_outflow := 0;
          Main.net_cashflow := 0; Main.total_revenue := 0; Main.total_expenses := 0;
          Main.net_profit_simple := 0; Main.expense_ratio := None |}
  ∧ Main.kpis_monthly_endpoint bid db uid = Ok []
  ∧ Main.score_endpoint bid db uid
    = Ok {| Main.health_score := 0; Main.rating := "No Data" |}
  ∧ Main.risks_endpoint bid db uid
    = Ok [ {| Main.type := "no_data"; Main.severity := "high";
              Main.message := "No transactions uploaded" |} ]
  ∧ Main.recommendations_endpoint bid db uid
    = Ok ["Upload transactions to get recommendations"]
  ∧ Main.forecast_endpoint bid months db uid = Ok Main.NoData.
Proof.
  intros Ho Ht.
  unfold Main.forecast_endpoint, Main.kpis_endpoint, Main.kpis_monthly_endpoint,
    Main.score_endpoint, Main.risks_endpoint, Main.recommendations_endpoint, Main.endpoint.
  rewrite Ho, Ht. cbn [mbind result_bind]. split_and!; reflexivity.
Qed.

(** X21 on the store [acme_db], which holds no transaction of the
    business 1. *)
Lemma metrics_without_transactions_witness :
  Main.require_business_owner acme_db 1 7 = Ok acme
  ∧ Main.transactions_of acme_db 1 = []
  ∧ Main.score_endpoint 1 acme_db 7
    = Ok {| Main.health_score := 0; Main.rating := "No Data" |}
  ∧ Main.forecast_endpoint 1 3 acme_db 7 = Ok Main.NoData.
Proof.
  assert (H1 : Main.require_business_owner acme_db 1 7 = Ok acme) by reflexivity.
  assert (H2 : Main.transactions_of acme_db 1 = []) by reflexivity.
  destruct (metrics_without_transactions acme_db 1 7 acme 3 H1 H2)
    as (_ & _ & Hs & _ & _ & Hf).
  split_and!; [exact H1|exact H2|exact Hs|exact Hf].
Defined.

(** ** [utils.py] *)

Section utils_columns.
Context (float_repr : Q → string) (pd_to_numeric : cell → option number)
        (pd_to_datetime : list cell → list (option date)).
Abbreviation unormalize :=
  (Utils.normalize_transactions float_repr pd_to_numeric pd_to_datetime).

Lemma utils_normalize_Ok_inv df0 out det :
  unormalize df0 = Ok (out, det) →
  det = Utils.detect df0
  ∧ truthy (Utils.date_col det) = true
  ∧ truthy (Utils.category_col det) = true
  ∧ ∃ dirs amts ds des cs,
      Utils.direction_amount pd_to_numeric (Utils.trim_labels df0) det = Ok (dirs, amts)
      ∧ out = frame_rows ds des cs dirs amts.
Proof.
  intros H. unfold Utils.normalize_transactions in H.
  destruct (truthy (Utils.date_col (Utils.detect df0))) eqn:Ed; [|discriminate].
  cbv zeta in H. cbn [negb] in H.
  destruct (Utils.direction_amount pd_to_numeric _ _) as [[dirs amts]|e] eqn:Eda;
    cbn [mbind result_bind] in H; [|discriminate].
  destruct (existsb _ _); [discriminate|].
  destruct (truthy (Utils.category_col (Utils.detect df0))) eqn:Ec; [|discriminate].
  cbn [negb] in H. injection H as <- <-.
  split_and!; [done..|]. by do 5 eexists.
Qed.

Lemma side_figures_not_NaN df col i v :
  side_figures pd_to_numeric df col !! i = Some v → v ≠ NaN.
Proof.
  unfold side_figures, Utils.numeric_column. destruct (truthy col).
  - intros (x & -> & _)%list_lookup_fmap_Some.
    by destruct (default (Num 0) (pd_to_numeric x)).
  - intros H. apply lookup_replicate in H as [-> _]. done.
Qed.

(** X22: [normalize_transactions] of [utils.py] succeeds only on a frame
    in which it detects a date column, a category column, and an amount, a
    debit or a credit column; without a category column it never returns. *)
Theorem utils_needs_three_columns df0 out det :
  unormalize df0 = Ok (out, det) →
  det = Utils.detect df0
  ∧ truthy (Utils.date_col det) = true
  ∧ truthy (Utils.category_col det) = true
  ∧ (truthy (Utils.amount_col det) = true ∨ truthy (Utils.debit_col det) = true
     ∨ truthy (Utils.credit_col det) = true).
Proof.
  intros (-> & Hd & Hc & dirs & amts & _ & _ & _ & Hda & _)%utils_normalize_Ok_inv.
  split_and!; [done..|].
  unfold Utils.direction_amount in Hda.
  destruct (truthy (Utils.amount_col _)); [by left|].
  destruct (truthy (Utils.debit_col _)); [right; by left|].
  destruct (truthy (Utils.credit_col _)); [right; by right|]. discriminate.
Qed.

(** X23: in [utils.py], without an amount column, a row with the credit
    figure [c] and the debit figure [d] (0 for a missing column or cell)
    has the amount [|c - d|], and is a credit exactly when [d < c]: a row
    with equal figures is a debit of amount 0.  This is so of figures that
    are numbers; the figures are never NaN, and for all of them, infinite
    ones too, the amount is [abs(c - d)] and the row is a credit exactly
    when [c > d] holds of the floats. *)
Theorem utils_debit_credit_columns df0 out det i t :
  unormalize df0 = Ok (out, det) →
  truthy (Utils.amount_col det) = false → out !! i = Some t →
  ∃ c d,
    side_figures pd_to_numeric (Utils.trim_labels df0) (Utils.credit_col det) !! i = Some c
    ∧ side_figures pd_to_numeric (Utils.trim_labels df0) (Utils.debit_col det) !! i = Some d
    ∧ c ≠ NaN ∧ d ≠ NaN
    ∧ amount t = fabs (fsub c d)
    ∧ (direction t = "credit" ↔ fgt c d = true)
    ∧ (direction t = "debit" ↔ fgt c d = false)
    ∧ (∀ qc qd, c = Finite qc → d = Finite qd →
         amount t = Finite (Qabs (qc - qd))
         ∧ (direction t = "credit" ↔ (qd < qc)%Q)
         ∧ (direction t = "debit" ↔ (qc <= qd)%Q)).
Proof.
  intros (-> & _ & _ & dirs & amts & ds & des & cs & Hda & ->)%utils_normalize_Ok_inv Ha Hi.
  apply frame_rows_lookup in Hi as (_ & _ & _ & Hd & Hamt).
  unfold Utils.direction_amount in Hda. rewrite Ha in Hda.
  destruct (negb _); [discriminate|].
  fold (side_figures pd_to_numeric (Utils.trim_labels df0)
          (Utils.debit_col (Utils.detect df0))) in Hda.
  fold (side_figures pd_to_numeric (Utils.trim_labels df0)
          (Utils.credit_col (Utils.detect df0))) in Hda.
  injection Hda as <- <-.
  apply lookup_zip_with_Some in Hd as (c & d & Hdir & Hc & Hdd).
  apply lookup_zip_with_Some in Hamt as (c' & d' & Hamt & Hc' & Hdd').
  assert (c' = c) as -> by congruence. assert (d' = d) as -> by congruence.
  assert (Hcd : direction t = "credit" ↔ fgt c d = true).
  { rewrite Hdir. by destruct (fgt c d). }
  assert (Hdd0 : direction t = "debit" ↔ fgt c d = false).
  { rewrite Hdir. by destruct (fgt c d). }
  exists c, d. split_and!; [done|done| | |done|done|done|].
  - eapply side_figures_not_NaN, Hc.
  - eapply side_figures_not_NaN, Hdd.
  - intros qc qd -> ->. split_and!; [done| |].
    + rewrite Hcd. cbn [fgt]. destruct (Qle_bool qc qd) eqn:E; cbn [negb].
      * apply Qle_bool_iff in E. split; [done|]. intros Hlt. by apply Qlt_not_le in Hlt.
      * split; [|done]. intros _. apply Qnot_le_lt. intros Hle%Qle_bool_iff. congruence.
    + rewrite Hdd0. cbn [fgt]. destruct (Qle_bool qc qd) eqn:E; cbn [negb].
      * apply Qle_bool_iff in E. done.
      * split; [done|]. intros Hle%Qle_bool_iff. congruence.
Qed.
End utils_columns.

(** X22 on [ledger_frame]. *)
Lemma utils_needs_three_columns_witness :
  let out := utils_rows_of (Lib.utils_normalize_transactions ledger_frame) in
  Lib.utils_normalize_transactions ledger_frame = Ok (out, Utils.detect ledger_frame)
  ∧ truthy (Utils.date_col (Utils.detect ledger_frame)) = true
  ∧ truthy (Utils.category_col (Utils.detect ledger_frame)) = true.
Proof.
  intros out.
  assert (H : Lib.utils_normalize_transactions ledger_frame
              = Ok (out, Utils.detect ledger_frame)) by (vm_compute; reflexivity).
  destruct (utils_needs_three_columns Lib.repr Lib.to_numeric Lib.to_datetime_series
              ledger_frame out (Utils.detect ledger_frame) H) as (_ & Hd & Hc & _).
  split_and!; [exact H|exact Hd|exact Hc].
Defined.

(** X23 on the first row of [two_sided_frame]: a withdrawal of 300 and no
    deposit. *)
Lemma utils_debit_credit_columns_witness :
  let out := utils_rows_of (Lib.utils_normalize_transactions two_sided_frame) in
  Lib.utils_normalize_transactions two_sided_frame = Ok (out, Utils.detect two_sided_frame)
  ∧ truthy (Utils.amount_col (Utils.detect two_sided_frame)) = false
  ∧ ∃ t, out !! 0%nat = Some t ∧ direction t = "debit" ∧ same_float (amount t) (Finite 300).
Proof.
  intros out.
  assert (H1 : Lib.utils_normalize_transactions two_sided_frame
               = Ok (out, Utils.detect two_sided_frame)) by (vm_compute; reflexivity).
  assert (H2 : truthy (Utils.amount_col (Utils.detect two_sided_frame)) = false)
    by (vm_compute; reflexivity).
  assert (H3 : ∃ t, out !! 0%nat = Some t) by (eexists; vm_compute; reflexivity).
  split_and!; [exact H1|exact H2|].
  destruct H3 as [t Ht]. exists t. split; [exact Ht|].
  destruct (utils_debit_credit_columns Lib.repr Lib.to_numeric Lib.to_datetime_series
              two_sided_frame out _ 0%nat t H1 H2 Ht)
    as (c & d & Hc & Hd & _ & _ & Ha & _ & Hdir & _).
  vm_compute in Hc. injection Hc as <-. vm_compute in Hd. injection Hd as <-.
  split; [apply Hdir; by vm_compute|rewrite Ha; vm_compute; reflexivity].
Defined.

Lemma disjoint_names (l1 l2 : list string) s :
  (∀ x, x ∈ l1 → x ∉ l2) → bool_decide (s ∈ l1) && bool_decide (s ∈ l2) = false.
Proof.
  intros H. apply andb_false_iff.
  destruct (decide (s ∈ l1)) as [H1|H1].
  - right. apply bool_decide_eq_false. by apply H.
  - left. by apply bool_decide_eq_false.
Qed.

Lemma names_apart (l1 l2 : list string) :
  forallb (λ x, negb (bool_decide (x ∈ l2))) l1 = true → ∀ x, x ∈ l1 → x ∉ l2.
Proof.
  intros H x Hx. rewrite forallb_forall in H. apply list_elem_of_In, H in Hx.
  apply negb_true_iff in Hx. by apply bool_decide_eq_false in Hx.
Qed.

(** X24: no category is in two of the classes of [is_revenue], [is_cogs]
    and [is_expense] of [utils.py]; and every transaction the KPIs of
    [main.py] count as revenue by its category is a revenue of
    [utils.py]. *)
Theorem category_classes_disjoint (c : option string) :
  Utils.is_revenue c && Utils.is_cogs c = false
  ∧ Utils.is_revenue c && Utils.is_expense c = false
  ∧ Utils.is_cogs c && Utils.is_expense c = false
  ∧ (∀ t, Main.is_revenue t = true → Utils.is_revenue (Models.category t) = true).
Proof.
  unfold Utils.is_revenue, Utils.is_cogs, Utils.is_expense. split_and!.
  - apply disjoint_names, names_apart. by vm_compute.
  - apply disjoint_names, names_apart. by vm_compute.
  - apply disjoint_names, names_apart. by vm_compute.
  - intros t H. unfold Main.is_revenue in H. apply String.eqb_eq in H.
    apply bool_decide_eq_true. unfold Utils.norm_category.
    rewrite <- strip_lower, H. by apply (bool_decide_unpack _).
Qed.

Lemma classified_figures t :
  credit_or_debit t →
  classified t = (if Main.is_credit t then Models.amount t else 0%Q,
                  if Main.is_debit t then Models.amount t else 0%Q).
Proof.
  unfold classified, Utils.classify_amounts, Main.is_credit, Main.is_debit. cbn [default].
  intros [-> | ->]; by vm_compute.
Qed.

(** X25: for stored directions "credit" or "debit", [classify_amounts]
    splits each amount into an inflow and an outflow of which one is 0 and
    whose sum is the amount, and the inflows and the outflows add up to the
    inflow and the outflow of the KPIs of [main.py]. *)
Theorem classified_sums txns :
  Forall credit_or_debit txns →
  (Main.inflow_of txns == sumQ ((λ t, (classified t).1) <$> txns))%Q
  ∧ (Main.outflow_of txns == sumQ ((λ t, (classified t).2) <$> txns))%Q
  ∧ Forall (λ t, ((classified t).1 + (classified t).2 == Models.amount t)%Q
                 ∧ ((classified t).1 = 0%Q ∨ (classified t).2 = 0%Q)) txns.
Proof.
  unfold Main.inflow_of, Main.outflow_of.
  induction 1 as [|t txns Ht _ (IH1 & IH2 & IH3)].
  - split_and!; [by vm_compute..|constructor].
  - rewrite !sum_amounts_cons, IH1, IH2. cbn [fmap list_fmap]. unfold sumQ at 2 4.
    cbn [foldr]. fold (sumQ ((λ t, (classified t).1) <$> txns)).
    fold (sumQ ((λ t, (classified t).2) <$> txns)).
    rewrite (classified_figures t Ht). cbn [fst snd].
    split_and!; [reflexivity|reflexivity|].
    constructor; [|done]. cbn beta. rewrite (classified_figures t Ht). cbn [fst snd].
    unfold Main.is_credit, Main.is_debit.
    destruct Ht as [-> | ->].
    + change (String.eqb (Py.lower "credit") "credit") with true.
      change (String.eqb (Py.lower "credit") "debit") with false.
      split; [ring|by right].
    + change (String.eqb (Py.lower "debit") "credit") with false.
      change (String.eqb (Py.lower "debit") "debit") with true.
      split; [ring|by left].
Qed.

(** X25 on [cent_txns]. *)
Lemma classified_sums_witness :
  Forall credit_or_debit cent_txns
  ∧ (Main.inflow_of cent_txns == sumQ ((λ t, (classified t).1) <$> cent_txns))%Q
  ∧ (Main.outflow_of cent_txns == sumQ ((λ t, (classified t).2) <$> cent_txns))%Q.
Proof.
  assert (H : Forall credit_or_debit cent_txns).
  { repeat constructor; first [by left | by right]. }
  destruct (classified_sums cent_txns H) as (H1 & H2 & _).
  split_and!; [exact H|exact H1|exact H2].
Defined.

(** ** [routes_invoice_ocr.py]: the fallback total and the vendor name *)

Section invoice_text.
Import InvoiceOcr.

Lemma max_by_value_foldl rest : ∀ g,
  let r := foldl (λ best h, if Qle_bool (decimal_value h.1 h.2) (decimal_value best.1 best.2)
                            then best else h) g rest in
  r ∈ g :: rest ∧ ∀ h, h ∈ g :: rest → (found_value h <= found_value r)%Q.
Proof.
  unfold found_value.
  induction rest as [|a rest IH]; intros g; cbn [foldl].
  - split; [apply elem_of_cons; by left|].
    intros h ->%list_elem_of_singleton. apply Qle_refl.
  - destruct (Qle_bool (decimal_value a.1 a.2) (decimal_value g.1 g.2)) eqn:E.
    + destruct (IH g) as [Hin Hmax]. cbn zeta in Hin, Hmax. split.
      * apply elem_of_cons in Hin as [->|Hin]; [apply elem_of_cons; by left|].
        apply elem_of_cons. right. apply elem_of_cons. by right.
      * intros h [->|[->|Hh]%elem_of_cons]%elem_of_cons.
        -- apply Hmax, elem_of_cons. by left.
        -- apply Qle_bool_iff in E. eapply Qle_trans; [exact E|].
           apply Hmax, elem_of_cons. by left.
        -- apply Hmax, elem_of_cons. by right.
    + destruct (IH a) as [Hin Hmax]. cbn zeta in Hin, Hmax. split.
      * apply elem_of_cons. right. done.
      * intros h [->|[->|Hh]%elem_of_cons]%elem_of_cons.
        -- assert (Hlt : (decimal_value g.1 g.2 < decimal_value a.1 a.2)%Q).
           { apply Qnot_le_lt. intros Hle%Qle_bool_iff. congruence. }
           apply Qlt_le_weak in Hlt. eapply Qle_trans; [exact Hlt|].
           apply Hmax, elem_of_cons. by left.
        -- apply Hmax, elem_of_cons. by left.
        -- apply Hmax, elem_of_cons. by right.
Qed.

Lemma max_by_value_spec nums :
  match max_by_value nums with
  | None => nums = []
  | Some r => r ∈ nums ∧ ∀ h, h ∈ nums → (found_value h <= found_value r)%Q
  end.
Proof.
  destruct nums as [|g rest]; [done|]. cbn [max_by_value]. apply max_by_value_foldl.
Qed.

Lemma take_digits_spec t :
  Forall (λ c, is_digit c = true) (take_digits t).1.
Proof.
  induction t as [|c t IH]; cbn [take_digits]; [constructor|].
  destruct (is_digit c) eqn:E; [|constructor].
  destruct (take_digits t) as [ds r]. cbn [fst] in *. by constructor.
Qed.

Section fallback_total.
Context (uni_alnum : N → bool).

Lemma match_number_here_digits t g :
  match_number_here uni_alnum t = Some g →
  (3 ≤ length g.1)%nat ∧ (length g.2 ≤ 2)%nat.
Proof.
  unfold match_number_here. destruct (take_digits t) as [ds r].
  destruct (length ds <? 3)%nat eqn:E; [done|]. apply Nat.ltb_ge in E.
  destruct r as [|c r'].
  { destruct (boundary_after uni_alnum []); [|done]. intros [= <-]. cbn. lia. }
  destruct (decide (c = 46%N)) as [->|Hc].
  - destruct (take_digits r') as [fs r''].
    destruct (bool_decide _ && _) eqn:Eb.
    + intros [= <-]. cbn [fst snd]. split; [done|].
      apply andb_true_iff in Eb as [Hb _]. apply bool_decide_eq_true in Hb. lia.
    + cbv beta iota. destruct (boundary_after uni_alnum (46%N :: r')); [|done].
      intros [= <-]. cbn. lia.
  - assert (Hm : match c :: r' with
                 | 46%N :: r'0 =>
                     let '(fs, r'') := take_digits r'0 in
                     if bool_decide (length fs = 1%nat ∨ length fs = 2%nat)
                        && boundary_after uni_alnum r''
                     then Some fs else None
                 | _ => None
                 end = None).
    { destruct c as [|p]; [done|]. do 6 (destruct p as [p|p|]; try done). }
    rewrite Hm. destruct (boundary_after uni_alnum _); [|done]. intros [= <-]. cbn. lia.
Qed.

Lemma findall_numbers_digits t : ∀ pw skip g,
  g ∈ findall_numbers uni_alnum pw skip t → (3 ≤ length g.1)%nat ∧ (length g.2 ≤ 2)%nat.
Proof.
  induction t as [|c t IH]; intros pw skip g H; cbn [findall_numbers] in H.
  - by apply elem_of_nil in H.
  - destruct skip as [|k]; [|by eapply IH].
    destruct (negb pw && is_digit c); [|by eapply IH].
    destruct (match_number_here uni_alnum (c :: t)) as [g0|] eqn:E; [|by eapply IH].
    apply elem_of_cons in H as [->|H]; [by eapply match_number_here_digits|by eapply IH].
Qed.

(** X26: on a text without the character U+201A, [_parse_total_amount]
    returns nothing exactly when the text has no number of three digits or
    more; otherwise it returns the value of one of these numbers, with at
    most two decimals, and no such number of the text has a larger value. *)
Theorem total_is_largest_number txt :
  8218%N ∉ txt →
  let found := findall_numbers uni_alnum false O (commas_to_spaces txt) in
  (_parse_total_amount uni_alnum txt = None ↔ found = [])
  ∧ ∀ v, _parse_total_amount uni_alnum txt = Some v →
      (∃ g, g ∈ found ∧ v = found_value g ∧ (3 ≤ length g.1)%nat ∧ (length g.2 ≤ 2)%nat)
      ∧ ∀ h, h ∈ found → (found_value h <= v)%Q.
Proof.
  intros H found. rewrite (total_label_needs_low_quote uni_alnum txt H). fold found.
  pose proof (max_by_value_spec found) as Hm.
  destruct (max_by_value found) as [r|]; cbn [fmap option_fmap option_map].
  - destruct Hm as [Hin Hmax]. split.
    + split; [done|]. intros E. rewrite E in Hin. by apply elem_of_nil in Hin.
    + intros v [= <-]. split; [|done].
      exists r. split_and!; [done|done|..]; by eapply findall_numbers_digits.
  - split; [done|]. intros v [=].
Qed.
End fallback_total.

(** X26 on [invoice_text], where no code point counts as a letter beyond
    ASCII: the total is one of the numbers found and none is larger. *)
Lemma total_is_largest_number_witness :
  (8218%N ∉ invoice_text)
  ∧ ∃ v, _parse_total_amount (λ _, false) invoice_text = Some v
         ∧ ∀ h, h ∈ findall_numbers (λ _, false) false O (commas_to_spaces invoice_text)
                → (found_value h <= v)%Q.
Proof.
  assert (H : 8218%N ∉ invoice_text) by (apply (bool_decide_unpack _); vm_compute; exact I).
  assert (Hv : ∃ v, _parse_total_amount (λ _, false) invoice_text = Some v)
    by (eexists; vm_compute; reflexivity).
  split; [exact H|]. destruct Hv as [v Hv]. exists v. split; [exact Hv|].
  exact (proj2 (proj2 (total_is_largest_number (λ _, false) invoice_text H) v Hv)).
Defined.

Lemma elem_of_rev {A} (x : A) (l : list A) : x ∈ rev l ↔ x ∈ l.
Proof. rewrite !list_elem_of_In. symmetry. apply in_rev. Qed.

Lemma linebreak_is_space c : is_linebreak c = true → is_space c = true.
Proof.
  unfold is_linebreak, is_space.
  rewrite !orb_true_iff, !andb_true_iff, !N.leb_le, !N.eqb_eq. lia.
Qed.

Lemma skip_spaces_elem t c : c ∈ skip_spaces t → c ∈ t.
Proof.
  induction t as [|a t IH]; cbn [skip_spaces]; [done|].
  destruct (is_space a); [|done]. intros H%IH. apply elem_of_cons. by right.
Qed.

Lemma skip_spaces_head t :
  match skip_spaces t with
  | [] => blank t
  | c :: _ => is_space c = false
  end.
Proof.
  induction t as [|a t IH]; cbn [skip_spaces]; [constructor|].
  destruct (is_space a) eqn:E; [|done].
  destruct (skip_spaces t); [by constructor|done].
Qed.

Lemma skip_spaces_blank t : blank t → skip_spaces t = [].
Proof.
  induction 1 as [|a t Ha _ IH]; [done|]. cbn [skip_spaces]. by rewrite Ha.
Qed.

Lemma skip_spaces_snoc t c :
  is_space c = false → ∃ r, skip_spaces (t ++ [c]) = r ++ [c].
Proof.
  intros Hc. induction t as [|a t IH]; cbn [app skip_spaces].
  - rewrite Hc. by exists [].
  - destruct (is_space a); [done|]. by exists (a :: t).
Qed.

Lemma strip_elem t c : c ∈ strip t → c ∈ t.
Proof.
  unfold strip, rstrip, lstrip. intros H.
  apply (proj1 (elem_of_rev _ _)) in H. apply skip_spaces_elem in H.
  apply (proj1 (elem_of_rev _ _)) in H. by apply skip_spaces_elem.
Qed.

Lemma strip_head t :
  match strip t with
  | [] => blank t
  | c :: _ => is_space c = false
  end.
Proof.
  unfold strip, rstrip, lstrip. pose proof (skip_spaces_head t) as H.
  destruct (skip_spaces t) as [|c r]; [done|].
  cbn [rev]. destruct (skip_spaces_snoc (rev r) c H) as [r' ->].
  by rewrite rev_app_distr.
Qed.

Lemma strip_blank t : blank t → strip t = [].
Proof. intros H. unfold strip, rstrip, lstrip. by rewrite (skip_spaces_blank t H). Qed.

Lemma splitlines_go_elem n : ∀ t cur ln c,
  (length t ≤ n)%nat → ln ∈ splitlines_go cur t → c ∈ ln →
  c ∈ cur ∨ (c ∈ t ∧ is_linebreak c = false).
Proof.
  induction n as [|n IH]; intros t cur ln c Hn Hl Hc.
  - destruct t; [|cbn in Hn; lia]. cbn [splitlines_go] in Hl.
    destruct cur; [by apply elem_of_nil in Hl|].
    apply list_elem_of_singleton in Hl as ->. left. by apply (proj1 (elem_of_rev _ _)).
  - destruct t as [|a t]; cbn [splitlines_go] in Hl.
    { destruct cur; [by apply elem_of_nil in Hl|].
      apply list_elem_of_singleton in Hl as ->. left. by apply (proj1 (elem_of_rev _ _)). }
    cbn [length] in Hn. destruct (is_linebreak a) eqn:Ea.
    + apply elem_of_cons in Hl as [->|Hl]; [left; by apply (proj1 (elem_of_rev _ _))|].
      assert (Hl' : ∃ t', (length t' ≤ n)%nat ∧ ln ∈ splitlines_go [] t'
                          ∧ ∀ x, x ∈ t' → x ∈ t).
      { destruct (decide (a = 13%N)) as [->|Ha].
        - destruct t as [|b t'']; [exists []; split_and!; [cbn; lia|done|done]|].
          destruct (decide (b = 10%N)) as [->|Hb].
          + exists t''. split_and!; [cbn in Hn; lia|done|].
            intros x Hx. apply elem_of_cons. by right.
          + exists (b :: t''). split_and!; [lia| |done].
            destruct b as [|p]; [done|]. do 4 (destruct p as [p|p|]; try done).
        - exists t. split_and!; [lia| |done].
          destruct a as [|p]; [done|]. do 4 (destruct p as [p|p|]; try done). }
      destruct Hl' as (t' & Hlen & Hin & Hsub).
      destruct (IH t' [] ln c Hlen Hin Hc) as [H|[H1 H2]]; [by apply elem_of_nil in H|].
      right. split; [|done]. apply elem_of_cons. right. by apply Hsub.
    + destruct (IH t (a :: cur) ln c ltac:(lia) Hl Hc) as [H|[H1 H2]].
      * apply elem_of_cons in H as [->|H]; [|by left].
        right. split; [apply elem_of_cons; by left|done].
      * right. split; [|done]. apply elem_of_cons. by right.
Qed.

Lemma splitlines_go_cover n : ∀ t cur c,
  (length t ≤ n)%nat → c ∈ cur ∨ (c ∈ t ∧ is_linebreak c = false) →
  ∃ ln, ln ∈ splitlines_go cur t ∧ c ∈ ln.
Proof.
  induction n as [|n IH]; intros t cur c Hn Hc.
  - destruct t; [|cbn in Hn; lia]. destruct Hc as [Hc|[Hc _]]; [|by apply elem_of_nil in Hc].
    cbn [splitlines_go]. destruct cur as [|x cur]; [by apply elem_of_nil in Hc|].
    exists (rev (x :: cur)). split; [by apply list_elem_of_singleton|by apply (proj2 (elem_of_rev _ _))].
  - destruct t as [|a t]; cbn [splitlines_go].
    { destruct Hc as [Hc|[Hc _]]; [|by apply elem_of_nil in Hc].
      destruct cur as [|x cur]; [by apply elem_of_nil in Hc|].
      exists (rev (x :: cur)). split; [by apply list_elem_of_singleton|by apply (proj2 (elem_of_rev _ _))]. }
    cbn [length] in Hn. destruct (is_linebreak a) eqn:Ea.
    + destruct Hc as [Hc|[Hc Hnl]].
      { exists (rev cur). split; [apply elem_of_cons; by left|by apply (proj2 (elem_of_rev _ _))]. }
      apply elem_of_cons in Hc as [->|Hc]; [congruence|].
      match goal with
      | |- ∃ ln, ln ∈ _ :: ?m ∧ _ =>
          assert (Hl' : ∃ t', (length t' ≤ n)%nat ∧ c ∈ t' ∧ m = splitlines_go [] t')
      end.
      { destruct (decide (a = 13%N)) as [->|Ha].
        - destruct t as [|b t'']; [by apply elem_of_nil in Hc|].
          destruct (decide (b = 10%N)) as [->|Hb].
          + exists t''. split_and!; [cbn in Hn; lia| |done].
            apply elem_of_cons in Hc as [->|Hc]; [|done]. by vm_compute in Hnl.
          + exists (b :: t''). split_and!; [lia|done|].
            destruct b as [|p]; [done|]. do 4 (destruct p as [p|p|]; try done).
        - exists t. split_and!; [lia|done|].
          destruct a as [|p]; [done|]. do 4 (destruct p as [p|p|]; try done). }
      destruct Hl' as (t' & Hlen & Hin & Heq). rewrite Heq.
      destruct (IH t' [] c Hlen (or_intror (conj Hin Hnl))) as (ln & Hln & Hcl).
      exists ln. split; [apply elem_of_cons; by right|done].
    + apply IH; [lia|]. destruct Hc as [Hc|[Hc Hnl]].
      * left. apply elem_of_cons. by right.
      * apply elem_of_cons in Hc as [->|Hc]; [left; apply elem_of_cons; by left|by right].
Qed.

Lemma vendor_lines_empty txt :
  filter (λ ln, ln ≠ []) (strip <$> splitlines txt) = [] ↔ blank txt.
Proof.
  unfold blank. rewrite Forall_forall. split.
  - intros H c Hc. destruct (is_linebreak c) eqn:El; [by apply linebreak_is_space|].
    destruct (splitlines_go_cover (length txt) txt [] c (le_n _) (or_intror (conj Hc El)))
      as (ln & Hln & Hcl).
    pose proof (strip_head ln) as Hs.
    destruct (strip ln) as [|x r] eqn:Es.
    + eapply Forall_forall in Hs; [exact Hs|done].
    + exfalso. assert (Hin : x :: r ∈ filter (λ ln, ln ≠ []) (strip <$> splitlines txt)).
      { apply list_elem_of_filter. split; [done|]. rewrite <- Es. by apply list_elem_of_fmap_2. }
      rewrite H in Hin. by apply elem_of_nil in Hin.
  - intros H. destruct (filter _ _) as [|x r] eqn:E; [done|]. exfalso.
    assert (Hin : x ∈ filter (λ ln, ln ≠ []) (strip <$> splitlines txt))
      by (rewrite E; apply elem_of_cons; by left).
    apply list_elem_of_filter in Hin as [Hne (ln & -> & Hln)%list_elem_of_fmap].
    apply Hne, strip_blank. apply Forall_forall. intros c Hc. apply H.
    destruct (splitlines_go_elem (length txt) txt [] ln c (le_n _) Hln Hc) as [Hn|[Hin _]];
      [by apply elem_of_nil in Hn|done].
Qed.

(** X27: [_parse_vendor_name] returns nothing exactly for a text of white
    space only; a name it returns has between 1 and 255 characters, starts
    with a character that is not white space, and is made of characters of
    the text, none of them a line boundary. *)
Theorem vendor_name_shape txt :
  (_parse_vendor_name txt = None ↔ blank txt)
  ∧ ∀ v, _parse_vendor_name txt = Some v →
      (0 < length v ≤ 255)%nat
      ∧ (∃ c rest, v = c :: rest ∧ is_space c = false)
      ∧ ∀ c, c ∈ v → c ∈ txt ∧ is_linebreak c = false.
Proof.
  unfold _parse_vendor_name. pose proof (vendor_lines_empty txt) as He.
  destruct (filter _ _) as [|x r] eqn:E.
  - split; [split; [intros _; by apply He|done]|]. intros v [=].
  - split; [split; [done|intros Hb; by apply He in Hb]|].
    intros v [= <-].
    assert (Hin : x ∈ filter (λ ln, ln ≠ []) (strip <$> splitlines txt))
      by (rewrite E; apply elem_of_cons; by left).
    apply list_elem_of_filter in Hin as [Hne (ln & -> & Hln)%list_elem_of_fmap].
    pose proof (strip_head ln) as Hs.
    destruct (strip ln) as [|c rest] eqn:Es; [done|]. split_and!.
    + cbn [take length]. lia.
    + rewrite length_take. lia.
    + exists c, (take 254 rest). done.
    + intros a Ha. assert (Ha' : a ∈ strip ln).
      { rewrite Es. apply elem_of_take in Ha as (i & Hi & _).
        by eapply list_elem_of_lookup_2. }
      apply strip_elem in Ha'.
      destruct (splitlines_go_elem (length txt) txt [] ln a (le_n _) Hln Ha') as [Hn|[? ?]];
        [by apply elem_of_nil in Hn|done].
Qed.

(** X27 on [invoice_text], whose first line is indented. *)
Lemma vendor_name_shape_witness :
  ∃ v, _parse_vendor_name invoice_text = Some v
       ∧ (0 < length v ≤ 255)%nat
       ∧ ∀ c, c ∈ v → c ∈ invoice_text ∧ is_linebreak c = false.
Proof.
  assert (Hv : ∃ v, _parse_vendor_name invoice_text = Some v)
    by (eexists; vm_compute; reflexivity).
  destruct Hv as [v Hv]. exists v.
  destruct (proj2 (vendor_name_shape invoice_text) v Hv) as (Hl & _ & Hc).
  split; [exact Hv|split; [exact Hl|exact Hc]].
Defined.

End invoice_text.
